(** * Rose bot: a shallow embedding of the conversational state engine

    The development follows the two source modules:
    - [memory.js]: the SQLite-backed [MemoryStore] (messages, long-term facts,
      moods), in its three revisions (memoising, prepared statements,
      validated);
    - [index.js]: the model client [chatWithLLM], the extractors, the
      context assembler [buildMessages], the turn handler [handleMessage]
      and the proactive scheduler [initiateActiveConversation].

    JavaScript strings are sequences of UTF-16 code units, numbers that hold
    times, counts and chat ids are integers, a promise that rejects is an
    exception. A chat id is a number where Telegram hands it over and a
    string where it is read back from the [user_id] column, which is TEXT:
    both are kept apart, as a [Map] keeps them apart. *)

From Stdlib Require Import ZArith NArith List Lia Permutation Sorted String Ascii Decimal
  DecimalPos.
From stdpp Require Import base list gmap numbers sorting.

Open Scope Z_scope.

(* ===================================================================== *)
(** * JavaScript values                                                   *)
(* ===================================================================== *)

(** A string is its UTF-16 code units: [s.length] is [length s]. *)
Definition jsstring : Type := list N.

(** ASCII literals of the source, unit by unit. *)
Definition lit (s : string) : jsstring := N_of_ascii <$> list_ascii_of_string s.

(** [!s] for a string: only the empty string is falsy. *)
Definition falsy_string (s : jsstring) : bool :=
  match s with [] => true | _ :: _ => false end.

(** [!n] for a number that is an integer: only zero is falsy. *)
Definition falsy_number (n : Z) : bool := n =? 0.

Fixpoint digits (d : Decimal.uint) : jsstring :=
  match d with
  | Decimal.Nil => []
  | Decimal.D0 d' => 48%N :: digits d'
  | Decimal.D1 d' => 49%N :: digits d'
  | Decimal.D2 d' => 50%N :: digits d'
  | Decimal.D3 d' => 51%N :: digits d'
  | Decimal.D4 d' => 52%N :: digits d'
  | Decimal.D5 d' => 53%N :: digits d'
  | Decimal.D6 d' => 54%N :: digits d'
  | Decimal.D7 d' => 55%N :: digits d'
  | Decimal.D8 d' => 56%N :: digits d'
  | Decimal.D9 d' => 57%N :: digits d'
  end.

(** An integer inside a template literal. *)
Definition number_toString (n : Z) : jsstring :=
  match n with
  | Z0 => [48%N]
  | Zpos p => digits (Pos.to_uint p)
  | Zneg p => 45%N :: digits (Pos.to_uint p)
  end.

(** A chat id as the program holds it. [msg.chat.id] is a number; what
    [getUserIds] returns is the text of the [user_id] column, a string. A
    [Map] tells the number 7 from the string ['7.0']. *)
Inductive ChatId : Type :=
| IdNum (n : Z)
| IdStr (s : jsstring).

(** The [userId] of the source: either of the two. *)
Abbreviation userId := ChatId (only parsing).

Global Instance ChatId_eq_dec : EqDecision ChatId := ltac:(solve_decision).

Global Instance ChatId_countable : Countable ChatId :=
  inj_countable'
    (fun u => match u with IdNum n => inl n | IdStr s => inr s end)
    (fun x => match x with inl n => IdNum n | inr s => IdStr s end)
    (fun u => match u with IdNum _ => eq_refl | IdStr _ => eq_refl end).

(** [!userId]: zero and the empty string are falsy. *)
Definition falsy_id (u : userId) : bool :=
  match u with
  | IdNum n => falsy_number n
  | IdStr s => falsy_string s
  end.

Fixpoint dropwhile_zero (ds : jsstring) : jsstring :=
  match ds with
  | d :: ds' => if (d =? 48)%N then dropwhile_zero ds' else ds
  | [] => []
  end.

(** The fraction digits without their trailing zeros. *)
Definition strip_zeros (ds : jsstring) : jsstring :=
  reverse (dropwhile_zero (reverse ds)).

(** The driver binds a JavaScript number as a double, and SQLite writes a
    double into a TEXT column as [printf("%!.15g")] does: an integer below
    10^15 in magnitude as its digits and [.0], a larger one with 15
    significant digits and an exponent, so that 1000000000000001 and
    1000000000000002 are both ['1.0e+15']. (The integers are the ones a
    double holds exactly; where the sixteenth digit is an exact 5 SQLite
    rounds as its floating-point arithmetic falls, here it is rounded up.) *)
Definition real_to_text (n : Z) : jsstring :=
  let a := Z.abs n in
  let sign := if n <? 0 then [45%N] else [] in
  if a <? 10 ^ 15 then sign ++ number_toString a ++ lit ".0"
  else
    let e := Z.of_nat (length (number_toString a)) - 1 in
    let m := (a + 5 * 10 ^ (e - 15)) / 10 ^ (e - 14) in
    let carried := m =? 10 ^ 15 in
    let mantissa := number_toString (if carried then 10 ^ 14 else m) in
    let fraction := strip_zeros (drop 1 mantissa) in
    sign ++ take 1 mantissa ++ lit "."
    ++ (if falsy_string fraction then lit "0" else fraction)
    ++ lit "e+" ++ number_toString (if carried then e + 1 else e).

(** The text SQLite stores, and compares, for an id bound to [user_id]. *)
Definition id_text (u : userId) : jsstring :=
  match u with
  | IdNum n => real_to_text n
  | IdStr s => s
  end.

(** The code points of a string: a surrogate pair is one code point (a lone
    surrogate is taken as the code point of its unit). *)
Fixpoint code_points (s : jsstring) : list N :=
  match s with
  | [] => []
  | h :: rest =>
      match rest with
      | l :: s' =>
          if ((55296 <=? h) && (h <=? 56319) && (56320 <=? l) && (l <=? 57343))%N
          then (65536 + (h - 55296) * 1024 + (l - 56320))%N :: code_points s'
          else h :: code_points rest
      | [] => [h]
      end
  end.

(** The BINARY collation of SQLite on UTF-8 text: the bytes are compared,
    which is the order of the code points, and a proper prefix comes first. *)
Fixpoint binary_leb (a b : list N) : bool :=
  match a, b with
  | [], _ => true
  | _ :: _, [] => false
  | x :: a', y :: b' =>
      if (x <? y)%N then true
      else if (y <? x)%N then false
      else binary_leb a' b'
  end.

Definition text_leb (a b : jsstring) : bool :=
  binary_leb (code_points a) (code_points b).

(** What a [throw] carries. *)
Inductive JsError : Type :=
| Error (message : jsstring)
| TypeError (message : jsstring)
| AxiosError (message : jsstring).

(** The outcome of a call that may throw (of a promise that may reject). *)
Inductive Exc (A : Type) : Type :=
| Ok (a : A)
| Throw (e : JsError).
Arguments Ok {A} a.
Arguments Throw {A} e.

(** A [{role, content}] object: a row of [SELECT role, content] and an entry
    of the request sent to the model. *)
Record ChatMessage : Type := { role : jsstring; content : jsstring }.

Definition role_system : jsstring := lit "system".
Definition role_user : jsstring := lit "user".
Definition role_assistant : jsstring := lit "assistant".

(* ===================================================================== *)
(** * The SQLite schema and statements of memory.js                       *)
(* ===================================================================== *)

(** [messages(id, user_id, role, content, created_at)]. No statement reads
    [id]; the list keeps the rows in rowid order. [user_id] is declared TEXT
    in all three tables. *)
Record MessageRow : Type :=
  { msg_user_id : jsstring; msg_role : jsstring; msg_content : jsstring; msg_created_at : Z }.

(** [memories(id, user_id, fact, created_at, UNIQUE(user_id, fact))]. *)
Record MemoryRow : Type :=
  { mem_user_id : jsstring; mem_fact : jsstring; mem_created_at : Z }.

(** [moods(id, user_id, mood, created_at)]; [deleteOldMoods] selects by [id]. *)
Record MoodRow : Type :=
  { mood_id : Z; mood_user_id : jsstring; mood_mood : jsstring; mood_created_at : Z }.

(** The database file: three tables, rows in rowid order, and the
    AUTOINCREMENT counter of [moods] (the largest id handed out). *)
Record Tables : Type :=
  { messages : list MessageRow;
    memories : list MemoryRow;
    moods : list MoodRow;
    moods_seq : Z }.

Definition empty_tables : Tables :=
  {| messages := []; memories := []; moods := []; moods_seq := 0 |}.

Section OrderBy.
Context {A : Type} (created_at : A -> Z).

(** Rows are ordered by [created_at] and, among equal times, by rowid: the
    order of the index on [(user_id, created_at)] that [init] creates for
    [messages] and [moods] from the second revision on. One row entering
    that order goes before the first row that is not older; the row being
    placed has the smaller rowid. *)
Fixpoint index_insert (x : A) (l : list A) : list A :=
  match l with
  | [] => [x]
  | y :: l' => if created_at x <=? created_at y then x :: y :: l'
               else y :: index_insert x l'
  end.

(** [ORDER BY created_at ASC]: that order, forwards. *)
Definition order_by_asc (rows : list A) : list A := foldr index_insert [] rows.

(** [ORDER BY created_at DESC]: the same order, backwards. *)
Definition order_by_desc (rows : list A) : list A := reverse (order_by_asc rows).

End OrderBy.

(** [ORDER BY created_at DESC] where no index holds that order ([memories]
    in every revision, every table in the first one): SQLite sorts the rows
    it scanned, and rows of equal times stay as the scan met them. *)
Definition sorter_desc {A : Type} (created_at : A -> Z) (scanned : list A) : list A :=
  order_by_asc (fun r => - created_at r) scanned.

(** [ORDER BY created_at ASC] by the sorter. *)
Definition sorter_asc {A : Type} (created_at : A -> Z) (scanned : list A) : list A :=
  order_by_asc created_at scanned.

Section Collation.
Context {A : Type} (text : A -> jsstring).

Fixpoint collation_insert (x : A) (l : list A) : list A :=
  match l with
  | [] => [x]
  | y :: l' => if text_leb (text x) (text y) then x :: y :: l'
               else y :: collation_insert x l'
  end.

(** The order in which an index on a TEXT column holds the rows: by that
    text, rows of equal text by rowid. *)
Definition by_text (rows : list A) : list A := foldr collation_insert [] rows.

End Collation.

(** [LIMIT limit OFFSET offset]: a negative limit is no limit (the source
    relies on it in [LIMIT -1 OFFSET 50]). *)
Definition sql_limit {A : Type} (limit : Z) (offset : nat) (rows : list A) : list A :=
  let rest := drop offset rows in
  if limit <? 0 then rest else take (Z.to_nat limit) rest.

Definition select_role_content (r : MessageRow) : ChatMessage :=
  {| role := msg_role r; content := msg_content r |}.

(** [WHERE user_id = ?]: the rows whose [user_id] is the text of the id
    bound to the parameter. *)
Definition messages_of (u : userId) (d : Tables) : list MessageRow :=
  filter (fun r => msg_user_id r = id_text u) (messages d).

Definition memories_of (u : userId) (d : Tables) : list MemoryRow :=
  filter (fun r => mem_user_id r = id_text u) (memories d).

Definition moods_of (u : userId) (d : Tables) : list MoodRow :=
  filter (fun r => mood_user_id r = id_text u) (moods d).

(** The prepared statements of the second and third revision, each as the
    function it runs on the tables. *)
Module Stmt.

(** [INSERT INTO messages (user_id, role, content, created_at) VALUES (?, ?, ?, ?)] *)
Definition insertMessage (u : userId) (r c : jsstring) (now : Z) (d : Tables) : Tables :=
  {| messages := messages d ++
       [{| msg_user_id := id_text u; msg_role := r; msg_content := c;
           msg_created_at := now |}];
     memories := memories d; moods := moods d; moods_seq := moods_seq d |}.

(** Is there a row that the UNIQUE(user_id, fact) constraint would hit? *)
Definition conflicts (u : userId) (f : jsstring) (d : Tables) : bool :=
  bool_decide (Exists (fun r => mem_user_id r = id_text u /\ mem_fact r = f) (memories d)).

(** [INSERT INTO memories (user_id, fact, created_at) VALUES (?, ?, ?)
     ON CONFLICT(user_id, fact) DO NOTHING] *)
Definition insertMemory (u : userId) (f : jsstring) (now : Z) (d : Tables) : Tables :=
  if conflicts u f d then d
  else {| messages := messages d;
          memories := memories d ++
            [{| mem_user_id := id_text u; mem_fact := f; mem_created_at := now |}];
          moods := moods d; moods_seq := moods_seq d |}.

(** [INSERT INTO moods (user_id, mood, created_at) VALUES (?, ?, ?)] *)
Definition insertMood (u : userId) (m : jsstring) (now : Z) (d : Tables) : Tables :=
  {| messages := messages d; memories := memories d;
     moods := moods d ++
       [{| mood_id := moods_seq d + 1; mood_user_id := id_text u; mood_mood := m;
           mood_created_at := now |}];
     moods_seq := moods_seq d + 1 |}.

(** [SELECT COUNT( * ) as count FROM messages WHERE user_id = ?]
    ([getMessageCount] and [getChatCount] are the same text). *)
Definition getChatCount (u : userId) (d : Tables) : Z :=
  Z.of_nat (length (messages_of u d)).

(** [SELECT fact FROM memories WHERE user_id = ? ORDER BY created_at DESC].
    The rows are found through the index on [(user_id)], in rowid order,
    and no index holds [created_at]: the sorter orders them. *)
Definition getMemories (u : userId) (d : Tables) : list jsstring :=
  mem_fact <$> sorter_desc mem_created_at (memories_of u d).

(** [SELECT mood FROM moods WHERE user_id = ? ORDER BY created_at DESC LIMIT 1],
    run with [.get()]: the first row or [undefined]. *)
Definition getMood (u : userId) (d : Tables) : option jsstring :=
  head (mood_mood <$> sql_limit 1 0 (order_by_desc mood_created_at (moods_of u d))).

(** The rows behind [getRecentMessages], before the projection. *)
Definition recentRows (u : userId) (limit : Z) (d : Tables) : list MessageRow :=
  sql_limit limit 0 (order_by_desc msg_created_at (messages_of u d)).

(** [SELECT role, content FROM messages WHERE user_id = ?
     ORDER BY created_at DESC LIMIT ?] *)
Definition getRecentMessages (u : userId) (limit : Z) (d : Tables) : list ChatMessage :=
  select_role_content <$> recentRows u limit d.

(** [SELECT role, content FROM messages WHERE user_id = ? ORDER BY created_at ASC] *)
Definition getAllMessages (u : userId) (d : Tables) : list ChatMessage :=
  select_role_content <$> order_by_asc msg_created_at (messages_of u d).

(** [DELETE FROM messages WHERE user_id = ?] *)
Definition clearMessages (u : userId) (d : Tables) : Tables :=
  {| messages := filter (fun r => msg_user_id r <> id_text u) (messages d);
     memories := memories d; moods := moods d; moods_seq := moods_seq d |}.

(** [DELETE FROM memories WHERE user_id = ?] *)
Definition clearMemories (u : userId) (d : Tables) : Tables :=
  {| messages := messages d;
     memories := filter (fun r => mem_user_id r <> id_text u) (memories d);
     moods := moods d; moods_seq := moods_seq d |}.

(** [DELETE FROM moods WHERE user_id = ?] *)
Definition clearMoods (u : userId) (d : Tables) : Tables :=
  {| messages := messages d; memories := memories d;
     moods := filter (fun r => mood_user_id r <> id_text u) (moods d);
     moods_seq := moods_seq d |}.

(** The inner [SELECT id FROM moods WHERE user_id = ?
     ORDER BY created_at DESC LIMIT -1 OFFSET 50]. *)
Definition oldMoodIds (u : userId) (d : Tables) : list Z :=
  mood_id <$> sql_limit (-1) 50 (order_by_desc mood_created_at (moods_of u d)).

(** [DELETE FROM moods WHERE id IN (...)] *)
Definition deleteOldMoods (u : userId) (d : Tables) : Tables :=
  {| messages := messages d; memories := memories d;
     moods := filter (fun r => mood_id r ∉ oldMoodIds u d) (moods d);
     moods_seq := moods_seq d |}.

(** [SELECT DISTINCT user_id FROM messages]: the texts of the column, each
    once. The scan runs over an index that starts with [user_id], so they
    come in the order of that text. *)
Definition getUserIds (d : Tables) : list jsstring :=
  by_text id (remove_dups (msg_user_id <$> messages d)).

End Stmt.

(* ===================================================================== *)
(** * MemoryStore, the validated revision (memory.js, third revision)     *)
(* ===================================================================== *)

(** The handle [this.db]: [null] until [init], closed by [close]. A statement
    run on anything but an open handle throws. *)
Inductive Connection : Type := Unopened | Opened | Closed.

Record MemoryStore : Type := { conn : Connection; disk : Tables }.

Definition driver_error : JsError := TypeError (lit "The database connection is not open").

(** Running a reading statement. *)
Definition query {A : Type} (s : MemoryStore) (q : Tables -> A) : Exc A :=
  match conn s with
  | Opened => Ok (q (disk s))
  | _ => Throw driver_error
  end.

(** Running a writing statement. *)
Definition run (s : MemoryStore) (q : Tables -> Tables) : Exc MemoryStore :=
  match conn s with
  | Opened => Ok {| conn := Opened; disk := q (disk s) |}
  | _ => Throw driver_error
  end.

(** [arr.slice(-n)] for a positive [n]. *)
Definition slice_last {A : Type} (n : nat) (l : list A) : list A :=
  drop (length l - n)%nat l.

Module Store.

(** [new MemoryStore()] beside a database file holding [d]. *)
Definition new (d : Tables) : MemoryStore := {| conn := Unopened; disk := d |}.

(** [init()]: opens the file; the tables are created only if missing. *)
Definition init (s : MemoryStore) : MemoryStore :=
  match conn s with
  | Unopened => {| conn := Opened; disk := disk s |}
  | _ => s
  end.

(** [close()] *)
Definition close (s : MemoryStore) : MemoryStore :=
  match conn s with
  | Unopened => s
  | _ => {| conn := Closed; disk := disk s |}
  end.

(** [add(userId, role, content)]; [now] is the [Date.now()] it reads. The
    [catch] logs and rethrows. *)
Definition add (now : Z) (u : userId) (r c : jsstring) (s : MemoryStore)
  : Exc MemoryStore :=
  if falsy_id u || falsy_string r
  then Throw (Error (lit "Invalid parameters for add"))
  else run s (Stmt.insertMessage u r c now).

(** [addImportantFact(userId, fact)] *)
Definition addImportantFact (now : Z) (u : userId) (f : jsstring) (s : MemoryStore)
  : Exc MemoryStore :=
  if falsy_id u || falsy_string f
  then Throw (Error (lit "Invalid parameters for addImportantFact"))
  else run s (Stmt.insertMemory u f now).

(** [addMood(userId, mood)]: insert, then trim. *)
Definition addMood (now : Z) (u : userId) (m : jsstring) (s : MemoryStore)
  : Exc MemoryStore :=
  if falsy_id u || falsy_string m
  then Throw (Error (lit "Invalid parameters for addMood"))
  else match run s (Stmt.insertMood u m now) with
       | Ok s1 => run s1 (Stmt.deleteOldMoods u)
       | Throw e => Throw e
       end.

(** [getImportantFacts(userId)] *)
Definition getImportantFacts (s : MemoryStore) (u : userId) : Exc (list jsstring) :=
  query s (Stmt.getMemories u).

(** [getRecentMood(userId)]: the mood or [null]. *)
Definition getRecentMood (s : MemoryStore) (u : userId) : Exc (option jsstring) :=
  query s (Stmt.getMood u).

(** [getRecent(userId, limit)]: [Math.min(limit, 50)], the statement,
    [reverse()]; [[]] when the statement throws. *)
Definition getRecent (s : MemoryStore) (u : userId) (limit : Z) : list ChatMessage :=
  let maxLimit := Z.min limit 50 in
  match query s (Stmt.getRecentMessages u maxLimit) with
  | Ok rows => reverse rows
  | Throw _ => []
  end.

(** [getAll(userId)]: the statement, [slice(-100)]; [[]] when it throws. *)
Definition getAll (s : MemoryStore) (u : userId) : list ChatMessage :=
  match query s (Stmt.getAllMessages u) with
  | Ok rows => slice_last 100 rows
  | Throw _ => []
  end.

(** [getChatCount(userId)] *)
Definition getChatCount (s : MemoryStore) (u : userId) : Exc Z :=
  query s (Stmt.getChatCount u).

(** [clear(userId)]: three deletes; the first one that throws ends it. *)
Definition clear (u : userId) (s : MemoryStore) : Exc MemoryStore :=
  match run s (Stmt.clearMessages u) with
  | Ok s1 =>
      match run s1 (Stmt.clearMemories u) with
      | Ok s2 => run s2 (Stmt.clearMoods u)
      | Throw e => Throw e
      end
  | Throw e => Throw e
  end.

(** [getUserIds()]: strings. *)
Definition getUserIds (s : MemoryStore) : Exc (list jsstring) :=
  query s Stmt.getUserIds.

End Store.

(* ===================================================================== *)
(** * MemoryStore, the prepared-statement revision (second revision)      *)
(* ===================================================================== *)

(** The same statements, prepared once in [init]; no argument is checked,
    nothing is caught, [getRecent] passes its limit on and [getAll] returns
    every row. *)
Module Prepared.

Definition add (now : Z) (u : userId) (r c : jsstring) (s : MemoryStore)
  : Exc MemoryStore :=
  run s (Stmt.insertMessage u r c now).

Definition addImportantFact (now : Z) (u : userId) (f : jsstring) (s : MemoryStore)
  : Exc MemoryStore :=
  run s (Stmt.insertMemory u f now).

Definition addMood (now : Z) (u : userId) (m : jsstring) (s : MemoryStore)
  : Exc MemoryStore :=
  match run s (Stmt.insertMood u m now) with
  | Ok s1 => run s1 (Stmt.deleteOldMoods u)
  | Throw e => Throw e
  end.

Definition getImportantFacts (s : MemoryStore) (u : userId) : Exc (list jsstring) :=
  query s (Stmt.getMemories u).

Definition getRecentMood (s : MemoryStore) (u : userId) : Exc (option jsstring) :=
  query s (Stmt.getMood u).

Definition getRecent (s : MemoryStore) (u : userId) (limit : Z) : Exc (list ChatMessage) :=
  match query s (Stmt.getRecentMessages u limit) with
  | Ok rows => Ok (reverse rows)
  | Throw e => Throw e
  end.

Definition getAll (s : MemoryStore) (u : userId) : Exc (list ChatMessage) :=
  query s (Stmt.getAllMessages u).

Definition getChatCount (s : MemoryStore) (u : userId) : Exc Z :=
  query s (Stmt.getChatCount u).

Definition clear (u : userId) (s : MemoryStore) : Exc MemoryStore :=
  match run s (Stmt.clearMessages u) with
  | Ok s1 =>
      match run s1 (Stmt.clearMemories u) with
      | Ok s2 => run s2 (Stmt.clearMoods u)
      | Throw e => Throw e
      end
  | Throw e => Throw e
  end.

Definition getUserIds (s : MemoryStore) : Exc (list jsstring) :=
  query s Stmt.getUserIds.

End Prepared.

(* ===================================================================== *)
(** * MemoryStore, the memoising revision (first revision)                *)
(* ===================================================================== *)

(** The statements of the first revision, which it prepares where it runs
    them. Its [init] creates the tables and no index: a search by [user_id]
    scans the table in rowid order, except on [memories], where it runs over
    the index that UNIQUE(user_id, fact) brings, so that the user's rows
    come by the text of the fact. Every ORDER BY is the sorter's. The
    inserts and the deletes by [user_id] are those of [Stmt]. *)
Module Scan.

(** [SELECT fact FROM memories WHERE user_id = ? ORDER BY created_at DESC] *)
Definition getMemories (u : userId) (d : Tables) : list jsstring :=
  mem_fact <$> sorter_desc mem_created_at (by_text mem_fact (memories_of u d)).

(** [SELECT mood FROM moods WHERE user_id = ? ORDER BY created_at DESC LIMIT 1] *)
Definition getMood (u : userId) (d : Tables) : option jsstring :=
  head (mood_mood <$> sql_limit 1 0 (sorter_desc mood_created_at (moods_of u d))).

(** [SELECT role, content FROM messages WHERE user_id = ?
     ORDER BY created_at DESC LIMIT ?] *)
Definition getRecentMessages (u : userId) (limit : Z) (d : Tables) : list ChatMessage :=
  select_role_content <$> sql_limit limit 0 (sorter_desc msg_created_at (messages_of u d)).

(** [SELECT role, content FROM messages WHERE user_id = ? ORDER BY created_at ASC] *)
Definition getAllMessages (u : userId) (d : Tables) : list ChatMessage :=
  select_role_content <$> sorter_asc msg_created_at (messages_of u d).

(** The inner [SELECT id FROM moods WHERE user_id = ?
     ORDER BY created_at DESC LIMIT -1 OFFSET 50]. *)
Definition oldMoodIds (u : userId) (d : Tables) : list Z :=
  mood_id <$> sql_limit (-1) 50 (sorter_desc mood_created_at (moods_of u d)).

(** [DELETE FROM moods WHERE id IN (...)] *)
Definition deleteOldMoods (u : userId) (d : Tables) : Tables :=
  {| messages := messages d; memories := memories d;
     moods := filter (fun r => mood_id r ∉ oldMoodIds u d) (moods d);
     moods_seq := moods_seq d |}.

(** [SELECT DISTINCT user_id FROM messages]: the texts of the column in the
    order the scan of the table first meets them. *)
Definition getUserIds (d : Tables) : list jsstring :=
  remove_dups (msg_user_id <$> messages d).

End Scan.

(** [importantCache] and [moodCache] are the two [Map]s of the constructor,
    keyed by the [userId] the caller passed. *)
Record CachedStore : Type :=
  { c_conn : Connection;
    c_disk : Tables;
    importantCache : gmap ChatId (list jsstring);
    moodCache : gmap ChatId jsstring }.

Module Cached.

Definition new (d : Tables) : CachedStore :=
  {| c_conn := Unopened; c_disk := d; importantCache := ∅; moodCache := ∅ |}.

Definition init (s : CachedStore) : CachedStore :=
  match c_conn s with
  | Unopened => {| c_conn := Opened; c_disk := c_disk s;
                   importantCache := importantCache s; moodCache := moodCache s |}
  | _ => s
  end.

(** [this.db.prepare(...).run(...)] *)
Definition run (s : CachedStore) (q : Tables -> Tables) : Exc CachedStore :=
  match c_conn s with
  | Opened => Ok {| c_conn := Opened; c_disk := q (c_disk s);
                    importantCache := importantCache s; moodCache := moodCache s |}
  | _ => Throw driver_error
  end.

(** [this.db.prepare(...).all(...)] or [.get(...)] *)
Definition query {A : Type} (s : CachedStore) (q : Tables -> A) : Exc A :=
  match c_conn s with
  | Opened => Ok (q (c_disk s))
  | _ => Throw driver_error
  end.

Definition forget_facts (u : userId) (s : CachedStore) : CachedStore :=
  {| c_conn := c_conn s; c_disk := c_disk s;
     importantCache := delete u (importantCache s); moodCache := moodCache s |}.

Definition forget_mood (u : userId) (s : CachedStore) : CachedStore :=
  {| c_conn := c_conn s; c_disk := c_disk s;
     importantCache := importantCache s; moodCache := delete u (moodCache s) |}.

Definition remember_facts (u : userId) (facts : list jsstring) (s : CachedStore)
  : CachedStore :=
  {| c_conn := c_conn s; c_disk := c_disk s;
     importantCache := <[u := facts]> (importantCache s); moodCache := moodCache s |}.

Definition remember_mood (u : userId) (m : jsstring) (s : CachedStore) : CachedStore :=
  {| c_conn := c_conn s; c_disk := c_disk s;
     importantCache := importantCache s; moodCache := <[u := m]> (moodCache s) |}.

Definition add (now : Z) (u : userId) (r c : jsstring) (s : CachedStore)
  : Exc CachedStore :=
  run s (Stmt.insertMessage u r c now).

(** The insert, then [importantCache.delete(userId)]. *)
Definition addImportantFact (now : Z) (u : userId) (f : jsstring) (s : CachedStore)
  : Exc CachedStore :=
  match run s (Stmt.insertMemory u f now) with
  | Ok s1 => Ok (forget_facts u s1)
  | Throw e => Throw e
  end.

(** The insert, [moodCache.delete(userId)], then the trim. *)
Definition addMood (now : Z) (u : userId) (m : jsstring) (s : CachedStore)
  : Exc CachedStore :=
  match run s (Stmt.insertMood u m now) with
  | Ok s1 => run (forget_mood u s1) (Scan.deleteOldMoods u)
  | Throw e => Throw e
  end.

(** The cached list if there is one; else the query, whose result is cached.
    The second component is the store after the call. *)
Definition getImportantFacts (s : CachedStore) (u : userId)
  : Exc (list jsstring) * CachedStore :=
  match importantCache s !! u with
  | Some facts => (Ok facts, s)
  | None =>
      match query s (Scan.getMemories u) with
      | Ok facts => (Ok facts, remember_facts u facts s)
      | Throw e => (Throw e, s)
      end
  end.

(** The cached mood if there is one; else the query; only a mood that was
    found is cached. *)
Definition getRecentMood (s : CachedStore) (u : userId)
  : Exc (option jsstring) * CachedStore :=
  match moodCache s !! u with
  | Some m => (Ok (Some m), s)
  | None =>
      match query s (Scan.getMood u) with
      | Ok (Some m) => (Ok (Some m), remember_mood u m s)
      | Ok None => (Ok None, s)
      | Throw e => (Throw e, s)
      end
  end.

Definition getRecent (s : CachedStore) (u : userId) (limit : Z) : Exc (list ChatMessage) :=
  match query s (Scan.getRecentMessages u limit) with
  | Ok rows => Ok (reverse rows)
  | Throw e => Throw e
  end.

Definition getAll (s : CachedStore) (u : userId) : Exc (list ChatMessage) :=
  query s (Scan.getAllMessages u).

Definition getChatCount (s : CachedStore) (u : userId) : Exc Z :=
  query s (Stmt.getChatCount u).

(** Three deletes, then both cache entries are dropped. *)
Definition clear (u : userId) (s : CachedStore) : Exc CachedStore :=
  match run s (Stmt.clearMessages u) with
  | Ok s1 =>
      match run s1 (Stmt.clearMemories u) with
      | Ok s2 =>
          match run s2 (Stmt.clearMoods u) with
          | Ok s3 => Ok (forget_mood u (forget_facts u s3))
          | Throw e => Throw e
          end
      | Throw e => Throw e
      end
  | Throw e => Throw e
  end.

Definition getUserIds (s : CachedStore) : Exc (list jsstring) :=
  query s Scan.getUserIds.

End Cached.

(** ** Calls on a store and what the caller sees *)

Inductive StoreCall : Type :=
| CallAdd (now : Z) (u : userId) (r c : jsstring)
| CallAddImportantFact (now : Z) (u : userId) (f : jsstring)
| CallAddMood (now : Z) (u : userId) (m : jsstring)
| CallClear (u : userId)
| CallGetImportantFacts (u : userId)
| CallGetRecentMood (u : userId)
| CallGetRecent (u : userId) (limit : Z)
| CallGetAll (u : userId)
| CallGetChatCount (u : userId)
| CallGetUserIds.

(** What a call hands back to its caller. *)
Inductive Seen : Type :=
| SeenDone
| SeenThrow (e : JsError)
| SeenFacts (facts : list jsstring)
| SeenMood (m : option jsstring)
| SeenMessages (rows : list ChatMessage)
| SeenCount (n : Z)
| SeenUsers (us : list jsstring).

Definition seen_of {A : Type} (wrap : A -> Seen) (r : Exc A) : Seen :=
  match r with Ok a => wrap a | Throw e => SeenThrow e end.

Definition seen_write {S : Type} (r : Exc S) (s : S) : Seen * S :=
  match r with Ok s' => (SeenDone, s') | Throw e => (SeenThrow e, s) end.

(** One call on the memoising store. *)
Definition cached_call (c : StoreCall) (s : CachedStore) : Seen * CachedStore :=
  match c with
  | CallAdd now u r c => seen_write (Cached.add now u r c s) s
  | CallAddImportantFact now u f => seen_write (Cached.addImportantFact now u f s) s
  | CallAddMood now u m => seen_write (Cached.addMood now u m s) s
  | CallClear u => seen_write (Cached.clear u s) s
  | CallGetImportantFacts u =>
      let (r, s') := Cached.getImportantFacts s u in (seen_of SeenFacts r, s')
  | CallGetRecentMood u =>
      let (r, s') := Cached.getRecentMood s u in (seen_of SeenMood r, s')
  | CallGetRecent u limit => (seen_of SeenMessages (Cached.getRecent s u limit), s)
  | CallGetAll u => (seen_of SeenMessages (Cached.getAll s u), s)
  | CallGetChatCount u => (seen_of SeenCount (Cached.getChatCount s u), s)
  | CallGetUserIds => (seen_of SeenUsers (Cached.getUserIds s), s)
  end.

(** One call on the prepared-statement store. *)
Definition prepared_call (c : StoreCall) (s : MemoryStore) : Seen * MemoryStore :=
  match c with
  | CallAdd now u r c => seen_write (Prepared.add now u r c s) s
  | CallAddImportantFact now u f => seen_write (Prepared.addImportantFact now u f s) s
  | CallAddMood now u m => seen_write (Prepared.addMood now u m s) s
  | CallClear u => seen_write (Prepared.clear u s) s
  | CallGetImportantFacts u => (seen_of SeenFacts (Prepared.getImportantFacts s u), s)
  | CallGetRecentMood u => (seen_of SeenMood (Prepared.getRecentMood s u), s)
  | CallGetRecent u limit => (seen_of SeenMessages (Prepared.getRecent s u limit), s)
  | CallGetAll u => (seen_of SeenMessages (Prepared.getAll s u), s)
  | CallGetChatCount u => (seen_of SeenCount (Prepared.getChatCount s u), s)
  | CallGetUserIds => (seen_of SeenUsers (Prepared.getUserIds s), s)
  end.

(** One call on the validated store; [getRecent] and [getAll] catch. *)
Definition validated_call (c : StoreCall) (s : MemoryStore) : Seen * MemoryStore :=
  match c with
  | CallAdd now u r c => seen_write (Store.add now u r c s) s
  | CallAddImportantFact now u f => seen_write (Store.addImportantFact now u f s) s
  | CallAddMood now u m => seen_write (Store.addMood now u m s) s
  | CallClear u => seen_write (Store.clear u s) s
  | CallGetImportantFacts u => (seen_of SeenFacts (Store.getImportantFacts s u), s)
  | CallGetRecentMood u => (seen_of SeenMood (Store.getRecentMood s u), s)
  | CallGetRecent u limit => (SeenMessages (Store.getRecent s u limit), s)
  | CallGetAll u => (SeenMessages (Store.getAll s u), s)
  | CallGetChatCount u => (seen_of SeenCount (Store.getChatCount s u), s)
  | CallGetUserIds => (seen_of SeenUsers (Store.getUserIds s), s)
  end.

(** A sequence of calls: what each one returned, in order. *)
Fixpoint session {S : Type} (call1 : StoreCall -> S -> Seen * S)
    (calls : list StoreCall) (s : S) : list Seen :=
  match calls with
  | [] => []
  | c :: calls' => let (o, s') := call1 c s in o :: session call1 calls' s'
  end.

(** The results of [getImportantFacts] and [getRecentMood] in a session. *)
Definition is_memo_read (c : StoreCall) : bool :=
  match c with
  | CallGetImportantFacts _ | CallGetRecentMood _ => true
  | _ => false
  end.

Fixpoint memo_reads (calls : list StoreCall) (seen : list Seen) : list Seen :=
  match calls, seen with
  | c :: calls', o :: seen' =>
      if is_memo_read c then o :: memo_reads calls' seen' else memo_reads calls' seen'
  | _, _ => []
  end.

(** The user a call that writes or reads facts or moods is for. *)
Definition memo_user (c : StoreCall) : option userId :=
  match c with
  | CallAddImportantFact _ u _ | CallAddMood _ u _ | CallClear u
  | CallGetImportantFacts u | CallGetRecentMood u => Some u
  | _ => None
  end.

(** Whose row a fact or a mood is and when it was stored: the text of
    [user_id] and [created_at]. *)
Definition mem_stamp (r : MemoryRow) : jsstring * Z := (mem_user_id r, mem_created_at r).
Definition mood_stamp (r : MoodRow) : jsstring * Z := (mood_user_id r, mood_created_at r).

(** The same of the row that a call stores: the text of its id and the
    [Date.now()] it reads. *)
Definition fact_time (c : StoreCall) : option (jsstring * Z) :=
  match c with CallAddImportantFact now u _ => Some (id_text u, now) | _ => None end.

Definition mood_time (c : StoreCall) : option (jsstring * Z) :=
  match c with CallAddMood now u _ => Some (id_text u, now) | _ => None end.

(** The arguments with which the validated revision stores a fact or a
    mood, where the memoising one stores whatever it is given. *)
Definition memo_accepted (c : StoreCall) : bool :=
  match c with
  | CallAddImportantFact _ u f => negb (falsy_id u || falsy_string f)
  | CallAddMood _ u m => negb (falsy_id u || falsy_string m)
  | _ => true
  end.

(** Ids that the column tells apart whenever a [Map] does: no two of them
    are stored as the same text. *)
Definition told_apart (ids : list userId) : Prop :=
  forall u v, u ∈ ids -> v ∈ ids -> id_text u = id_text v -> u = v.

(** The memoising store and the validated one hold the same facts and
    moods, what is cached is what the query would return, and no two facts
    and no two moods of one user carry the same time. *)
Record coherent (ids : list userId) (cs : CachedStore) (s : MemoryStore) : Prop :=
  { coh_conn : c_conn cs = Opened /\ conn s = Opened;
    coh_memories : memories (c_disk cs) = memories (disk s);
    coh_moods : moods (c_disk cs) = moods (disk s);
    coh_moods_seq : moods_seq (c_disk cs) = moods_seq (disk s);
    coh_facts : forall u facts,
      importantCache cs !! u = Some facts ->
      u ∈ ids /\ Stmt.getMemories u (disk s) = facts;
    coh_mood : forall u m,
      moodCache cs !! u = Some m -> u ∈ ids /\ Stmt.getMood u (disk s) = Some m;
    coh_ids : NoDup (mood_id <$> moods (disk s));
    coh_seq : Forall (fun r => mood_id r <= moods_seq (disk s)) (moods (disk s));
    coh_fact_times : NoDup (mem_stamp <$> memories (disk s));
    coh_mood_times : NoDup (mood_stamp <$> moods (disk s)) }.

(** The arguments the validated revision accepts. *)
Definition accepted (c : StoreCall) : bool :=
  match c with
  | CallAdd _ u r _ => negb (falsy_id u || falsy_string r)
  | CallAddImportantFact _ u f => negb (falsy_id u || falsy_string f)
  | CallAddMood _ u m => negb (falsy_id u || falsy_string m)
  | _ => true
  end.

(** ** Sequences of store calls *)

(** The calls that write: each with the [Date.now()] it reads, if any. *)
Inductive StoreOp : Type :=
| OpAdd (now : Z) (u : userId) (r c : jsstring)
| OpAddImportantFact (now : Z) (u : userId) (f : jsstring)
| OpAddMood (now : Z) (u : userId) (m : jsstring)
| OpClear (u : userId).

(** The store a caller is left with: a call that throws wrote nothing. *)
Definition settle (r : Exc MemoryStore) (s : MemoryStore) : MemoryStore :=
  match r with Ok s' => s' | Throw _ => s end.

Definition call (o : StoreOp) (s : MemoryStore) : Exc MemoryStore :=
  match o with
  | OpAdd now u r c => Store.add now u r c s
  | OpAddImportantFact now u f => Store.addImportantFact now u f s
  | OpAddMood now u m => Store.addMood now u m s
  | OpClear u => Store.clear u s
  end.

Definition step (s : MemoryStore) (o : StoreOp) : MemoryStore := settle (call o s) s.

Definition run_ops (ops : list StoreOp) (s : MemoryStore) : MemoryStore :=
  foldl step s ops.

(** A store opened on a new, empty database file. *)
Definition fresh_store : MemoryStore := Store.init (Store.new empty_tables).

Definition op_now (o : StoreOp) : option Z :=
  match o with
  | OpAdd now _ _ _ | OpAddImportantFact now _ _ | OpAddMood now _ _ => Some now
  | OpClear _ => None
  end.

(** A user's history of [n] short messages, one per millisecond. *)
Definition chat_history (u : userId) (n : nat) : MemoryStore :=
  run_ops ((fun i => OpAdd (Z.of_nat i) u role_user (lit "hi")) <$> seq 1 n) fresh_store.

(** [Date.now()] never ran backwards over the calls. *)
Definition clock_monotone (ops : list StoreOp) : Prop :=
  StronglySorted Z.le (omap op_now ops).

(* ===================================================================== *)
(** * More of JavaScript's strings                                        *)
(* ===================================================================== *)

(** [WhiteSpace] and [LineTerminator] code units: what [trim()] strips and
    what [\s] matches. *)
Definition is_space (c : N) : bool :=
  ((9 <=? c) && (c <=? 13) || (c =? 32) || (c =? 160) || (c =? 5760)
   || (8192 <=? c) && (c <=? 8202) || (c =? 8232) || (c =? 8233)
   || (c =? 8239) || (c =? 8287) || (c =? 12288) || (c =? 65279))%N.

Fixpoint trimStart (s : jsstring) : jsstring :=
  match s with
  | c :: s' => if is_space c then trimStart s' else s
  | [] => []
  end.

Definition trimEnd (s : jsstring) : jsstring := reverse (trimStart (reverse s)).

(** [s.trim()] *)
Definition trim (s : jsstring) : jsstring := trimEnd (trimStart s).

(** [s.split('\n')] *)
Fixpoint split_lines (s : jsstring) : list jsstring :=
  match s with
  | [] => [[]]
  | c :: s' =>
      if (c =? 10)%N then [] :: split_lines s'
      else match split_lines s' with
           | line :: rest => (c :: line) :: rest
           | [] => [[c]]
           end
  end.

(** [arr.join(sep)] *)
Fixpoint join (sep : jsstring) (l : list jsstring) : jsstring :=
  match l with
  | [] => []
  | [x] => x
  | x :: l' => x ++ sep ++ join sep l'
  end.

(** [s.startsWith(p)] *)
Definition startsWith (s p : jsstring) : bool := bool_decide (p `prefix_of` s).

(** [line.replace(/^[-•*]\s*/, '')]: one bullet at the very start and the
    white space after it. *)
Definition strip_bullet (line : jsstring) : jsstring :=
  match line with
  | c :: rest => if ((c =? 45) || (c =? 8226) || (c =? 42))%N then trimStart rest else line
  | [] => []
  end.

(* ===================================================================== *)
(** * index.js: the process and what is outside it                        *)
(* ===================================================================== *)

(** The argument object of [buildSystemPrompt]; a missing key is [None]. *)
Record PromptArgs : Type :=
  { arg_userName : option jsstring;
    arg_importantFacts : option (list jsstring);
    arg_chatCount : option Z;
    arg_mood : option jsstring }.

(** [buildSystemPrompt({})] *)
Definition no_args : PromptArgs :=
  {| arg_userName := None; arg_importantFacts := None;
     arg_chatCount := None; arg_mood := None |}.

(** What index.js imports from persona.js and reads from the environment;
    neither is part of these sources, so both are taken as given.
    [getCurrentMood] is given the time it is called at. *)
Record Imports : Type :=
  { buildSystemPrompt : PromptArgs -> jsstring;
    EXTRACTION_PROMPT : jsstring;
    getCurrentMood : Z -> jsstring;
    MOOD_ANALYSIS_PROMPT : jsstring;
    MEMORY_LIMIT : Z }.

(** What [axios.post] comes back with: a rejection, or a response of which
    only [data?.choices?.[0]?.message?.content] is read. *)
Inductive HttpResult : Type :=
| HttpFail (e : JsError)
| HttpBody (content : option jsstring).

(** The world outside the process: the answer to the n-th request to the
    model, whether the n-th call of the Bot API goes through, the n-th value
    of [Math.random()] (as the integer it is scaled to), and the time that
    passes during the n-th outside call. *)
Record Outside : Type :=
  { http : nat -> list ChatMessage -> HttpResult;
    telegram : nat -> bool;
    random : nat -> nat;
    lag : nat -> Z }.

(** The calls that leave the process, each with how it went. *)
Inductive Event : Type :=
| EvPost (messages : list ChatMessage) (answer : HttpResult)
| EvSleep (ms : Z)
| EvSendMessage (chat : userId) (text : jsstring) (delivered : bool)
| EvSendChatAction (chat : userId) (action : jsstring) (delivered : bool).

(** The callbacks handed to [setTimeout(..., 0)]. *)
Inductive Timer : Type :=
| TimerExtract (u : userId)
| TimerMood (u : userId) (userMessage reply : jsstring).

(** The process: the [memory] singleton, the four module-level [Map]s (keyed
    by whatever [userId] their callers pass, number or string), the
    clock behind [Date.now()], the calls made so far (oldest first), the
    pending timers (oldest first), and the number of random draws so far. *)
Record World : Type :=
  { memory : MemoryStore;
    lastMessageTime : gmap ChatId Z;
    userNames : gmap ChatId jsstring;
    lastInteractionTime : gmap ChatId Z;
    lastActiveMessageTime : gmap ChatId Z;
    clock : Z;
    log : list Event;
    timers : list Timer;
    draws : nat;
    imports : Imports;
    outside : Outside }.

Definition with_memory (s : MemoryStore) (w : World) : World :=
  {| memory := s; lastMessageTime := lastMessageTime w; userNames := userNames w;
     lastInteractionTime := lastInteractionTime w;
     lastActiveMessageTime := lastActiveMessageTime w; clock := clock w;
     log := log w; timers := timers w; draws := draws w;
     imports := imports w; outside := outside w |}.

Definition with_lastMessageTime (m : gmap ChatId Z) (w : World) : World :=
  {| memory := memory w; lastMessageTime := m; userNames := userNames w;
     lastInteractionTime := lastInteractionTime w;
     lastActiveMessageTime := lastActiveMessageTime w; clock := clock w;
     log := log w; timers := timers w; draws := draws w;
     imports := imports w; outside := outside w |}.

Definition with_userNames (m : gmap ChatId jsstring) (w : World) : World :=
  {| memory := memory w; lastMessageTime := lastMessageTime w; userNames := m;
     lastInteractionTime := lastInteractionTime w;
     lastActiveMessageTime := lastActiveMessageTime w; clock := clock w;
     log := log w; timers := timers w; draws := draws w;
     imports := imports w; outside := outside w |}.

Definition with_lastInteractionTime (m : gmap ChatId Z) (w : World) : World :=
  {| memory := memory w; lastMessageTime := lastMessageTime w; userNames := userNames w;
     lastInteractionTime := m;
     lastActiveMessageTime := lastActiveMessageTime w; clock := clock w;
     log := log w; timers := timers w; draws := draws w;
     imports := imports w; outside := outside w |}.

Definition with_lastActiveMessageTime (m : gmap ChatId Z) (w : World) : World :=
  {| memory := memory w; lastMessageTime := lastMessageTime w; userNames := userNames w;
     lastInteractionTime := lastInteractionTime w;
     lastActiveMessageTime := m; clock := clock w;
     log := log w; timers := timers w; draws := draws w;
     imports := imports w; outside := outside w |}.

Definition with_timers (t : list Timer) (w : World) : World :=
  {| memory := memory w; lastMessageTime := lastMessageTime w; userNames := userNames w;
     lastInteractionTime := lastInteractionTime w;
     lastActiveMessageTime := lastActiveMessageTime w; clock := clock w;
     log := log w; timers := t; draws := draws w;
     imports := imports w; outside := outside w |}.

Definition with_draws (n : nat) (w : World) : World :=
  {| memory := memory w; lastMessageTime := lastMessageTime w; userNames := userNames w;
     lastInteractionTime := lastInteractionTime w;
     lastActiveMessageTime := lastActiveMessageTime w; clock := clock w;
     log := log w; timers := timers w; draws := n;
     imports := imports w; outside := outside w |}.

(** An outside call is over: it is on the log, and [spent] milliseconds and
    the call's own lag have passed. *)
Definition tick (e : Event) (spent : Z) (w : World) : World :=
  {| memory := memory w; lastMessageTime := lastMessageTime w; userNames := userNames w;
     lastInteractionTime := lastInteractionTime w;
     lastActiveMessageTime := lastActiveMessageTime w;
     clock := clock w + spent + lag (outside w) (length (log w));
     log := log w ++ [e]; timers := timers w; draws := draws w;
     imports := imports w; outside := outside w |}.

(** ** Code that changes the process and may throw *)

Definition M (A : Type) : Type := World -> Exc A * World.

Global Instance M_ret : MRet M := fun A a w => (Ok a, w).

Global Instance M_bind : MBind M := fun A B f m w =>
  match m w with
  | (Ok a, w') => f a w'
  | (Throw e, w') => (Throw e, w')
  end.

Definition throw {A : Type} (e : JsError) : M A := fun w => (Throw e, w).

(** [try { body } catch (err) { handler }]: what [body] did before it threw
    stays done. *)
Definition try_catch {A : Type} (body : M A) (handler : JsError -> M A) : M A :=
  fun w =>
    match body w with
    | (Ok a, w') => (Ok a, w')
    | (Throw e, w') => handler e w'
    end.

(** A read of the process that may throw. *)
Definition reading {A : Type} (f : World -> Exc A) : M A := fun w => (f w, w).

(** A write to the [memory] singleton, given the [Date.now()] it reads. *)
Definition writing (f : Z -> MemoryStore -> Exc MemoryStore) : M unit := fun w =>
  match f (clock w) (memory w) with
  | Ok s' => (Ok tt, with_memory s' w)
  | Throw e => (Throw e, w)
  end.

Definition update (f : World -> World) : M unit := fun w => (Ok tt, f w).

(** [Date.now()] *)
Definition Date_now : M Z := fun w => (Ok (clock w), w).

Definition is_post (e : Event) : bool :=
  match e with EvPost _ _ => true | _ => false end.

Definition is_bot_call (e : Event) : bool :=
  match e with EvSendMessage _ _ _ | EvSendChatAction _ _ _ => true | _ => false end.

(** How many requests went to the model so far. *)
Definition posts (l : list Event) : nat := length (List.filter is_post l).

(** How many Bot API calls were made so far. *)
Definition bot_calls (l : list Event) : nat := length (List.filter is_bot_call l).

(** [await axios.post(...)], then [response.data?.choices?.[0]?.message?.content]. *)
Definition axios_post (messages : list ChatMessage) : M (option jsstring) := fun w =>
  let answer := http (outside w) (posts (log w)) messages in
  let w' := tick (EvPost messages answer) 0 w in
  match answer with
  | HttpFail e => (Throw e, w')
  | HttpBody c => (Ok c, w')
  end.

(** [await new Promise((resolve) => setTimeout(resolve, ms))] *)
Definition sleep (ms : Z) : M unit := fun w => (Ok tt, tick (EvSleep ms) ms w).

Definition telegram_error : JsError := Error (lit "ETELEGRAM").

(** [await bot.sendMessage(chat, text)] *)
Definition bot_sendMessage (chat : userId) (text : jsstring) : M unit := fun w =>
  let delivered := telegram (outside w) (bot_calls (log w)) in
  let w' := tick (EvSendMessage chat text delivered) 0 w in
  if delivered then (Ok tt, w') else (Throw telegram_error, w').

(** [await bot.sendChatAction(chat, action)] *)
Definition bot_sendChatAction (chat : userId) (action : jsstring) : M unit := fun w =>
  let delivered := telegram (outside w) (bot_calls (log w)) in
  let w' := tick (EvSendChatAction chat action delivered) 0 w in
  if delivered then (Ok tt, w') else (Throw telegram_error, w').

(** [setTimeout(callback, 0)] *)
Definition setTimeout (t : Timer) : M unit :=
  update (fun w => with_timers (timers w ++ [t]) w).

(** [arr[Math.floor(Math.random() * arr.length)]] *)
Definition pick (arr : list jsstring) : M jsstring := fun w =>
  let k := (random (outside w) (draws w) mod length arr)%nat in
  (Ok (default [] (arr !! k)), with_draws (S (draws w)) w).

(** [for (const x of l) { body }] *)
Fixpoint for_of {A : Type} (l : list A) (body : A -> M unit) : M unit :=
  match l with
  | [] => mret tt
  | x :: l' => body x ;; for_of l' body
  end.

(** The same for code that only reads. *)
Global Instance Exc_ret : MRet Exc := fun A a => Ok a.

Global Instance Exc_bind : MBind Exc := fun A B f m =>
  match m with
  | Ok a => f a
  | Throw e => Throw e
  end.

Definition catching {A : Type} (body : Exc A) (handler : JsError -> Exc A) : Exc A :=
  match body with
  | Ok a => Ok a
  | Throw e => handler e
  end.

(* ===================================================================== *)
(** * index.js: the model client                                          *)
(* ===================================================================== *)

Definition maxRetries : Z := 3.

(** ['API 返回空内容'] *)
Definition EMPTY_CONTENT : jsstring := [65; 80; 73; 32; 36820; 22238; 31354; 20869; 23481]%N.

(** [throw lastError] when nothing was ever caught. *)
Definition undefined_thrown : JsError := TypeError (lit "undefined").

(** How one pass through the loop body of [chatWithLLM] ends when it does
    not throw: [return content], or on to the next attempt with the
    [lastError] at that point. *)
Inductive Attempt : Type :=
| Returned (content : jsstring)
| NextAttempt (lastError : option JsError).

(** [!content] for what was read out of the response. *)
Definition no_content (content : option jsstring) : bool :=
  match content with
  | Some (_ :: _) => false
  | _ => true
  end.

(** The [try { ... } catch (err) { ... }] inside the loop, for one [attempt]. *)
Definition attempt_once (messages : list ChatMessage) (attempt : Z)
    (lastError : option JsError) : M Attempt :=
  try_catch
    (content ← axios_post messages;
     if no_content content then
       if attempt =? maxRetries then throw (Error EMPTY_CONTENT)
       else sleep (1000 * attempt) ;; mret (NextAttempt lastError)
     else mret (Returned (default [] content)))
    (fun err =>
       if attempt =? maxRetries then throw err
       else sleep (1000 * attempt) ;; mret (NextAttempt (Some err))).

(** [for (let attempt = ...; attempt <= maxRetries; attempt++)] with
    [remaining] passes to go, then [throw lastError]. *)
Fixpoint attempts (remaining : nat) (attempt : Z) (lastError : option JsError)
    (messages : list ChatMessage) : M jsstring :=
  match remaining with
  | O => throw (default undefined_thrown lastError)
  | S remaining' =>
      r ← attempt_once messages attempt lastError;
      match r with
      | Returned content => mret content
      | NextAttempt lastError' => attempts remaining' (attempt + 1) lastError' messages
      end
  end.

(** [chatWithLLM(messages)] *)
Definition chatWithLLM (messages : list ChatMessage) : M jsstring :=
  match messages with
  | [] => throw (Error (lit "Invalid messages array"))
  | _ :: _ => attempts (Z.to_nat maxRetries) 1 None messages
  end.

(* ===================================================================== *)
(** * index.js: the extractors                                            *)
(* ===================================================================== *)

(** ['无'] *)
Definition NOTHING : jsstring := [26080]%N.

(** [`${m.role === 'user' ? '对方' : 'Rose'}: ${m.content}`] *)
Definition transcript_line (m : ChatMessage) : jsstring :=
  (if bool_decide (role m = role_user) then [23545; 26041]%N else lit "Rose")
  ++ lit ": " ++ content m.

(** The prompt of [extractImportantFacts] for the messages it was given. *)
Definition extraction_prompt (i : Imports) (lastMessages : list ChatMessage) : jsstring :=
  EXTRACTION_PROMPT i ++ [10; 10; 23545; 35805; 35760; 24405; 58; 10]%N
  ++ join [10%N] (transcript_line <$> lastMessages)
  ++ [10; 10; 38656; 35201; 35760; 20303; 30340; 20449; 24687; 58]%N.

Definition extraction_request (i : Imports) (lastMessages : list ChatMessage)
  : list ChatMessage :=
  [ {| role := role_system; content := EXTRACTION_PROMPT i |};
    {| role := role_user; content := extraction_prompt i lastMessages |} ].

(** [line.length > 3 && line.length < 100 && line !== ''] *)
Definition fact_sized (line : jsstring) : bool :=
  (3 <? length line)%nat && (length line <? 100)%nat && negb (falsy_string line).

(** [result.split('\n').map(...).filter(...)] *)
Definition parse_facts (result : jsstring) : list jsstring :=
  List.filter fact_sized ((fun line => trim (strip_bullet line)) <$> split_lines result).

(** [extractImportantFacts(userId)] *)
Definition extractImportantFacts (u : userId) : M (list jsstring) :=
  if falsy_id u then mret []
  else
    try_catch
      (lastMessages ← reading (fun w => Ok (slice_last 20 (Store.getAll (memory w) u)));
       if (length lastMessages =? 0)%nat then mret []
       else if (length lastMessages <? 2)%nat then mret []
       else
         i ← reading (fun w => Ok (imports w));
         try_catch
           (result ← chatWithLLM (extraction_request i lastMessages);
            if falsy_string result || bool_decide (result = NOTHING) then mret []
            else
              let facts := parse_facts result in
              for_of facts (fun fact =>
                writing (fun now => Store.addImportantFact now u fact)) ;;
              mret facts)
           (fun err => mret []))
      (fun error => mret []).

(** The request of [analyzeAndSaveMood]. *)
Definition mood_request (i : Imports) (userMessage assistantReply : jsstring)
  : list ChatMessage :=
  [ {| role := role_system; content := MOOD_ANALYSIS_PROMPT i |};
    {| role := role_user;
       content := MOOD_ANALYSIS_PROMPT i ++ [10; 10; 23545; 35805; 58; 10; 23545; 26041; 58; 32]%N ++ userMessage
                  ++ [10; 82; 111; 115; 101; 58; 32]%N ++ assistantReply |} ].

(** [analyzeAndSaveMood(userId, userMessage, assistantReply)] *)
Definition analyzeAndSaveMood (u : userId) (userMessage assistantReply : jsstring)
  : M unit :=
  if falsy_id u || falsy_string userMessage || falsy_string assistantReply
  then mret tt
  else
    try_catch
      (i ← reading (fun w => Ok (imports w));
       try_catch
         (mood ← chatWithLLM (mood_request i userMessage assistantReply);
          if negb (falsy_string mood) && negb (bool_decide (mood = NOTHING))
          then writing (fun now => Store.addMood now u mood)
          else mret tt)
         (fun err => mret tt))
      (fun error => mret tt).

(** What a timer runs when it fires. *)
Definition run_timer (t : Timer) : M unit :=
  match t with
  | TimerExtract u =>
      try_catch (extractImportantFacts u ;; mret tt) (fun err => mret tt)
  | TimerMood u userMessage reply =>
      try_catch (analyzeAndSaveMood u userMessage reply) (fun err => mret tt)
  end.

(* ===================================================================== *)
(** * index.js: the context assembler                                     *)
(* ===================================================================== *)

(** [x || null] for a string that may be missing. *)
Definition or_null (x : option jsstring) : option jsstring :=
  match x with
  | Some (c :: s) => Some (c :: s)
  | _ => None
  end.

(** [getTimeGap(userId)] *)
Definition getTimeGap (w : World) (u : userId) : option jsstring :=
  match lastMessageTime w !! u with
  | None => None
  | Some lastTime =>
      if falsy_number lastTime then None
      else
        let gap := clock w - lastTime in
        let hours := gap / (1000 * 60 * 60) in
        if 6 <=? hours then
          Some ([
      36317; 31163; 19978; 27425; 32842; 22825; 24050; 32463; 36807; 20102]%N ++ number_toString hours
                ++ [
      23567; 26102; 20102; 65292; 21487; 20197; 33258; 28982; 22320; 38382; 20505;
      19968; 21477]%N)
        else if 1 <=? hours then Some [
      38548; 20102; 19968; 20250; 20799; 25165; 22238; 65292; 21487; 20197; 31616;
      21333; 35828; 19968; 21477]%N
        else None
  end.

Definition system_message (text : jsstring) : ChatMessage :=
  {| role := role_system; content := text |}.

Definition user_message (text : jsstring) : ChatMessage :=
  {| role := role_user; content := text |}.

(** The [catch] of [buildMessages]: the default persona and the message. *)
Definition minimal_messages (w : World) (userMessage : jsstring) : list ChatMessage :=
  [ system_message (buildSystemPrompt (imports w) no_args); user_message userMessage ].

(** The [try] of [buildMessages]. *)
Definition assemble (w : World) (u : userId) (userMessage : jsstring)
  : Exc (list ChatMessage) :=
  let userName := or_null (userNames w !! u) in
  let recentMemories := Store.getRecent (memory w) u (MEMORY_LIMIT (imports w)) in
  importantFacts ← Store.getImportantFacts (memory w) u;
  chatCount ← Store.getChatCount (memory w) u;
  let timeHint := getTimeGap w u in
  let timeMood := getCurrentMood (imports w) (clock w) in
  recentMood ← Store.getRecentMood (memory w) u;
  let moodHint :=
    match or_null recentMood with
    | Some m => timeMood ++ [65292; 19978; 27425; 23545; 35805; 24515; 24773; 58; 32]%N ++ m
    | None => timeMood
    end in
  let systemPrompt :=
    buildSystemPrompt (imports w)
      {| arg_userName := userName; arg_importantFacts := Some importantFacts;
         arg_chatCount := Some chatCount; arg_mood := Some moodHint |} in
  let messages := system_message systemPrompt :: recentMemories in
  let messages :=
    match timeHint with
    | Some hint => messages ++ [system_message ([91; 31995; 32479; 25552; 31034; 58; 32]%N ++ hint ++ lit "]")]
    | None => messages
    end in
  mret (messages ++ [user_message userMessage]).

(** [buildMessages(userId, userMessage)] *)
Definition buildMessages (w : World) (u : userId) (userMessage : jsstring)
  : Exc (list ChatMessage) :=
  if falsy_id u || falsy_string userMessage
  then Throw (Error [
      26500; 24314; 28040; 24687; 22833; 36133; 58; 32; 32570; 23569; 24517; 35201;
      21442; 25968]%N)
  else catching (assemble w u userMessage) (fun error => Ok (minimal_messages w userMessage)).

(* ===================================================================== *)
(** * index.js: the turn handler                                          *)
(* ===================================================================== *)

(** The fields of a Telegram message that the handler reads; a missing one
    is [None] ([msg_chat] is [msg.chat.id], a number, missing also when
    [msg.chat] is). *)
Record Msg : Type :=
  { msg_chat : option Z;
    msg_text : option jsstring;
    msg_username : option jsstring;
    msg_first_name : option jsstring }.

(** ['消息太长了，我处理不了...'] *)
Definition TOO_LONG : jsstring := [
      28040; 24687; 22826; 38271; 20102; 65292; 25105; 22788; 29702; 19981; 20102; 46;
      46; 46]%N.

(** ['嗯...'] *)
Definition HMM : jsstring := [21999; 46; 46; 46]%N.

(** ['刚才卡住了，你说啥？', '没听清，再说一遍？', '有点走神了...',
     '信号不好吗，我没收到'] *)
Definition naturalReplies : list jsstring :=
  [ [
      21018; 25165; 21345; 20303; 20102; 65292; 20320; 35828; 21861; 65311]%N; [
      27809; 21548; 28165; 65292; 20877; 35828; 19968; 36941; 65311]%N; [26377; 28857; 36208; 31070; 20102; 46; 46; 46]%N;
    [
      20449; 21495; 19981; 22909; 21527; 65292; 25105; 27809; 25910; 21040]%N ].

(** [msg.from?.username || msg.from?.first_name || null] *)
Definition sender_name (msg : Msg) : option jsstring :=
  match or_null (msg_username msg) with
  | Some n => Some n
  | None => or_null (msg_first_name msg)
  end.

(** Everything after the reply was checked: send it, store the exchange,
    stamp the maps, schedule the extractors. *)
Definition complete_turn (u : userId) (userMessage reply : jsstring) : M unit :=
  (* [reply = reply.substring(0, 4093) + '...'] assigns to a [const] *)
  (if (4096 <? length reply)%nat
   then throw (TypeError (lit "Assignment to constant variable."))
   else mret tt) ;;
  bot_sendMessage u reply ;;
  writing (fun now => Store.add now u role_user userMessage) ;;
  writing (fun now => Store.add now u role_assistant reply) ;;
  now ← Date_now;
  update (fun w => with_lastMessageTime (<[u := now]> (lastMessageTime w)) w) ;;
  update (fun w => with_lastInteractionTime (<[u := now]> (lastInteractionTime w)) w) ;;
  count ← reading (fun w => Store.getChatCount (memory w) u);
  (if Z.rem count 10 =? 0 then setTimeout (TimerExtract u) else mret tt) ;;
  setTimeout (TimerMood u userMessage reply).

(** The outer [try] of [handleMessage]. *)
Definition turn (u : userId) (userMessage : jsstring) (userName : option jsstring)
  : M unit :=
  (match userName with
   | Some n =>
       update (fun w =>
         match userNames w !! u with
         | Some _ => w
         | None => with_userNames (<[u := n]> (userNames w)) w
         end)
   | None => mret tt
   end) ;;
  if startsWith userMessage (lit "/") then mret tt
  else
    bot_sendChatAction u (lit "typing") ;;
    messages ← reading (fun w => buildMessages w u userMessage);
    reply ← chatWithLLM messages;
    if falsy_string reply || (length (trim reply) =? 0)%nat
    then bot_sendMessage u HMM
    else complete_turn u userMessage reply.

(** The outer [catch] of [handleMessage]. *)
Definition apologise (u : userId) : M unit :=
  try_catch (text ← pick naturalReplies; bot_sendMessage u text) (fun sendErr => mret tt).

(** [handleMessage(msg)] *)
Definition handleMessage (msg : Msg) : M unit :=
  match msg_chat msg, msg_text msg with
  | Some u, Some userMessage =>
      if falsy_string userMessage then mret tt
      else if falsy_number u then mret tt
      else if (1000 <? length userMessage)%nat then
        try_catch (bot_sendMessage (IdNum u) TOO_LONG) (fun sendErr => mret tt)
      else
        try_catch (turn (IdNum u) userMessage (sender_name msg))
                  (fun err => apologise (IdNum u))
  | _, _ => mret tt
  end.

(* ===================================================================== *)
(** * index.js: the proactive scheduler                                   *)
(* ===================================================================== *)

Definition USER_INACTIVE_THRESHOLD : Z := 30 * 60 * 1000.
Definition ACTIVE_MESSAGE_INTERVAL : Z := 2 * 60 * 60 * 1000.

(** The five defaults of the [else] branch. *)
Definition defaultMessages : list jsstring :=
  [ [
      22079; 65292; 26368; 36817; 22312; 24537; 21861; 21602; 65311]%N; [
      22909; 20037; 27809; 32842; 20102; 65292; 26368; 36817; 24590; 20040; 26679;
      65311]%N; [
      21018; 24819; 21040; 20320; 65292; 26368; 36817; 36824; 22909; 21527; 65311]%N;
    [26377; 21861; 26032; 40092; 20107; 20799; 19981; 65311]%N; [
      21018; 25165; 30475; 21040; 20010; 26377; 36259; 30340; 20107; 65292; 24819;
      36319; 20320; 32842; 32842]%N ].

(** The three defaults of the [catch]. *)
Definition defaultMessages_caught : list jsstring :=
  [ [
      22079; 65292; 26368; 36817; 22312; 24537; 21861; 21602; 65311]%N; [
      22909; 20037; 27809; 32842; 20102; 65292; 26368; 36817; 24590; 20040; 26679;
      65311]%N; [
      21018; 24819; 21040; 20320; 65292; 26368; 36817; 36824; 22909; 21527; 65311]%N ].

(** The prompt of [generateActiveMessage]. *)
Definition active_prompt (userName timeMood : jsstring) (importantFacts : list jsstring)
    (recentMood : option jsstring) (chatCount : Z) : jsstring :=
  [
      20320; 26159; 32; 82; 111; 115; 101; 12290; 29616; 22312; 20027; 21160; 32852;
      31995]%N ++ userName ++ [
      32842; 22825; 12290; 10; 10; 24403; 21069; 26102; 38388; 20449; 24687; 65306]%N ++ timeMood
  ++ (if (0 <? length importantFacts)%nat
      then [
      10; 10; 20320; 35760; 24471; 20851; 20110; 84; 97; 30340; 20107; 65306]%N ++ join (lit ", ") (take 3 importantFacts)
      else [])
  ++ (match or_null recentMood with
      | Some m => [
      10; 10; 84; 97; 19978; 27425; 32842; 22825; 30340; 24515; 24773; 65306]%N ++ m
      | None => []
      end)
  ++ (if 0 <? chatCount
      then [10; 10; 20320; 20204; 24050; 32463; 32842; 36807]%N ++ number_toString chatCount ++ [27425; 20102]%N
      else [])
  ++ [
      10; 10; 35831; 29983; 25104; 19968; 26465; 33258; 28982; 12289; 20027; 21160;
      30340; 25171; 25307; 21628; 28040; 24687; 65292; 21487; 20197; 26159; 38382;
      20505; 12289; 20851; 24515; 12289; 20998; 20139; 26085; 24120; 25110; 25552;
      20986; 35805; 39064; 12290; 35821; 27668; 33258; 28982; 65292; 23601; 20687;
      30495; 20154; 26379; 21451; 19968; 26679; 12290]%N.

(** [generateActiveMessage(userId)]: whatever is thrown inside is caught. *)
Definition generateActiveMessage (u : userId) : M jsstring :=
  try_catch
    (userName ← reading (fun w => Ok (default [26379; 21451]%N (or_null (userNames w !! u))));
     importantFacts ← reading (fun w => Store.getImportantFacts (memory w) u);
     recentMood ← reading (fun w => Store.getRecentMood (memory w) u);
     chatCount ← reading (fun w => Store.getChatCount (memory w) u);
     timeMood ← reading (fun w => Ok (getCurrentMood (imports w) (clock w)));
     i ← reading (fun w => Ok (imports w));
     activeMessage ← chatWithLLM
       [ system_message
           (buildSystemPrompt i
              {| arg_userName := Some userName; arg_importantFacts := Some importantFacts;
                 arg_chatCount := Some chatCount; arg_mood := None |});
         user_message (active_prompt userName timeMood importantFacts recentMood chatCount) ];
     if negb (falsy_string activeMessage) && (0 <? length (trim activeMessage))%nat
     then mret (trim activeMessage)
     else pick defaultMessages)
    (fun error => pick defaultMessages_caught).

(** [x || 0] for a time that may be missing. *)
Definition or_zero (x : option Z) : Z := default 0 x.

(** The condition of the [if] in the loop. *)
Definition gates_open (now lastInteraction lastActiveMsg : Z) : bool :=
  (USER_INACTIVE_THRESHOLD <? now - lastInteraction)
  && (ACTIVE_MESSAGE_INTERVAL <? now - lastActiveMsg).

(** The body of the [for] loop of [initiateActiveConversation], for the
    [userId] it runs with. *)
Definition consider_user (u : userId) : M unit :=
  lastInteraction ← reading (fun w => Ok (or_zero (lastInteractionTime w !! u)));
  lastActiveMsg ← reading (fun w => Ok (or_zero (lastActiveMessageTime w !! u)));
  now ← Date_now;
  if gates_open now lastInteraction lastActiveMsg then
    try_catch
      (activeMessage ← generateActiveMessage u;
       bot_sendMessage u activeMessage ;;
       update (fun w =>
         with_lastActiveMessageTime (<[u := now]> (lastActiveMessageTime w)) w))
      (fun sendError => mret tt)
  else mret tt.

(** [initiateActiveConversation()]: the loop runs over what [getUserIds]
    returned, so its [userId] is a string. *)
Definition initiateActiveConversation : M unit :=
  try_catch
    (userIds ← reading (fun w => Store.getUserIds (memory w));
     for_of (IdStr <$> userIds) consider_user)
    (fun error => mret tt).

(* ===================================================================== *)
(** * index.js: the hourly cleanup                                        *)
(* ===================================================================== *)

(** [THRESHOLD]: seven days. *)
Definition CLEANUP_THRESHOLD : Z := 7 * 24 * 60 * 60 * 1000.

(** [lastTime && now - lastTime > THRESHOLD] for an entry that may be
    missing. *)
Definition stale (now : Z) (lastTime : option Z) : bool :=
  match lastTime with
  | Some t => negb (falsy_number t) && (CLEANUP_THRESHOLD <? now - t)
  | None => false
  end.

(** The callback of the hourly [setInterval]: one loop over the entries of
    [lastMessageTime], then one over the entries of [userNames], each
    deleting entries as it goes. *)
Definition cleanup : M unit :=
  now ← Date_now;
  times ← reading (fun w => Ok (map_to_list (lastMessageTime w)));
  for_of times (fun entry =>
    if CLEANUP_THRESHOLD <? now - entry.2
    then update (fun w => with_lastMessageTime (delete entry.1 (lastMessageTime w)) w)
    else mret tt) ;;
  names ← reading (fun w => Ok (map_to_list (userNames w)));
  for_of names (fun entry =>
    lastTime ← reading (fun w => Ok (lastMessageTime w !! entry.1));
    if stale now lastTime
    then update (fun w => with_userNames (delete entry.1 (userNames w)) w)
    else mret tt).

(* ===================================================================== *)
(** * index.js: the commands                                              *)
(* ===================================================================== *)

(** [try { body } finally { finalizer }]: the finalizer runs either way, and
    what [body] returned or threw stands unless the finalizer throws. *)
Definition try_finally {A : Type} (body : M A) (finalizer : M unit) : M A := fun w =>
  match body w with
  | (r, w1) =>
      match finalizer w1 with
      | (Ok _, w2) => (r, w2)
      | (Throw e, w2) => (Throw e, w2)
      end
  end.

(** ['嗨，我是 Rose。\n\n有什么就说吧，别客气。'] *)
Definition GREETING : jsstring := [
      21992; 65292; 25105; 26159; 32; 82; 111; 115; 101; 12290; 10; 10; 26377; 20160;
      20040; 23601; 35828; 21543; 65292; 21035; 23458; 27668; 12290]%N.

(** ['行，重新开始吧。'] *)
Definition CLEARED : jsstring := [34892; 65292; 37325; 26032; 24320; 22987; 21543; 12290]%N.

(** ['还没聊啥呢，写什么日记。'] *)
Definition NO_DIARY : jsstring := [
      36824; 27809; 32842; 21861; 21602; 65292; 20889; 20160; 20040; 26085; 35760;
      12290]%N.

(** ['写日记的时候走神了...'] *)
Definition DIARY_FAILED : jsstring := [
      20889; 26085; 35760; 30340; 26102; 20505; 36208; 31070; 20102; 46; 46; 46]%N.

(** ['命令处理出错了...'] *)
Definition COMMAND_FAILED : jsstring := [21629; 20196; 22788; 29702; 20986; 38169; 20102; 46; 46; 46]%N.

(** The reply of [/memory] when there are facts: the count, the facts as a
    bulleted list, and the last mood if there is one. *)
Definition memory_reply (count : nat) (facts : list jsstring) (mood : option jsstring)
  : jsstring :=
  [25105; 20204; 32842; 20102; 32]%N ++ number_toString (Z.of_nat count) ++ [
      32; 26465; 28040; 24687; 12290; 10; 10; 25105; 35760; 24471; 58; 10]%N
  ++ join [10%N] ((fun f => [8226; 32]%N ++ f) <$> facts)
  ++ match or_null mood with
     | Some m => [10; 10; 19978; 27425; 32842; 23436; 24515; 24773; 58; 32]%N ++ m
     | None => []
     end.

(** The reply of [/memory] when there is no fact. *)
Definition memory_reply_bare (count : nat) : jsstring :=
  [25105; 20204; 32842; 20102; 32]%N ++ number_toString (Z.of_nat count) ++ [
      32; 26465; 28040; 24687; 65292; 20294; 25105; 36824; 27809; 35760; 20303; 20160;
      20040; 29305; 21035; 30340; 12290]%N.

(** [`${m.role === 'user' ? 'Ta' : '我'}: ${m.content}`] *)
Definition diary_line (m : ChatMessage) : jsstring :=
  (if bool_decide (role m = role_user) then lit "Ta" else [25105]%N)
  ++ lit ": " ++ content m.

(** The prompt of [/diary] for the messages it is written from. *)
Definition diary_prompt (limitedMessages : list ChatMessage) : jsstring :=
  [
      20320; 26159; 32; 82; 111; 115; 101; 12290; 26681; 25454; 20197; 19979; 23545;
      35805; 35760; 24405; 65292; 20889; 19968; 31687; 31616; 30701; 30340; 26085;
      35760; 65288; 53; 48; 23383; 24038; 21491; 65289; 65292; 29992; 31532; 19968;
      20154; 31216; 34; 25105; 34; 26469; 20889; 58; 10]%N
  ++ join [10%N] (diary_line <$> limitedMessages).

(** [`📔\n\n${diary}`], up to the diary. *)
Definition DIARY_HEAD : jsstring := [55357; 56532; 10; 10]%N.

(** [case '/memory'] *)
Definition memory_command (u : userId) : M unit :=
  count ← reading (fun w => Ok (length (Store.getAll (memory w) u)));
  facts ← reading (fun w => Store.getImportantFacts (memory w) u);
  mood ← reading (fun w => Store.getRecentMood (memory w) u);
  if (0 <? length facts)%nat
  then bot_sendMessage u (memory_reply count facts mood)
  else bot_sendMessage u (memory_reply_bare count).

(** [case '/clear'] *)
Definition clear_command (u : userId) : M unit :=
  writing (fun now => Store.clear u) ;;
  update (fun w => with_lastMessageTime (delete u (lastMessageTime w)) w) ;;
  update (fun w => with_userNames (delete u (userNames w)) w) ;;
  update (fun w => with_lastInteractionTime (delete u (lastInteractionTime w)) w) ;;
  update (fun w => with_lastActiveMessageTime (delete u (lastActiveMessageTime w)) w) ;;
  bot_sendMessage u CLEARED.

(** The request of [/diary]. *)
Definition diary_request (systemPrompt : jsstring) (limitedMessages : list ChatMessage)
  : list ChatMessage :=
  [system_message systemPrompt; user_message (diary_prompt limitedMessages)].

(** [case '/diary']. [persona] is what [buildSystemPrompt()], called with no
    argument at all, comes back with: persona.js is not part of these
    sources, so whether that call returns or throws is left to the caller. *)
Definition diary_command (persona : Exc jsstring) (u : userId) : M unit :=
  allMessages ← reading (fun w => Ok (Store.getAll (memory w) u));
  if (length allMessages =? 0)%nat then bot_sendMessage u NO_DIARY
  else
    bot_sendChatAction u (lit "typing") ;;
    let limitedMessages := slice_last 30 allMessages in
    try_catch
      (systemPrompt ← reading (fun w => persona);
       diary ← chatWithLLM (diary_request systemPrompt limitedMessages);
       bot_sendMessage u (DIARY_HEAD ++ diary))
      (fun err => bot_sendMessage u DIARY_FAILED).

(** The [switch] of [handleCommand]. *)
Definition command (persona : Exc jsstring) (u : userId) (text : jsstring) : M unit :=
  if bool_decide (text = lit "/start") then bot_sendMessage u GREETING
  else if bool_decide (text = lit "/memory") then memory_command u
  else if bool_decide (text = lit "/clear") then clear_command u
  else if bool_decide (text = lit "/diary") then diary_command persona u
  else mret tt.

(** The [catch] of [handleCommand]. *)
Definition command_failed (u : userId) (error : JsError) : M unit :=
  try_catch (bot_sendMessage u COMMAND_FAILED) (fun sendErr => mret tt).

(** [handleCommand(msg)] *)
Definition handleCommand (persona : Exc jsstring) (msg : Msg) : M unit :=
  match msg_chat msg, msg_text msg with
  | Some u, Some text =>
      if falsy_string text then mret tt
      else if falsy_number u then mret tt
      else
        try_finally
          (try_catch (command persona (IdNum u) text) (command_failed (IdNum u)))
          (now ← Date_now;
           update (fun w =>
             with_lastInteractionTime (<[IdNum u := now]> (lastInteractionTime w)) w))
  | _, _ => mret tt
  end.

(** ** Worlds and transports to state properties with *)

(** The process as it starts: an opened store on the database file [d], empty
    maps, nothing sent, no timer pending. *)
Definition boot (i : Imports) (o : Outside) (d : Tables) (now : Z) : World :=
  {| memory := Store.init (Store.new d); lastMessageTime := ∅; userNames := ∅;
     lastInteractionTime := ∅; lastActiveMessageTime := ∅; clock := now;
     log := []; timers := []; draws := 0%nat; imports := i; outside := o |}.

(** Some persona, for worked examples. *)
Definition sample_imports : Imports :=
  {| buildSystemPrompt := fun a =>
       lit "You are Rose." ++ default [] (arg_userName a) ++ default [] (arg_mood a);
     EXTRACTION_PROMPT := lit "List what is worth remembering.";
     getCurrentMood := fun _ => lit "calm";
     MOOD_ANALYSIS_PROMPT := lit "Name the mood.";
     MEMORY_LIMIT := 20 |}.

(** A model endpoint that rejects its first [k] requests and then answers
    [answer]; Telegram delivers everything, no time is lost outside. *)
Definition flaky (k : nat) (answer : jsstring) : Outside :=
  {| http := fun n _ =>
       if (n <? k)%nat then HttpFail (AxiosError (lit "timeout"))
       else HttpBody (Some answer);
     telegram := fun _ => true;
     random := fun _ => 0%nat;
     lag := fun _ => 0 |}.

(** An attempt that does not end the loop by [return]: the request was
    rejected, or the response has no content. *)
Definition failed (a : HttpResult) : Prop :=
  match a with
  | HttpFail _ => True
  | HttpBody c => no_content c = true
  end.

(** What such an attempt leaves to be thrown when it is the last one: the
    error caught, or the empty-content error made on the spot. *)
Definition surfaced (a : HttpResult) : JsError :=
  match a with
  | HttpFail e => e
  | HttpBody _ => Error EMPTY_CONTENT
  end.

(** [lastError] after such an attempt. *)
Definition caught (a : HttpResult) (lastError : option JsError) : option JsError :=
  match a with
  | HttpFail e => Some e
  | HttpBody _ => lastError
  end.

(** One of the store reads inside the [try] of [buildMessages] throws. *)
Definition a_read_throws (w : World) (u : userId) : Prop :=
  (exists e, Store.getImportantFacts (memory w) u = Throw e) \/
  (exists e, Store.getChatCount (memory w) u = Throw e) \/
  (exists e, Store.getRecentMood (memory w) u = Throw e).

(** The calls of [bot.sendMessage] to the chat [u] among some calls. *)
Definition is_send_to (u : userId) (e : Event) : bool :=
  match e with
  | EvSendMessage chat _ _ => bool_decide (chat = u)
  | _ => false
  end.

Definition sent_to (u : userId) (evs : list Event) : list Event :=
  List.filter (is_send_to u) evs.

(** From [w] to [w'] only the model was talked to, time passed and random
    numbers were drawn: the store, the maps and the timers are the same and
    the Bot API was not called. *)
Record quiet (w w' : World) : Prop :=
  { quiet_memory : memory w' = memory w;
    quiet_lastMessageTime : lastMessageTime w' = lastMessageTime w;
    quiet_userNames : userNames w' = userNames w;
    quiet_lastInteractionTime : lastInteractionTime w' = lastInteractionTime w;
    quiet_lastActiveMessageTime : lastActiveMessageTime w' = lastActiveMessageTime w;
    quiet_timers : timers w' = timers w;
    quiet_imports : imports w' = imports w;
    quiet_outside : outside w' = outside w;
    quiet_log : exists evs, log w' = log w ++ evs /\
                            Forall (fun e => is_bot_call e = false) evs }.

(** From [w] to [w'] nothing was sent to [u], the stamp of the last
    proactive message to [u] is the same, and so are the store, the
    interaction times and what is outside. *)
Record passes_by (u : userId) (w w' : World) : Prop :=
  { pass_memory : memory w' = memory w;
    pass_lastInteractionTime : lastInteractionTime w' = lastInteractionTime w;
    pass_stamp : lastActiveMessageTime w' !! u = lastActiveMessageTime w !! u;
    pass_outside : outside w' = outside w;
    pass_log : exists evs, log w' = log w ++ evs /\ sent_to u evs = [] }.

(** Whatever world [m] starts in, it ends in one related by [R]. *)
Definition keeps {A : Type} (R : relation World) (m : M A) : Prop :=
  forall w, R w (snd (m w)).

(** [m] never throws. *)
Definition total {A : Type} (m : M A) : Prop :=
  forall w, exists a, fst (m w) = Ok a.

(** A call made while asking the model [messages]: the request itself, or
    the wait before the next attempt. *)
Definition is_request_of (messages : list ChatMessage) (e : Event) : Prop :=
  match e with
  | EvPost m _ => m = messages
  | EvSleep _ => True
  | _ => False
  end.

(** From [w] to [w'] the model was asked [messages] and nothing else left
    the process. *)
Definition asked_only (messages : list ChatMessage) (w w' : World) : Prop :=
  exists evs, log w' = log w ++ evs /\ Forall (is_request_of messages) evs.

(** From [w] to [w'] nothing was stored and no timer was set. *)
Record unwritten (w w' : World) : Prop :=
  { unw_memory : memory w' = memory w;
    unw_timers : timers w' = timers w }.

(** From [w] to [w'] a turn of [u] with [userMessage] was completed: two
    messages more are stored for [u], and the timers set are the mood
    analysis and, before it, the fact extraction if the count of stored
    messages is now a multiple of 10. *)
Definition completed (u : userId) (userMessage : jsstring) (w w' : World) : Prop :=
  exists reply count,
    Store.getChatCount (memory w') u = Ok count /\
    Store.getChatCount (memory w) u = Ok (count - 2) /\
    timers w' = timers w
                ++ (if Z.rem count 10 =? 0 then [TimerExtract u] else [])
                ++ [TimerMood u userMessage reply].

(** The calls of [addImportantFact] that record [facts] for [u] at [now]. *)
Definition record_facts (now : Z) (u : userId) (facts : list jsstring) : list StoreOp :=
  (fun fact => OpAddImportantFact now u fact) <$> facts.

(** The world after an attempt to send [text] to [u] from [wg], stamped with
    [now] if it was delivered. *)
Definition after_send (u : userId) (text : jsstring) (now : Z) (wg : World) : World :=
  let delivered := telegram (outside wg) (bot_calls (log wg)) in
  let ws := tick (EvSendMessage u text delivered) 0 wg in
  if delivered
  then with_lastActiveMessageTime (<[u := now]> (lastActiveMessageTime ws)) ws
  else ws.

(** A process that knows the user 7 by two stored messages, at [now], with
    the given time of the last interaction, under the number the handlers
    write it with, and of the last proactive message, under the string the
    sweep writes it with. *)
Definition one_user_world (now lastInteraction lastActiveMsg : Z) : World :=
  {| memory := chat_history (IdNum 7) 2; lastMessageTime := ∅; userNames := ∅;
     lastInteractionTime := {[ IdNum 7 := lastInteraction ]};
     lastActiveMessageTime := {[ IdStr (lit "7.0") := lastActiveMsg ]};
     clock := now; log := []; timers := []; draws := 0%nat;
     imports := sample_imports; outside := flaky 0 (lit "hey") |}.

(** An answer of the model to the extraction prompt: a bulleted line, a
    line that is too short, a plain line. *)
Definition sample_answer : jsstring :=
  lit "- likes cats" ++ [10%N] ++ lit "* ok" ++ [10%N] ++ lit "plays chess every day".

(** A process in which the user 7 has [n] stored messages and the model
    answers [sample_answer]. *)
Definition extraction_world (n : nat) : World :=
  {| memory := chat_history (IdNum 7) n; lastMessageTime := ∅; userNames := ∅;
     lastInteractionTime := ∅; lastActiveMessageTime := ∅;
     clock := 1000; log := []; timers := []; draws := 0%nat;
     imports := sample_imports; outside := flaky 0 sample_answer |}.

(** The calls that [m] added to the log of [w]. *)
Definition new_events {A : Type} (m : M A) (w : World) : list Event :=
  drop (length (log w)) (log (snd (m w))).

(** ** Notions the properties of the store are stated with *)

(** Rows in time order: [a] is not newer than [b]. *)
Definition not_older {A : Type} (key : A -> Z) (a b : A) : Prop := key a <= key b.

(** The rows a call of [getRecent] is read from: [rows] lists them oldest
    first, as the tail of the user's messages by time. *)
Definition recent_window (s : MemoryStore) (u : userId) (rows : list MessageRow) : Prop :=
  StronglySorted (not_older msg_created_at) rows /\
  rows `suffix_of` order_by_asc msg_created_at (messages_of u (disk s)).

Definition fact_key (r : MemoryRow) : jsstring * jsstring := (mem_user_id r, mem_fact r).

(** What every [memories] table written by the validated store satisfies. *)
Record memories_ok (d : Tables) : Prop :=
  { unique_facts : NoDup (fact_key <$> memories d);
    valid_facts : Forall (fun r => mem_fact r <> []) (memories d) }.

(** The state every sequence of calls keeps: the handle stays open and the
    facts stay unique and valid. *)
Record store_ok (s : MemoryStore) : Prop :=
  { ok_open : conn s = Opened;
    ok_memories : memories_ok (disk s) }.

Definition moods_bounded (d : Tables) : Prop :=
  forall u, (length (moods_of u d) <= 50)%nat.

(** What the [moods] table satisfies while the clock never runs backwards:
    rowid order is time order, every time is one of the calls' times, no id
    is above the AUTOINCREMENT counter, and no id is used twice. *)
Record moods_chrono (times : list Z) (d : Tables) : Prop :=
  { chrono_sorted : StronglySorted (not_older mood_created_at) (moods d);
    chrono_times : Forall (fun r => mood_created_at r ∈ times) (moods d);
    chrono_ids : Forall (fun r => mood_id r <= moods_seq d) (moods d);
    chrono_unique : NoDup (mood_id <$> moods d) }.

(** Every read of the store for one user, side by side. *)
Record Reads : Type :=
  { read_recent : Z -> list ChatMessage;
    read_all : list ChatMessage;
    read_facts : Exc (list jsstring);
    read_mood : Exc (option jsstring);
    read_count : Exc Z }.

Definition reads (s : MemoryStore) (v : userId) : Reads :=
  {| read_recent := Store.getRecent s v;
     read_all := Store.getAll s v;
     read_facts := Store.getImportantFacts s v;
     read_mood := Store.getRecentMood s v;
     read_count := Store.getChatCount s v |}.

(** ** Notions the further properties are stated with *)

(** The user a writing call is for. *)
Definition op_user (o : StoreOp) : userId :=
  match o with
  | OpAdd _ u _ _ | OpAddImportantFact _ u _ | OpAddMood _ u _ | OpClear u => u
  end.

(** The id is a number, as Telegram hands it over. *)
Definition is_number (u : userId) : bool :=
  match u with IdNum _ => true | IdStr _ => false end.

(** The calls carry chat ids as index.js passes them on a message or a
    command: [msg.chat.id], a number. *)
Definition chat_ids_only (ops : list StoreOp) : Prop :=
  Forall (fun o => is_number (op_user o) = true) ops.

(** Every fact is filed under the text of a number that is not zero. *)
Definition chat_rows (d : Tables) : Prop :=
  Forall (fun r => exists n, n <> 0 /\ mem_user_id r = real_to_text n) (memories d).

(** Every read for [v] returns from [s'] what it returns from [s]. *)
Definition same_reads (s s' : MemoryStore) (v : userId) : Prop :=
  (forall limit, Store.getRecent s' v limit = Store.getRecent s v limit) /\
  Store.getAll s' v = Store.getAll s v /\
  Store.getImportantFacts s' v = Store.getImportantFacts s v /\
  Store.getRecentMood s' v = Store.getRecentMood s v /\
  Store.getChatCount s' v = Store.getChatCount s v.

(** The two hints of [getTimeGap]: ['隔了一会儿才回，可以简单说一句'] and
    [`距离上次聊天已经过了${hours}小时了，可以自然地问候一句`]. *)
Definition HINT_BRIEF : jsstring := [
      38548; 20102; 19968; 20250; 20799; 25165; 22238; 65292; 21487; 20197; 31616;
      21333; 35828; 19968; 21477]%N.

Definition hint_hours (hours : Z) : jsstring :=
  [
      36317; 31163; 19978; 27425; 32842; 22825; 24050; 32463; 36807; 20102]%N ++ number_toString hours ++ [
      23567; 26102; 20102; 65292; 21487; 20197; 33258; 28982; 22320; 38382; 20505;
      19968; 21477]%N.

Definition HOUR : Z := 1000 * 60 * 60.

(** From [w] to [w'] the calls that left the process all satisfy [P]. *)
Definition emits (P : Event -> Prop) (w w' : World) : Prop :=
  exists evs, log w' = log w ++ evs /\ Forall P evs.

(** A call that, if it is one of the Bot API, goes to [chat], and if it
    sends a text, sends one that is not empty and within Telegram's limit
    of 4096 units. *)
Definition polite (chat : option userId) (e : Event) : Prop :=
  match e with
  | EvSendMessage c text _ => chat = Some c /\ text <> [] /\ (length text <= 4096)%nat
  | EvSendChatAction c _ _ => chat = Some c
  | _ => True
  end.

(** A call that, if it sends a text, sends one of [texts]. *)
Definition says_only (texts : list jsstring) (e : Event) : Prop :=
  match e with
  | EvSendMessage _ text _ => text ∈ texts
  | _ => True
  end.

(** A call that is not one of the Bot API. *)
Definition off_telegram (e : Event) : Prop := is_bot_call e = false.

(** A model endpoint whose every answer is 5000 letters long. *)
Definition long_winded : Outside :=
  {| http := fun _ _ => HttpBody (Some (replicate 5000 97%N));
     telegram := fun _ => true;
     random := fun _ => 0%nat;
     lag := fun _ => 0 |}.

(** A text message [text] in the chat [u], from a sender without a name. *)
Definition text_message (u : Z) (text : jsstring) : Msg :=
  {| msg_chat := Some u; msg_text := Some text;
     msg_username := None; msg_first_name := None |}.

(** Whatever [m] returns satisfies [Q]. *)
Definition ensures {A : Type} (Q : A -> Prop) (m : M A) : Prop :=
  forall w a w', m w = (Ok a, w') -> Q a.

(** The users a sweep goes through: what [getUserIds] lists, nobody when it
    throws. *)
Definition listed (w : World) : list jsstring :=
  match Store.getUserIds (memory w) with
  | Ok ids => ids
  | Throw _ => []
  end.

(** A call a sweep over [ids] may make: a request to the model, or a
    non-empty text to one of [ids], a string. *)
Definition proactive (ids : list jsstring) (e : Event) : Prop :=
  match e with
  | EvSendMessage c text _ => (exists s, c = IdStr s /\ s ∈ ids) /\ text <> []
  | EvSendChatAction _ _ _ => False
  | _ => True
  end.

(** From [w] to [w'] nothing changed in the process but the log, the clock,
    the random draws and the stamps of the proactive messages, and the
    calls made satisfy [P]. *)
Record only_stamps (P : Event -> Prop) (w w' : World) : Prop :=
  { stamps_memory : memory w' = memory w;
    stamps_lastMessageTime : lastMessageTime w' = lastMessageTime w;
    stamps_userNames : userNames w' = userNames w;
    stamps_lastInteractionTime : lastInteractionTime w' = lastInteractionTime w;
    stamps_timers : timers w' = timers w;
    stamps_log : emits P w w' }.

(** From [w] to [w'] the four maps and the timers are the same and the Bot
    API was not called: at most the store was written and the model asked. *)
Record only_store (w w' : World) : Prop :=
  { store_lastMessageTime : lastMessageTime w' = lastMessageTime w;
    store_userNames : userNames w' = userNames w;
    store_lastInteractionTime : lastInteractionTime w' = lastInteractionTime w;
    store_lastActiveMessageTime : lastActiveMessageTime w' = lastActiveMessageTime w;
    store_timers : timers w' = timers w;
    store_log : emits off_telegram w w' }.

(** A call that, if it is one of the Bot API, goes to [chat]. *)
Definition to_chat (chat : option userId) (e : Event) : Prop :=
  match e with
  | EvSendMessage c _ _ | EvSendChatAction c _ _ => chat = Some c
  | _ => True
  end.

(** From [w] to [w'] the store, the four maps and the timers are the same,
    and the calls made satisfy [P]. *)
Record only_calls (P : Event -> Prop) (w w' : World) : Prop :=
  { calls_memory : memory w' = memory w;
    calls_lastMessageTime : lastMessageTime w' = lastMessageTime w;
    calls_userNames : userNames w' = userNames w;
    calls_lastInteractionTime : lastInteractionTime w' = lastInteractionTime w;
    calls_lastActiveMessageTime : lastActiveMessageTime w' = lastActiveMessageTime w;
    calls_timers : timers w' = timers w;
    calls_log : emits P w w' }.

(** A process with an opened store in the state [s]. *)
Definition world_of (s : MemoryStore) (o : Outside) (now : Z) : World :=
  {| memory := s; lastMessageTime := ∅; userNames := ∅;
     lastInteractionTime := ∅; lastActiveMessageTime := ∅; clock := now;
     log := []; timers := []; draws := 0%nat; imports := sample_imports; outside := o |}.

(** [f] is a piece of [s]: it occurs in it, in one run. *)
Definition piece_of (f s : jsstring) : Prop := exists pre post, s = pre ++ f ++ post.

(** [chatWithLLM(messages)] as src/index.js has it: one request, no retry,
    no check of the argument. *)
Definition chatWithLLM_once (messages : list ChatMessage) : M jsstring :=
  try_catch
    (content ← axios_post messages;
     if no_content content then throw (Error EMPTY_CONTENT)
     else mret (default [] content))
    (fun err => throw err).

(** A call [/diary] may make for the user [u] whose stored messages are
    [allMessages], under the persona [systemPrompt]: a request to the model
    only when there are messages, and then the diary request over the last
    30 of them; a text to [u] that is the notice of an empty history, a
    diary under its head, or one of the two failure notices. *)
Definition diary_call (u : userId) (systemPrompt : jsstring)
    (allMessages : list ChatMessage) (e : Event) : Prop :=
  match e with
  | EvPost messages _ =>
      allMessages <> [] /\
      messages = diary_request systemPrompt (slice_last 30 allMessages)
  | EvSendMessage c text _ =>
      c = u /\
      (text = NO_DIARY \/ text = DIARY_FAILED \/ text = COMMAND_FAILED \/
       exists diary, text = DIARY_HEAD ++ diary)
  | EvSendChatAction c _ _ => c = u /\ allMessages <> []
  | EvSleep _ => True
  end.

(** What one pass of the first loop of [cleanup] does to [lastMessageTime]. *)
Definition prune (now : Z) (m : gmap ChatId Z) (entry : ChatId * Z) : gmap ChatId Z :=
  if CLEANUP_THRESHOLD <? now - entry.2 then delete entry.1 m else m.

(* ===================================================================== *)
(** * Part II: properties                                                 *)
(* ===================================================================== *)

(** ** ORDER BY *)

Section OrderByFacts.
Context {A : Type} (key : A -> Z).

Lemma index_insert_perm (x : A) (l : list A) : index_insert key x l ≡ₚ x :: l.
Proof.
  induction l as [|y l IH]; simpl; [done|].
  destruct (key x <=? key y); [done|].
  rewrite IH. apply Permutation_swap.
Qed.

Lemma order_by_asc_perm (l : list A) : order_by_asc key l ≡ₚ l.
Proof.
  induction l as [|x l IH]; simpl; [done|].
  rewrite index_insert_perm. by rewrite IH.
Qed.

Lemma order_by_desc_perm (l : list A) : order_by_desc key l ≡ₚ l.
Proof. unfold order_by_desc. by rewrite reverse_Permutation, order_by_asc_perm. Qed.

Lemma index_insert_sorted (x : A) (l : list A) :
  StronglySorted (not_older key) l -> StronglySorted (not_older key) (index_insert key x l).
Proof.
  induction 1 as [|y l Hl IH Hy]; simpl.
  - repeat constructor.
  - destruct (key x <=? key y) eqn:E.
    + apply Z.leb_le in E. constructor; [by constructor|].
      constructor; [done|].
      eapply Forall_impl; [exact Hy|]. unfold not_older. intros; lia.
    + apply Z.leb_gt in E. constructor; [done|].
      rewrite index_insert_perm. constructor; [unfold not_older; lia | done].
Qed.

Lemma order_by_asc_sorted (l : list A) : StronglySorted (not_older key) (order_by_asc key l).
Proof.
  induction l as [|x l IH]; simpl; [constructor|]. by apply index_insert_sorted.
Qed.

Lemma order_by_asc_id (l : list A) :
  StronglySorted (not_older key) l -> order_by_asc key l = l.
Proof.
  induction 1 as [|x l Hl IH Hx]; simpl; [done|].
  rewrite IH. destruct Hx as [|y l' Hy _]; simpl; [done|].
  unfold not_older in Hy. by rewrite (proj2 (Z.leb_le _ _) Hy).
Qed.

End OrderByFacts.

Lemma sql_limit_length {A : Type} (n : Z) (l : list A) :
  0 <= n -> (length (sql_limit n 0 l) <= Z.to_nat n)%nat.
Proof.
  intros Hn. unfold sql_limit. rewrite drop_0.
  destruct (n <? 0) eqn:E; [apply Z.ltb_lt in E; lia|].
  rewrite length_take. lia.
Qed.

Lemma reverse_sql_limit_desc {A : Type} (key : A -> Z) (n : Z) (l : list A) :
  0 <= n ->
  reverse (sql_limit n 0 (order_by_desc key l))
  = drop (length l - Z.to_nat n)%nat (order_by_asc key l).
Proof.
  intros Hn. unfold sql_limit, order_by_desc. rewrite drop_0.
  destruct (n <? 0) eqn:E; [apply Z.ltb_lt in E; lia|].
  rewrite take_reverse, reverse_involutive.
  by rewrite (Permutation_length (order_by_asc_perm key l)).
Qed.

(** ** getRecent and getAll *)

Lemma drop_strongly_sorted {A : Type} (R : relation A) (n : nat) (l : list A) :
  StronglySorted R l -> StronglySorted R (drop n l).
Proof.
  intros H. rewrite <- (take_drop n l) in H. by apply StronglySorted_app_1_r in H.
Qed.

Lemma drop_suffix_drop {A : Type} (a b : nat) (l : list A) :
  (b <= a)%nat -> drop a l `suffix_of` drop b l.
Proof.
  intros Hab. replace a with (b + (a - b))%nat by lia.
  rewrite <- drop_drop. apply suffix_drop.
Qed.

(** What [getRecent] returns on an open store, for a limit that is not
    negative: the last [min(limit, 50)] rows of the ascending order. *)
Lemma getRecent_open (s : MemoryStore) (u : userId) (n : Z) :
  conn s = Opened -> 0 <= n ->
  Store.getRecent s u n
  = select_role_content <$>
      drop (length (messages_of u (disk s)) - Z.to_nat (Z.min n 50))%nat
           (order_by_asc msg_created_at (messages_of u (disk s))).
Proof.
  intros Hc Hn. unfold Store.getRecent, query. rewrite Hc.
  unfold Stmt.getRecentMessages, Stmt.recentRows.
  rewrite <- fmap_reverse, reverse_sql_limit_desc by lia. done.
Qed.

Lemma getAll_open (s : MemoryStore) (u : userId) :
  conn s = Opened ->
  Store.getAll s u
  = select_role_content <$>
      drop (length (messages_of u (disk s)) - 100)%nat
           (order_by_asc msg_created_at (messages_of u (disk s))).
Proof.
  intros Hc. unfold Store.getAll, query. rewrite Hc.
  unfold Stmt.getAllMessages, slice_last.
  rewrite length_fmap, (Permutation_length (order_by_asc_perm _ _)).
  by rewrite fmap_drop.
Qed.

(** For a limit that is not negative, [getRecent] returns at most
    [min(limit, 50)] messages, oldest first, and they are a suffix of what
    [getAll] returns. *)
Theorem getRecent_bounded_suffix (s : MemoryStore) (u : userId) (n : Z) :
  0 <= n ->
  (length (Store.getRecent s u n) <= Z.to_nat (Z.min n 50))%nat /\
  Store.getRecent s u n `suffix_of` Store.getAll s u /\
  exists rows, Store.getRecent s u n = select_role_content <$> rows /\
               recent_window s u rows.
Proof.
  intros Hn. destruct (conn s) eqn:Hc.
  1,3: unfold Store.getRecent, Store.getAll, query; rewrite Hc;
       (split; [simpl; lia|]); (split; [done|]);
       exists []; (split; [done|]); split; [constructor | apply suffix_nil].
  rewrite getRecent_open, getAll_open by done.
  set (L := messages_of u (disk s)).
  set (S := order_by_asc msg_created_at L).
  assert (HS : length S = length L)
    by apply (Permutation_length (order_by_asc_perm _ _)).
  split; [rewrite length_fmap, length_drop; lia|].
  split.
  - destruct (drop_suffix_drop (length L - Z.to_nat (Z.min n 50))
                (length L - 100) S) as [k Hk]; [lia|].
    exists (select_role_content <$> k). by rewrite Hk, fmap_app.
  - eexists; split; [done|]. split.
    + apply drop_strongly_sorted, order_by_asc_sorted.
    + apply suffix_drop.
Qed.

Lemma getRecent_bounded_suffix_witness :
  (length (Store.getRecent (chat_history (IdNum 7) 60) (IdNum 7) 55) <= 50)%nat /\
  Store.getRecent (chat_history (IdNum 7) 60) (IdNum 7) 55 `suffix_of` Store.getAll (chat_history (IdNum 7) 60) (IdNum 7).
Proof.
  pose proof (getRecent_bounded_suffix (chat_history (IdNum 7) 60) (IdNum 7) 55 ltac:(lia)) as (H1 & H2 & _).
  split; [exact H1 | exact H2].
Defined.

(** C1 (the case the code misses): with a negative limit [Math.min] leaves it
    negative, SQLite reads a negative LIMIT as no limit, and [getRecent]
    returns the whole history: 101 messages here, more than the bound of 50
    and more than the 100 that [getAll] returns. *)
Theorem getRecent_negative_limit_unbounded :
  length (Store.getRecent (chat_history (IdNum 7) 101) (IdNum 7) (-1)) = 101%nat /\
  length (Store.getAll (chat_history (IdNum 7) 101) (IdNum 7)) = 100%nat /\
  ~ (Store.getRecent (chat_history (IdNum 7) 101) (IdNum 7) (-1) `suffix_of` Store.getAll (chat_history (IdNum 7) 101) (IdNum 7)).
Proof.
  assert (H1 : length (Store.getRecent (chat_history (IdNum 7) 101) (IdNum 7) (-1)) = 101%nat)
    by (vm_compute; reflexivity).
  assert (H2 : length (Store.getAll (chat_history (IdNum 7) 101) (IdNum 7)) = 100%nat)
    by (vm_compute; reflexivity).
  split; [done|]. split; [done|].
  intros Hsuf. apply suffix_length in Hsuf. lia.
Qed.

(** ** Ids as the text of the column *)

Lemma digits_inj (d d' : Decimal.uint) : digits d = digits d' -> d = d'.
Proof.
  revert d'. induction d; intros [] H; simpl in H; try discriminate; try done;
    injection H as H; f_equal; auto.
Qed.

Lemma digits_range (d : Decimal.uint) : Forall (fun c => (48 <= c <= 57)%N) (digits d).
Proof. induction d; simpl; constructor; (lia || done). Qed.

Lemma number_toString_range (a : Z) :
  0 <= a -> Forall (fun c => (48 <= c <= 57)%N) (number_toString a).
Proof.
  destruct a as [|p|p]; [|intros _; apply digits_range | lia].
  intros _. repeat constructor; lia.
Qed.

Lemma number_toString_inj (a b : Z) :
  0 <= a -> 0 <= b -> number_toString a = number_toString b -> a = b.
Proof.
  destruct a as [|p|p], b as [|q|q]; try lia; intros _ _ H; simpl in H.
  - apply (digits_inj (Decimal.D0 Decimal.Nil)) in H. symmetry in H.
    by apply DecimalPos.Unsigned.to_uint_nonzero in H.
  - apply (digits_inj _ (Decimal.D0 Decimal.Nil)) in H.
    by apply DecimalPos.Unsigned.to_uint_nonzero in H.
  - apply digits_inj, DecimalPos.Unsigned.to_uint_inj in H. by subst.
Qed.

(** Below 10^15 in magnitude the text tells the numbers apart. *)
Lemma real_to_text_inj (n m : Z) :
  Z.abs n < 10 ^ 15 -> Z.abs m < 10 ^ 15 -> real_to_text n = real_to_text m -> n = m.
Proof.
  intros Hn Hm. unfold real_to_text.
  rewrite (proj2 (Z.ltb_lt _ _) Hn), (proj2 (Z.ltb_lt _ _) Hm).
  pose proof (number_toString_range (Z.abs n) (Z.abs_nonneg n)) as Rn.
  pose proof (number_toString_range (Z.abs m) (Z.abs_nonneg m)) as Rm.
  destruct (n <? 0) eqn:En, (m <? 0) eqn:Em; simpl; intros H.
  - injection H as H. apply app_inv_tail in H.
    apply number_toString_inj in H; lia.
  - destruct (number_toString (Z.abs m)) as [|c l]; [discriminate|].
    injection H as <- _. apply Forall_cons_1 in Rm as [Rm _]. lia.
  - destruct (number_toString (Z.abs n)) as [|c l]; [discriminate|].
    injection H as -> _. apply Forall_cons_1 in Rn as [Rn _]. lia.
  - apply app_inv_tail in H. apply number_toString_inj in H; lia.
Qed.

(** From 10^15 on the text carries an exponent. *)
Lemma real_to_text_exponent (n : Z) : 10 ^ 15 <= Z.abs n -> 101%N ∈ real_to_text n.
Proof.
  intros Hn. unfold real_to_text.
  rewrite (proj2 (Z.ltb_ge _ _) Hn).
  cbv zeta. rewrite !elem_of_app. do 4 right. left.
  apply list_elem_of_here.
Qed.

Lemma real_to_text_zero (n : Z) : real_to_text n = real_to_text 0 -> n = 0.
Proof.
  intros H. destruct (Z_lt_le_dec (Z.abs n) (10 ^ 15)) as [Hn|Hn].
  - apply real_to_text_inj in H; [done|done|]. reflexivity.
  - apply real_to_text_exponent in Hn. rewrite H in Hn.
    vm_compute in Hn. by repeat (apply elem_of_cons in Hn as [Hn|Hn]; [discriminate|]);
      apply elem_of_nil in Hn.
Qed.

Lemma real_to_text_nonempty (n : Z) : real_to_text n <> [].
Proof.
  destruct (Z_lt_le_dec (Z.abs n) (10 ^ 15)) as [Hn|Hn].
  - unfold real_to_text. rewrite (proj2 (Z.ltb_lt _ _) Hn). intros H.
    apply app_eq_nil in H as [_ H]. by apply app_eq_nil in H as [_ H].
  - intros H. apply real_to_text_exponent in Hn. rewrite H in Hn.
    by apply elem_of_nil in Hn.
Qed.

(** An id whose text is that of a number other than zero is one the store
    accepts. *)
Lemma accepted_text (u : userId) (n : Z) :
  n <> 0 -> real_to_text n = id_text u -> falsy_id u = false.
Proof.
  intros Hn H. destruct u as [m|t]; simpl in *.
  - unfold falsy_number. apply Z.eqb_neq. intros ->.
    by apply real_to_text_zero in H.
  - destruct t; [|done]. by apply real_to_text_nonempty in H.
Qed.

(** ** Facts: the UNIQUE(user_id, fact) constraint *)

Lemma sorter_desc_perm {A : Type} (key : A -> Z) (l : list A) : sorter_desc key l ≡ₚ l.
Proof. apply order_by_asc_perm. Qed.

Lemma conflicts_spec (u : userId) (f : jsstring) (d : Tables) :
  Stmt.conflicts u f d = true <-> (id_text u, f) ∈ fact_key <$> memories d.
Proof.
  unfold Stmt.conflicts. rewrite bool_decide_eq_true, Exists_exists, list_elem_of_fmap.
  unfold fact_key. split.
  - intros (r & Hr & <- & <-). eauto.
  - intros (r & [= -> ->] & Hr). eauto.
Qed.

Lemma facts_of_unique (t : jsstring) (l : list MemoryRow) :
  NoDup (fact_key <$> l) -> NoDup (mem_fact <$> filter (fun r => mem_user_id r = t) l).
Proof.
  induction l as [|r l IH]; simpl; [constructor|].
  rewrite NoDup_cons. intros [Hr Hl]. rewrite filter_cons.
  destruct (decide (mem_user_id r = t)) as [Hu|]; [|by auto].
  rewrite fmap_cons. apply NoDup_cons. split; [|by auto].
  intros Hin. apply Hr. apply list_elem_of_fmap in Hin as (r' & Hf & Hr').
  apply list_elem_of_filter in Hr' as [Hu' Hr'].
  apply list_elem_of_fmap. exists r'. split; [|done].
  unfold fact_key. by rewrite Hf, Hu, Hu'.
Qed.

Lemma getMemories_NoDup (u : userId) (d : Tables) :
  NoDup (fact_key <$> memories d) -> NoDup (Stmt.getMemories u d).
Proof.
  intros H. unfold Stmt.getMemories.
  rewrite (sorter_desc_perm mem_created_at (memories_of u d)).
  by apply facts_of_unique.
Qed.

Lemma getMemories_elem (u : userId) (f : jsstring) (d : Tables) :
  f ∈ Stmt.getMemories u d <-> (id_text u, f) ∈ fact_key <$> memories d.
Proof.
  unfold Stmt.getMemories.
  rewrite (sorter_desc_perm mem_created_at (memories_of u d)).
  unfold memories_of. rewrite !list_elem_of_fmap. split.
  - intros (r & -> & Hr). apply list_elem_of_filter in Hr as [<- Hr]. eauto.
  - intros (r & [= Hu ->] & Hr). exists r. split; [done|].
    by apply list_elem_of_filter.
Qed.

Lemma insertMemory_ok (u : userId) (f : jsstring) (now : Z) (d : Tables) :
  f <> [] -> memories_ok d -> memories_ok (Stmt.insertMemory u f now d).
Proof.
  intros Hf [Hnd Hv]. unfold Stmt.insertMemory.
  destruct (Stmt.conflicts u f d) eqn:E; [by split|].
  split; simpl.
  - rewrite fmap_app. apply NoDup_app. split; [done|]. split.
    + intros k Hk Hk'. cbn in Hk'. apply list_elem_of_singleton in Hk'. subst k.
      apply conflicts_spec in Hk. simpl in Hk. congruence.
    + apply NoDup_singleton.
  - apply Forall_app. split; [done|]. by repeat constructor.
Qed.

Lemma falsy_number_false (u : Z) : falsy_number u = false <-> u <> 0.
Proof. unfold falsy_number. by rewrite Z.eqb_neq. Qed.

Lemma falsy_string_false (x : jsstring) : falsy_string x = false <-> x <> [].
Proof. by destruct x. Qed.

Lemma Forall_filter_keep {A : Type} (P Q : A -> Prop) `{!forall x, Decision (Q x)}
    (l : list A) :
  Forall P l -> Forall P (filter Q l).
Proof.
  rewrite !Forall_forall. intros Hl x Hx.
  apply list_elem_of_filter in Hx as [_ Hx]. by apply Hl.
Qed.

Lemma memories_ok_ext (d d' : Tables) :
  memories d' = memories d -> memories_ok d -> memories_ok d'.
Proof. intros E [Hnd Hv]. split; by rewrite E. Qed.

Lemma step_ok (s : MemoryStore) (o : StoreOp) : store_ok s -> store_ok (step s o).
Proof.
  intros [Hc Hm]. unfold step, call.
  destruct o as [now u r c|now u f|now u m|u]; simpl.
  - unfold Store.add, run. rewrite Hc.
    destruct (falsy_id u || falsy_string r); simpl; [by split|].
    split; [done|]. by apply (memories_ok_ext (disk s)).
  - unfold Store.addImportantFact, run. rewrite Hc.
    destruct (falsy_id u || falsy_string f) eqn:E; simpl; [by split|].
    apply orb_false_iff in E as [Hu Hf].
    apply falsy_string_false in Hf.
    split; [done|]. by apply insertMemory_ok.
  - unfold Store.addMood, run. rewrite Hc. simpl.
    destruct (falsy_id u || falsy_string m); simpl; [by split|].
    split; [done|]. by apply (memories_ok_ext (disk s)).
  - unfold Store.clear, run. rewrite Hc. simpl. split; [done|].
    destruct Hm as [Hnd Hv]. split; simpl.
    + refine (sublist_NoDup _ _ Hnd _). apply fmap_sublist, sublist_filter.
    + by apply Forall_filter_keep.
Qed.

Lemma step_open (s : MemoryStore) (o : StoreOp) :
  conn s = Opened -> conn (step s o) = Opened.
Proof.
  intros Hc. unfold step, call.
  destruct o as [now u r c|now u f|now u m|u]; simpl.
  - unfold Store.add, run. rewrite Hc.
    by destruct (falsy_id u || falsy_string r).
  - unfold Store.addImportantFact, run. rewrite Hc.
    by destruct (falsy_id u || falsy_string f).
  - unfold Store.addMood, run. rewrite Hc. simpl.
    by destruct (falsy_id u || falsy_string m).
  - unfold Store.clear, run. by rewrite Hc.
Qed.

Lemma run_ops_open (ops : list StoreOp) (s : MemoryStore) :
  conn s = Opened -> conn (run_ops ops s) = Opened.
Proof.
  revert s. induction ops as [|o ops IH]; intros s Hs; simpl; [done|].
  apply IH. by apply step_open.
Qed.

Lemma run_ops_ok (ops : list StoreOp) (s : MemoryStore) :
  store_ok s -> store_ok (run_ops ops s).
Proof.
  revert s. induction ops as [|o ops IH]; intros s Hs; simpl; [done|].
  apply IH. by apply step_ok.
Qed.

Lemma fresh_store_ok : store_ok fresh_store.
Proof. split; [done|]. split; simpl; constructor. Qed.

(** While the calls carry numbers, every fact is filed under the text of a
    number the store accepted. *)
Lemma step_chat_rows (s : MemoryStore) (o : StoreOp) :
  is_number (op_user o) = true -> chat_rows (disk s) -> chat_rows (disk (step s o)).
Proof.
  intros Ho Hs. unfold step, call, chat_rows in *.
  destruct o as [now u r c|now u f|now u m|u]; simpl in *.
  - unfold Store.add, run.
    by destruct (falsy_id u || falsy_string r), (conn s).
  - unfold Store.addImportantFact, run.
    destruct (falsy_id u || falsy_string f) eqn:E; simpl; [done|].
    destruct (conn s); simpl; try done.
    unfold Stmt.insertMemory. destruct (Stmt.conflicts u f (disk s)); [done|].
    simpl. apply Forall_app. split; [done|]. constructor; [|constructor].
    destruct u as [n|t]; [|discriminate]. exists n. split; [|done].
    apply orb_false_iff in E as [E _]. by apply falsy_number_false in E.
  - unfold Store.addMood, run.
    destruct (falsy_id u || falsy_string m); simpl; [done|].
    by destruct (conn s).
  - unfold Store.clear, run. destruct (conn s); simpl; try done.
    by apply Forall_filter_keep.
Qed.

Lemma run_ops_chat_rows (ops : list StoreOp) (s : MemoryStore) :
  chat_ids_only ops -> chat_rows (disk s) -> chat_rows (disk (run_ops ops s)).
Proof.
  revert s. induction ops as [|o ops IH]; intros s Hops Hs; simpl; [done|].
  apply Forall_cons_1 in Hops as [Ho Hops].
  apply IH; [done|]. by apply step_chat_rows.
Qed.

(** C4: after any sequence of store calls [getImportantFacts] returns a list
    without duplicates, and storing a fact that is already in that list
    succeeds and changes nothing in the store. The second half is for every
    id the store accepts (it refuses 0 and the empty string before any
    statement runs), and for every id at all while the calls carried chat
    ids, which are numbers. *)
Theorem addImportantFact_idempotent (ops : list StoreOp) (u : userId) :
  let s := run_ops ops fresh_store in
  exists facts,
    Store.getImportantFacts s u = Ok facts /\
    NoDup facts /\
    forall (f : jsstring) (now : Z),
      f ∈ facts -> falsy_id u = false \/ chat_ids_only ops ->
      Store.addImportantFact now u f s = Ok s.
Proof.
  intros s.
  destruct (run_ops_ok ops fresh_store fresh_store_ok) as [Hc [Hnd Hv]].
  fold s in Hc, Hnd, Hv.
  exists (Stmt.getMemories u (disk s)).
  unfold Store.getImportantFacts, query. rewrite Hc.
  split; [done|]. split; [by apply getMemories_NoDup|].
  intros f now Hf Hwho. apply getMemories_elem in Hf.
  apply list_elem_of_fmap in Hf as (r & Hkey & Hr).
  injection Hkey as Hu Hfact.
  assert (Hne : f <> []).
  { subst f. rewrite Forall_forall in Hv. by apply Hv. }
  assert (Hacc : falsy_id u = false).
  { destruct Hwho as [H|Hnum]; [done|].
    assert (Hrows : chat_rows (disk s))
      by (apply run_ops_chat_rows; [done | constructor]).
    unfold chat_rows in Hrows. rewrite Forall_forall in Hrows.
    destruct (Hrows r Hr) as (n & Hn & Hrn).
    apply (accepted_text u n Hn). by rewrite <- Hrn. }
  unfold Store.addImportantFact, run.
  rewrite Hacc, (proj2 (falsy_string_false f) Hne), Hc.
  simpl. unfold Stmt.insertMemory.
  assert (Hconf : Stmt.conflicts u f (disk s) = true).
  { apply conflicts_spec. apply list_elem_of_fmap. exists r. split; [|done].
    unfold fact_key. by rewrite <- Hu, <- Hfact. }
  rewrite Hconf.
  destruct s as [c d]. simpl in *. by subst c.
Qed.

Lemma addImportantFact_idempotent_witness :
  Store.addImportantFact 2 (IdNum 7) (lit "likes cats")
    (run_ops [OpAddImportantFact 1 (IdNum 7) (lit "likes cats")] fresh_store)
  = Ok (run_ops [OpAddImportantFact 1 (IdNum 7) (lit "likes cats")] fresh_store).
Proof.
  destruct (addImportantFact_idempotent
              [OpAddImportantFact 1 (IdNum 7) (lit "likes cats")] (IdNum 7))
    as (facts & Hget & _ & Hsame).
  apply Hsame; [|by left]. injection Hget as <-. vm_compute. apply list_elem_of_here.
Defined.

(** ** Moods: insert, then trim to 50 *)

(** A search by [user_id] sees an id through its text only. *)
Lemma messages_of_text (u v : userId) (d : Tables) :
  id_text u = id_text v -> messages_of u d = messages_of v d.
Proof. intros E. unfold messages_of. by rewrite E. Qed.

Lemma memories_of_text (u v : userId) (d : Tables) :
  id_text u = id_text v -> memories_of u d = memories_of v d.
Proof. intros E. unfold memories_of. by rewrite E. Qed.

Lemma moods_of_text (u v : userId) (d : Tables) :
  id_text u = id_text v -> moods_of u d = moods_of v d.
Proof. intros E. unfold moods_of. by rewrite E. Qed.

Lemma filter_comm {A : Type} (P Q : A -> Prop)
    `{!forall x, Decision (P x)} `{!forall x, Decision (Q x)} (l : list A) :
  filter P (filter Q l) = filter Q (filter P l).
Proof.
  induction l as [|x l IH]; [done|].
  rewrite !filter_cons.
  destruct (decide (Q x)), (decide (P x)); rewrite ?filter_cons;
    repeat case_decide; try done; by rewrite IH.
Qed.

Lemma filter_nil_Forall {A : Type} (P : A -> Prop) `{!forall x, Decision (P x)}
    (l : list A) :
  Forall (fun x => ~ P x) l -> filter P l = [].
Proof.
  induction 1 as [|x l Hx _ IH]; [done|].
  rewrite filter_cons. by destruct (decide (P x)).
Qed.

Lemma trim_keeps_50 {A : Type} (key : A -> Z) (ids : list Z) (rows : list A) :
  Forall (fun r => key r ∈ ids) (drop 50 rows) ->
  (length (filter (fun r => key r ∉ ids) rows) <= 50)%nat.
Proof.
  intros Hold. rewrite <- (take_drop 50 rows) at 1.
  rewrite filter_app, length_app, (filter_nil_Forall _ (drop 50 rows)).
  - pose proof (length_filter (fun r => key r ∉ ids) (take 50 rows)).
    rewrite length_take in *. simpl. lia.
  - eapply Forall_impl; [exact Hold|]. simpl. tauto.
Qed.

(** After the trim the user has at most 50 moods, whatever was stored. *)
Lemma deleteOldMoods_bound (u : userId) (d : Tables) :
  (length (moods_of u (Stmt.deleteOldMoods u d)) <= 50)%nat.
Proof.
  unfold moods_of, Stmt.deleteOldMoods. simpl. rewrite filter_comm.
  unfold Stmt.oldMoodIds, moods_of. set (L := filter _ (moods d)).
  set (S := order_by_desc mood_created_at L).
  rewrite <- (order_by_desc_perm mood_created_at L). fold S.
  unfold sql_limit. simpl. apply trim_keeps_50.
  apply Forall_forall. intros r Hr. apply list_elem_of_fmap. eauto.
Qed.

(** The trim of one user's moods never adds a row to anybody. *)
Lemma deleteOldMoods_shrinks (u v : userId) (d : Tables) :
  (length (moods_of v (Stmt.deleteOldMoods u d)) <= length (moods_of v d))%nat.
Proof.
  unfold moods_of, Stmt.deleteOldMoods. simpl. rewrite filter_comm.
  apply length_filter.
Qed.

Lemma step_moods_bounded (s : MemoryStore) (o : StoreOp) :
  moods_bounded (disk s) -> moods_bounded (disk (step s o)).
Proof.
  intros Hb. unfold step, call.
  destruct o as [now u r c|now u f|now u m|u]; simpl.
  - unfold Store.add, run.
    destruct (falsy_id u || falsy_string r), (conn s); simpl; done.
  - unfold Store.addImportantFact, run.
    destruct (falsy_id u || falsy_string f), (conn s); simpl; try done.
    unfold Stmt.insertMemory. by destruct (Stmt.conflicts u f (disk s)).
  - unfold Store.addMood, run.
    destruct (falsy_id u || falsy_string m), (conn s); simpl; try done.
    intros v. destruct (decide (id_text v = id_text u)) as [E|Hv].
    + rewrite (moods_of_text v u _ E). apply deleteOldMoods_bound.
    + etransitivity; [apply deleteOldMoods_shrinks|].
      unfold moods_of, Stmt.insertMood. simpl.
      rewrite filter_app, filter_cons, filter_nil. simpl.
      destruct (decide (id_text u = id_text v)); [congruence|].
      rewrite app_nil_r. apply Hb.
  - unfold Store.clear, run. destruct (conn s); simpl; try done.
    intros v. unfold moods_of. simpl. rewrite filter_comm. etransitivity.
    + apply length_filter.
    + apply Hb.
Qed.

Lemma run_ops_moods_bounded (ops : list StoreOp) (s : MemoryStore) :
  moods_bounded (disk s) -> moods_bounded (disk (run_ops ops s)).
Proof.
  revert s. induction ops as [|o ops IH]; intros s Hs; simpl; [done|].
  apply IH. by apply step_moods_bounded.
Qed.

Lemma filter_strongly_sorted {A : Type} (R : relation A) (P : A -> Prop)
    `{!forall x, Decision (P x)} (l : list A) :
  StronglySorted R l -> StronglySorted R (filter P l).
Proof.
  induction 1 as [|x l Hl IH Hx]; [constructor|].
  rewrite filter_cons. destruct (decide (P x)); [|done].
  constructor; [done|]. by apply Forall_filter_keep.
Qed.

Lemma ids_kept_by_filter (P : MoodRow -> Prop) `{!forall x, Decision (P x)}
    (l : list MoodRow) :
  NoDup (mood_id <$> l) -> NoDup (mood_id <$> filter P l).
Proof.
  intros Hnd. refine (sublist_NoDup _ _ Hnd _). apply fmap_sublist, sublist_filter.
Qed.

Lemma insertMood_ids (u : userId) (m : jsstring) (now : Z) (d : Tables) :
  NoDup (mood_id <$> moods d) ->
  Forall (fun r => mood_id r <= moods_seq d) (moods d) ->
  NoDup (mood_id <$> moods (Stmt.insertMood u m now d)) /\
  Forall (fun r => mood_id r <= moods_seq (Stmt.insertMood u m now d))
         (moods (Stmt.insertMood u m now d)).
Proof.
  intros Hnd Hseq. simpl. split.
  - rewrite fmap_app. apply NoDup_app. split; [done|]. split; [|apply NoDup_singleton].
    intros i Hi Hi'. simpl in Hi'. apply list_elem_of_singleton in Hi'. subst i.
    apply list_elem_of_fmap in Hi as (r & Hr & Hin).
    rewrite Forall_forall in Hseq. specialize (Hseq r Hin). simpl in Hseq. lia.
  - apply Forall_app. split.
    + eapply Forall_impl; [exact Hseq|]. simpl. intros; lia.
    + repeat constructor. simpl. lia.
Qed.

Lemma moods_chrono_filter (times : list Z) (d : Tables) (P : MoodRow -> Prop)
    `{!forall x, Decision (P x)} :
  moods_chrono times d ->
  moods_chrono times {| messages := messages d; memories := memories d;
                        moods := filter P (moods d); moods_seq := moods_seq d |}.
Proof.
  intros [Hs Ht Hi Hu]. split; simpl.
  - by apply filter_strongly_sorted.
  - by apply Forall_filter_keep.
  - by apply Forall_filter_keep.
  - by apply ids_kept_by_filter.
Qed.

Lemma moods_chrono_ext (times : list Z) (d d' : Tables) :
  moods d' = moods d -> moods_seq d' = moods_seq d ->
  moods_chrono times d -> moods_chrono times d'.
Proof. intros E1 E2 [Hs Ht Hi Hu]. split; by rewrite ?E1, ?E2. Qed.

Lemma moods_chrono_later (times : list Z) (now : Z) (d : Tables) :
  moods_chrono times d -> moods_chrono (times ++ [now]) d.
Proof.
  intros [Hs Ht Hi Hu]. split; [done| |done|done].
  eapply Forall_impl; [exact Ht|]. simpl. intros r Hr.
  apply elem_of_app. by left.
Qed.

Lemma insertMood_chrono (times : list Z) (now : Z) (u : userId) (m : jsstring)
    (d : Tables) :
  Forall (fun t => t <= now) times ->
  moods_chrono times d -> moods_chrono (times ++ [now]) (Stmt.insertMood u m now d).
Proof.
  intros Hnow [Hs Ht Hi Hu]. split; simpl.
  4: by apply (insertMood_ids u m now d).
  - apply StronglySorted_app_2; [|done|repeat constructor].
    intros r1 r2 H1 H2. apply list_elem_of_singleton in H2. subst r2.
    unfold not_older. simpl.
    rewrite Forall_forall in Ht. rewrite Forall_forall in Hnow. by apply Hnow, Ht.
  - apply Forall_app. split.
    + eapply Forall_impl; [exact Ht|]. simpl. intros r Hr.
      apply elem_of_app. by left.
    + repeat constructor. simpl. apply elem_of_app. right.
      apply list_elem_of_here.
  - apply Forall_app. split.
    + eapply Forall_impl; [exact Hi|]. simpl. intros; lia.
    + repeat constructor. simpl. lia.
Qed.

Lemma step_chrono (times : list Z) (s : MemoryStore) (o : StoreOp) :
  StronglySorted Z.le (times ++ from_option (fun t => [t]) [] (op_now o)) ->
  moods_chrono times (disk s) ->
  moods_chrono (times ++ from_option (fun t => [t]) [] (op_now o)) (disk (step s o)).
Proof.
  intros Hmono Hd. unfold step, call.
  destruct o as [now u r c|now u f|now u m|u]; simpl in *.
  - apply moods_chrono_later. unfold Store.add, run.
    destruct (falsy_id u || falsy_string r), (conn s); simpl; try done.
    by apply (moods_chrono_ext _ (disk s)).
  - apply moods_chrono_later. unfold Store.addImportantFact, run.
    destruct (falsy_id u || falsy_string f), (conn s); simpl; try done.
    unfold Stmt.insertMemory. destruct (Stmt.conflicts u f (disk s)); [done|].
    by apply (moods_chrono_ext _ (disk s)).
  - unfold Store.addMood, run.
    destruct (falsy_id u || falsy_string m), (conn s); simpl;
      try by apply moods_chrono_later.
    apply (moods_chrono_filter _ (Stmt.insertMood u m now (disk s))).
    apply insertMood_chrono; [|done].
    apply Forall_forall. intros t Ht.
    eapply (StronglySorted_app_1_elem_of Z.le); [exact Hmono|exact Ht|].
    apply list_elem_of_here.
  - rewrite app_nil_r in *. unfold Store.clear, run.
    destruct (conn s); simpl; try done.
    destruct Hd as [Hs Ht Hi Hu]. split; simpl.
    + by apply filter_strongly_sorted.
    + by apply Forall_filter_keep.
    + by apply Forall_filter_keep.
    + by apply ids_kept_by_filter.
Qed.

Lemma run_ops_snoc (ops : list StoreOp) (o : StoreOp) (s : MemoryStore) :
  run_ops (ops ++ [o]) s = step (run_ops ops s) o.
Proof. unfold run_ops. by rewrite foldl_app. Qed.

Lemma omap_op_now_snoc (ops : list StoreOp) (o : StoreOp) :
  omap op_now (ops ++ [o]) = omap op_now ops ++ from_option (fun t => [t]) [] (op_now o).
Proof. rewrite omap_app. simpl. by destruct (op_now o). Qed.

Lemma run_ops_chrono (ops : list StoreOp) :
  clock_monotone ops -> moods_chrono (omap op_now ops) (disk (run_ops ops fresh_store)).
Proof.
  induction ops as [|o ops IH] using rev_ind; intros Hm.
  - split; simpl; constructor.
  - unfold clock_monotone in *. rewrite run_ops_snoc, omap_op_now_snoc in *.
    apply step_chrono; [done|]. apply IH.
    by apply StronglySorted_app_1_l in Hm.
Qed.

Lemma head_take_1 {A : Type} (l : list A) : head (take 1 l) = head l.
Proof. by destruct l. Qed.

(** On a table in time order [getMood] reads the user's last row. *)
Lemma getMood_chrono (u : userId) (d : Tables) :
  StronglySorted (not_older mood_created_at) (moods d) ->
  Stmt.getMood u d = last (mood_mood <$> moods_of u d).
Proof.
  intros Hs. unfold Stmt.getMood, sql_limit, order_by_desc. simpl.
  rewrite order_by_asc_id by (by apply filter_strongly_sorted).
  change (Z.to_nat 1) with 1%nat. rewrite drop_0.
  by rewrite fmap_take, head_take_1, fmap_reverse, head_reverse.
Qed.

Lemma elem_of_drop_in {A : Type} (x : A) (n : nat) (l : list A) :
  x ∈ drop n l -> x ∈ l.
Proof. intros H. rewrite <- (take_drop n l). apply elem_of_app. by right. Qed.

(** The ids the trim selects are ids of rows that were there before the
    insert, as long as the new row is the newest. *)
Lemma oldMoodIds_insertMood (u : userId) (m : jsstring) (now : Z) (d : Tables) :
  StronglySorted (not_older mood_created_at) (moods (Stmt.insertMood u m now d)) ->
  Stmt.oldMoodIds u (Stmt.insertMood u m now d) ⊆ mood_id <$> moods d.
Proof.
  intros Hs i. unfold Stmt.oldMoodIds, sql_limit, order_by_desc. simpl.
  rewrite order_by_asc_id by (by apply filter_strongly_sorted).
  unfold moods_of. simpl. rewrite filter_app, filter_cons, filter_nil. simpl.
  destruct (decide (id_text u = id_text u)); [|done].
  rewrite reverse_app. simpl.
  rewrite !list_elem_of_fmap. intros (r & -> & Hr). exists r. split; [done|].
  apply elem_of_drop_in in Hr. rewrite elem_of_reverse in Hr.
  by apply list_elem_of_filter in Hr as [_ Hr].
Qed.

Lemma addMood_newest (times : list Z) (now : Z) (u : userId) (m : jsstring)
    (s : MemoryStore) :
  conn s = Opened -> falsy_id u = false -> m <> [] ->
  Forall (fun t => t <= now) times -> moods_chrono times (disk s) ->
  last (mood_mood <$> moods_of u (disk (step s (OpAddMood now u m)))) = Some m.
Proof.
  intros Hc Hu Hm Hnow Hd. unfold step, call, Store.addMood, run.
  rewrite Hu, (proj2 (falsy_string_false m) Hm), Hc.
  simpl.
  pose proof (insertMood_chrono times now u m (disk s) Hnow Hd) as [Hs' _ _].
  pose proof (oldMoodIds_insertMood u m now (disk s) Hs') as Hold.
  unfold moods_of, Stmt.deleteOldMoods. simpl.
  rewrite !filter_app, !filter_cons, !filter_nil. cbn [mood_id].
  destruct (decide (moods_seq (disk s) + 1
                    ∉ Stmt.oldMoodIds u (Stmt.insertMood u m now (disk s)))) as [|Hin].
  - rewrite filter_cons, filter_nil. simpl.
    destruct (decide (id_text u = id_text u)); [|done].
    rewrite fmap_app. apply last_snoc.
  - exfalso. apply Hin. intros Hi. apply Hold in Hi.
    apply list_elem_of_fmap in Hi as (r & Hr & Hin').
    destruct Hd as [_ _ Hids]. rewrite Forall_forall in Hids.
    specialize (Hids r Hin'). simpl in Hids. lia.
Qed.

Lemma filter_all {A : Type} (P : A -> Prop) `{!forall x, Decision (P x)} (l : list A) :
  Forall P l -> filter P l = l.
Proof.
  induction 1 as [|x l Hx _ IH]; [done|].
  rewrite filter_cons. destruct (decide (P x)); [by rewrite IH|done].
Qed.

(** Deleting by id the first [k] of rows with distinct ids leaves the rest. *)
Lemma delete_oldest (k : nat) (l : list MoodRow) :
  NoDup (mood_id <$> l) ->
  filter (fun r => mood_id r ∉ mood_id <$> reverse (take k l)) l = drop k l.
Proof.
  intros Hnd.
  assert (Hids : forall i, i ∈ mood_id <$> reverse (take k l) <-> i ∈ mood_id <$> take k l)
    by (intros i; by rewrite fmap_reverse, elem_of_reverse).
  set (ids := mood_id <$> reverse (take k l)) in *.
  rewrite <- (take_drop k l), fmap_app in Hnd.
  apply NoDup_app in Hnd as (_ & Hdisj & _).
  rewrite <- (take_drop k l) at 1.
  rewrite filter_app, filter_nil_Forall, filter_all; [done| |].
  - apply Forall_forall. intros r Hr Hin. apply Hids in Hin.
    apply (Hdisj (mood_id r)); [done|]. apply list_elem_of_fmap. eauto.
  - apply Forall_forall. intros r Hr Hnot. apply Hnot, Hids.
    apply list_elem_of_fmap. eauto.
Qed.

(** With the clock running forwards, [addMood] leaves the user the last 50
    of the rows there are after the insert: the oldest are the ones evicted. *)
Lemma addMood_keeps_newest_50 (times : list Z) (now : Z) (u : userId) (m : jsstring)
    (s : MemoryStore) :
  conn s = Opened -> falsy_id u = false -> m <> [] ->
  Forall (fun t => t <= now) times -> moods_chrono times (disk s) ->
  moods_of u (disk (step s (OpAddMood now u m)))
  = slice_last 50 (moods_of u (Stmt.insertMood u m now (disk s))).
Proof.
  intros Hc Hu Hm Hnow Hd. unfold step, call, Store.addMood, run.
  rewrite Hu, (proj2 (falsy_string_false m) Hm), Hc.
  simpl.
  pose proof (insertMood_chrono times now u m (disk s) Hnow Hd) as [Hs' _ _ Hu'].
  set (d1 := Stmt.insertMood u m now (disk s)) in *.
  unfold moods_of at 1, Stmt.deleteOldMoods. simpl. rewrite filter_comm.
  fold (moods_of u d1).
  unfold Stmt.oldMoodIds, sql_limit, order_by_desc. simpl.
  rewrite order_by_asc_id by (by apply filter_strongly_sorted).
  rewrite drop_reverse. unfold slice_last.
  apply delete_oldest. by apply ids_kept_by_filter.
Qed.

(** C5: after any sequence of store calls a user has at most 50 moods; and
    while the clock never ran backwards, [getRecentMood] returns the mood of
    the user's last retained row in insertion order ([null] when there is
    none), and a call of [addMood] that passed validation leaves the user
    the newest 50 of the rows there are after its insert, so that
    [getRecentMood] then returns the mood just given. *)
Theorem addMood_retention (ops : list StoreOp) (u : userId) :
  let s := run_ops ops fresh_store in
  (length (moods_of u (disk s)) <= 50)%nat /\
  (clock_monotone ops ->
   Store.getRecentMood s u = Ok (last (mood_mood <$> moods_of u (disk s))) /\
   forall (before : list StoreOp) (now : Z) (m : jsstring),
     ops = before ++ [OpAddMood now u m] -> falsy_id u = false -> m <> [] ->
     moods_of u (disk s)
     = slice_last 50
         (moods_of u (Stmt.insertMood u m now (disk (run_ops before fresh_store)))) /\
     Store.getRecentMood s u = Ok (Some m)).
Proof.
  intros s. split.
  - apply (run_ops_moods_bounded ops fresh_store). intros v. simpl. lia.
  - intros Hmono.
    destruct (run_ops_ok ops fresh_store fresh_store_ok) as [Hc _]. fold s in Hc.
    pose proof (run_ops_chrono ops Hmono) as Hch. fold s in Hch.
    assert (Hget : Store.getRecentMood s u
                   = Ok (last (mood_mood <$> moods_of u (disk s)))).
    { unfold Store.getRecentMood, query. rewrite Hc.
      f_equal. apply getMood_chrono. by destruct Hch. }
    split; [done|].
    intros ops' now m -> Hu Hm. rewrite Hget.
    unfold s. rewrite run_ops_snoc.
    unfold clock_monotone in Hmono. rewrite omap_op_now_snoc in Hmono. simpl in Hmono.
    assert (Hopen : conn (run_ops ops' fresh_store) = Opened)
      by (by destruct (run_ops_ok ops' fresh_store fresh_store_ok)).
    assert (Hnow : Forall (fun t => t <= now) (omap op_now ops')).
    { apply Forall_forall. intros t Ht.
      eapply (StronglySorted_app_1_elem_of Z.le); [exact Hmono|exact Ht|].
      apply list_elem_of_here. }
    assert (Hprev : moods_chrono (omap op_now ops') (disk (run_ops ops' fresh_store))).
    { apply run_ops_chrono. by apply StronglySorted_app_1_l in Hmono. }
    split.
    + by apply (addMood_keeps_newest_50 (omap op_now ops')).
    + f_equal. by apply (addMood_newest (omap op_now ops')).
Qed.

Lemma addMood_retention_witness :
  clock_monotone [OpAddMood 1 (IdNum 7) (lit "calm"); OpAddMood 2 (IdNum 7) (lit "happy")] /\
  Store.getRecentMood
    (run_ops [OpAddMood 1 (IdNum 7) (lit "calm"); OpAddMood 2 (IdNum 7) (lit "happy")]
             fresh_store) (IdNum 7)
  = Ok (Some (lit "happy")).
Proof.
  assert (Hm : clock_monotone
                 [OpAddMood 1 (IdNum 7) (lit "calm"); OpAddMood 2 (IdNum 7) (lit "happy")]).
  { unfold clock_monotone. simpl. repeat constructor. lia. }
  split; [exact Hm|].
  destruct (addMood_retention
              [OpAddMood 1 (IdNum 7) (lit "calm"); OpAddMood 2 (IdNum 7) (lit "happy")]
              (IdNum 7))
    as [_ Hrecent].
  destruct (Hrecent Hm) as [_ Hlast].
  apply (Hlast [OpAddMood 1 (IdNum 7) (lit "calm")] 2 (lit "happy"));
    [reflexivity | reflexivity | discriminate].
Defined.

(** C5, as it was stated without the clock: [addMood] with the time 5 and
    then with the time 3, as when the clock of the machine is set back
    between the two calls. Both rows are retained, the mood inserted last is
    the second one, and [getRecentMood] returns the first. *)
Lemma addMood_clock_set_back :
  let ops := [OpAddMood 5 (IdNum 7) (lit "calm"); OpAddMood 3 (IdNum 7) (lit "happy")] in
  let s := run_ops ops fresh_store in
  last (mood_mood <$> moods_of (IdNum 7) (disk s)) = Some (lit "happy") /\
  Store.getRecentMood s (IdNum 7) = Ok (Some (lit "calm")) /\
  ~ (forall (ops : list StoreOp) (u : userId),
       Store.getRecentMood (run_ops ops fresh_store) u
       = Ok (last (mood_mood <$> moods_of u (disk (run_ops ops fresh_store))))).
Proof.
  split; [vm_compute; reflexivity|]. split; [vm_compute; reflexivity|].
  intros H.
  specialize (H [OpAddMood 5 (IdNum 7) (lit "calm"); OpAddMood 3 (IdNum 7) (lit "happy")]
                (IdNum 7)).
  vm_compute in H. discriminate.
Qed.

(** ** clear: the other users' records *)

Lemma filter_other {A : Type} (key : A -> jsstring) (t t' : jsstring) (l : list A) :
  t <> t' ->
  filter (fun r => key r = t') (filter (fun r => key r <> t) l)
  = filter (fun r => key r = t') l.
Proof.
  intros Huv. induction l as [|x l IH]; [done|].
  rewrite !filter_cons.
  destruct (decide (key x <> t)) as [Hx|Hx], (decide (key x = t')) as [Hv|Hv];
    rewrite ?filter_cons; repeat case_decide; try congruence.
  exfalso. apply Hx. congruence.
Qed.

(** [clear(u)] leaves the rows of every user [v] whose id is stored as
    another text than that of [u] as they were, in all three tables, and
    every read for [v] returns what it returned before. *)
Theorem clear_frame (s : MemoryStore) (u v : userId) :
  id_text u <> id_text v ->
  let s' := settle (Store.clear u s) s in
  messages_of v (disk s') = messages_of v (disk s) /\
  memories_of v (disk s') = memories_of v (disk s) /\
  moods_of v (disk s') = moods_of v (disk s) /\
  (forall limit, read_recent (reads s' v) limit = read_recent (reads s v) limit) /\
  read_all (reads s' v) = read_all (reads s v) /\
  read_facts (reads s' v) = read_facts (reads s v) /\
  read_mood (reads s' v) = read_mood (reads s v) /\
  read_count (reads s' v) = read_count (reads s v).
Proof.
  intros Huv s'.
  assert (Hc : conn s' = conn s).
  { unfold s', Store.clear, run. by destruct (conn s) eqn:E. }
  assert (H1 : messages_of v (disk s') = messages_of v (disk s)).
  { unfold s', Store.clear, run. destruct (conn s); simpl; try done.
    by apply (filter_other msg_user_id). }
  assert (H2 : memories_of v (disk s') = memories_of v (disk s)).
  { unfold s', Store.clear, run. destruct (conn s); simpl; try done.
    by apply (filter_other mem_user_id). }
  assert (H3 : moods_of v (disk s') = moods_of v (disk s)).
  { unfold s', Store.clear, run. destruct (conn s); simpl; try done.
    by apply (filter_other mood_user_id). }
  repeat split; try done; simpl.
  - intros limit. unfold Store.getRecent, query. rewrite Hc.
    unfold Stmt.getRecentMessages, Stmt.recentRows. by rewrite H1.
  - unfold Store.getAll, query. rewrite Hc.
    unfold Stmt.getAllMessages. by rewrite H1.
  - unfold Store.getImportantFacts, query. rewrite Hc.
    unfold Stmt.getMemories. by rewrite H2.
  - unfold Store.getRecentMood, query. rewrite Hc.
    unfold Stmt.getMood. by rewrite H3.
  - unfold Store.getChatCount, query. rewrite Hc.
    unfold Stmt.getChatCount. by rewrite H1.
Qed.

Lemma clear_frame_witness :
  read_facts (reads (settle (Store.clear (IdNum 7)
     (run_ops [OpAddImportantFact 1 (IdNum 7) (lit "likes cats");
               OpAddImportantFact 2 (IdNum 8) (lit "plays chess")] fresh_store))
     (run_ops [OpAddImportantFact 1 (IdNum 7) (lit "likes cats");
               OpAddImportantFact 2 (IdNum 8) (lit "plays chess")] fresh_store)) (IdNum 8))
  = Ok [lit "plays chess"].
Proof.
  pose proof (clear_frame
    (run_ops [OpAddImportantFact 1 (IdNum 7) (lit "likes cats");
              OpAddImportantFact 2 (IdNum 8) (lit "plays chess")] fresh_store)
    (IdNum 7) (IdNum 8)
    ltac:(vm_compute; discriminate)) as (_ & _ & _ & _ & _ & Hfacts & _).
  rewrite Hfacts. vm_compute. reflexivity.
Defined.

(** Two chats whose ids are numbers below 10^15 in magnitude are two users
    of the store: their ids are stored as two texts. *)
Theorem chat_ids_told_apart (n m : Z) :
  Z.abs n < 10 ^ 15 -> Z.abs m < 10 ^ 15 -> n <> m ->
  id_text (IdNum n) <> id_text (IdNum m).
Proof. intros Hn Hm Hnm E. simpl in E. by apply real_to_text_inj in E. Qed.

Lemma chat_ids_told_apart_witness :
  bool_decide (id_text (IdNum 7) = id_text (IdNum (-1001234567890))) = false.
Proof. apply bool_decide_eq_false_2, chat_ids_told_apart; lia. Defined.

(** C9 (where the code fails): the ids 1000000000000001 and
    1000000000000002 are bound as doubles and stored in the TEXT column with
    15 significant digits, both as ['1.0e+15']. What the second user stored
    is read back for the first one too, and [clear] for the first user
    deletes the messages, the facts and the moods of the second. *)
Theorem clear_reaches_a_second_user :
  let u := IdNum 1000000000000001 in
  let v := IdNum 1000000000000002 in
  let s := run_ops [OpAdd 1 v role_user (lit "hi");
                    OpAddImportantFact 2 v (lit "likes cats");
                    OpAddMood 3 v (lit "happy")] fresh_store in
  let s' := settle (Store.clear u s) s in
  u <> v /\
  id_text u = lit "1.0e+15" /\ id_text v = lit "1.0e+15" /\
  read_facts (reads s u) = Ok [lit "likes cats"] /\
  read_count (reads s v) = Ok 1 /\
  read_facts (reads s v) = Ok [lit "likes cats"] /\
  read_mood (reads s v) = Ok (Some (lit "happy")) /\
  read_count (reads s' v) = Ok 0 /\
  read_facts (reads s' v) = Ok [] /\
  read_mood (reads s' v) = Ok None /\
  disk s' = {| messages := []; memories := []; moods := []; moods_seq := 1 |}.
Proof.
  cbv zeta. split; [discriminate|]. vm_compute. repeat split.
Qed.

(** ** The memoising revision against the plain ones *)

Lemma NoDup_fmap_eq {A B : Type} (f : A -> B) (l : list A) (x y : A) :
  NoDup (f <$> l) -> x ∈ l -> y ∈ l -> f x = f y -> x = y.
Proof.
  induction l as [|a l IH]; [by intros _ ?%elem_of_nil|].
  rewrite fmap_cons, NoDup_cons, !elem_of_cons.
  intros [Ha Hl] [->|Hx] [->|Hy] E; try done.
  - exfalso. apply Ha. rewrite E. apply list_elem_of_fmap. eauto.
  - exfalso. apply Ha. rewrite <- E. apply list_elem_of_fmap. eauto.
  - by apply IH.
Qed.

Lemma filter_ext_in {A : Type} (P Q : A -> Prop)
    `{!forall x, Decision (P x)} `{!forall x, Decision (Q x)} (l : list A) :
  (forall x, x ∈ l -> P x -> Q x) -> filter P (filter Q l) = filter P l.
Proof.
  induction l as [|a l IH]; intros Hall; [done|].
  rewrite !filter_cons.
  assert (IH' : filter P (filter Q l) = filter P l).
  { apply IH. intros x Hx. apply Hall. by right. }
  destruct (decide (P a)) as [HP|HP], (decide (Q a)) as [HQ|HQ];
    rewrite ?filter_cons; repeat case_decide; try done; try by rewrite IH'.
  exfalso. apply HQ, Hall; [by left|done].
Qed.

(** With unique ids the trim of [u]'s moods leaves the rows of [v] alone. *)
Lemma addMood_other (u v : userId) (m : jsstring) (now : Z) (d : Tables) :
  id_text u <> id_text v ->
  NoDup (mood_id <$> moods d) ->
  Forall (fun r => mood_id r <= moods_seq d) (moods d) ->
  moods_of v (Stmt.deleteOldMoods u (Stmt.insertMood u m now d)) = moods_of v d.
Proof.
  intros Huv Hnd Hseq. unfold moods_of at 1. unfold Stmt.deleteOldMoods. simpl.
  set (d1 := Stmt.insertMood u m now d).
  assert (Hnd1 : NoDup (mood_id <$> moods d1)).
  { unfold d1. simpl. rewrite fmap_app. apply NoDup_app. split; [done|]. split.
    - intros i Hi Hi'. simpl in Hi'. apply list_elem_of_singleton in Hi'. subst i.
      apply list_elem_of_fmap in Hi as (r & Hr & Hin).
      rewrite Forall_forall in Hseq. specialize (Hseq r Hin). simpl in Hseq. lia.
    - apply NoDup_singleton. }
  rewrite filter_ext_in.
  - unfold d1. simpl. rewrite filter_app, filter_cons, filter_nil. simpl.
    destruct (decide (id_text u = id_text v)); [done|]. by rewrite app_nil_r.
  - intros r Hr Hv Hin. unfold Stmt.oldMoodIds, sql_limit in Hin. simpl in Hin.
    apply list_elem_of_fmap in Hin as (r' & Hid & Hr').
    apply elem_of_drop_in in Hr'.
    rewrite (order_by_desc_perm mood_created_at (moods_of u d1)) in Hr'.
    apply list_elem_of_filter in Hr' as [Hu' Hr'].
    assert (r = r') by (by apply (NoDup_fmap_eq mood_id (moods d1))).
    subst r'. congruence.
Qed.

Lemma insertMemory_other (u v : userId) (f : jsstring) (now : Z) (d : Tables) :
  id_text u <> id_text v ->
  Stmt.getMemories v (Stmt.insertMemory u f now d) = Stmt.getMemories v d.
Proof.
  intros Huv. unfold Stmt.getMemories, memories_of, Stmt.insertMemory.
  destruct (Stmt.conflicts u f d); [done|]. simpl.
  rewrite filter_app, filter_cons, filter_nil. simpl.
  destruct (decide (id_text u = id_text v)); [done|]. by rewrite app_nil_r.
Qed.

(** *** Where no two rows carry the same time *)

Section SortedByKey.
Context {A : Type} (key : A -> Z).

Lemma keys_perm_eq (l1 l2 : list A) :
  NoDup (key <$> l1) -> l1 ≡ₚ l2 -> key <$> l1 = key <$> l2 -> l1 = l2.
Proof.
  revert l2. induction l1 as [|x l1 IH]; intros l2 Hnd Hp Hk.
  - by destruct l2.
  - destruct l2 as [|y l2]; [done|]. simpl in Hk. injection Hk as Hxy Hk.
    assert (x = y).
    { apply (NoDup_fmap_eq key (x :: l1)); [done|by left| |done].
      rewrite Hp. by left. }
    subst y. f_equal. apply IH; [|by apply Permutation_cons_inv in Hp|done].
    by apply NoDup_cons in Hnd as [_ ?].
Qed.

(** The order by time of rows with distinct times is one order. *)
Lemma sorted_perm_eq (l1 l2 : list A) :
  NoDup (key <$> l1) -> l1 ≡ₚ l2 ->
  StronglySorted (not_older key) l1 -> StronglySorted (not_older key) l2 -> l1 = l2.
Proof.
  intros Hnd Hp H1 H2. apply keys_perm_eq; [done|done|].
  apply (StronglySorted_unique Z.le).
  - by apply (StronglySorted_fmap key (not_older key)).
  - by apply (StronglySorted_fmap key (not_older key)).
  - by apply fmap_Permutation.
Qed.

End SortedByKey.

Lemma strongly_sorted_reverse {A : Type} (R : relation A) (l : list A) :
  StronglySorted R l -> StronglySorted (flip R) (reverse l).
Proof.
  induction 1 as [|x l Hl IH Hx]; [constructor|].
  rewrite reverse_cons. apply StronglySorted_app_2; [|done|repeat constructor].
  intros a b Ha Hb. apply list_elem_of_singleton in Hb. subst b.
  rewrite elem_of_reverse in Ha. rewrite Forall_forall in Hx. unfold flip. by apply Hx.
Qed.

Lemma NoDup_opposite {A : Type} (key : A -> Z) (l : list A) :
  NoDup (key <$> l) -> NoDup ((fun r => - key r) <$> l).
Proof.
  intros H. change (fun r => - key r) with (Z.opp ∘ key).
  rewrite list_fmap_compose. apply NoDup_fmap_2; [|done].
  intros a b E. lia.
Qed.

Lemma NoDup_keys_filter {A B : Type} (key : A -> B) (P : A -> Prop)
    `{!forall x, Decision (P x)} (l : list A) :
  NoDup (key <$> l) -> NoDup (key <$> filter P l).
Proof.
  intros Hnd. refine (sublist_NoDup _ _ Hnd _). apply fmap_sublist, sublist_filter.
Qed.

(** Rows that differ in user or time, read for one user, differ in time. *)
Lemma times_of_unique {A : Type} (user : A -> jsstring) (time : A -> Z) (t : jsstring)
    (l : list A) :
  NoDup ((fun r => (user r, time r)) <$> l) ->
  NoDup (time <$> filter (fun r => user r = t) l).
Proof.
  induction l as [|r l IH]; simpl; [constructor|].
  rewrite NoDup_cons. intros [Hr Hl]. rewrite filter_cons.
  destruct (decide (user r = t)) as [Hu|]; [|by auto].
  rewrite fmap_cons. apply NoDup_cons. split; [|by auto].
  intros Hin. apply Hr. apply list_elem_of_fmap in Hin as (r' & Ht & Hr').
  apply list_elem_of_filter in Hr' as [Hu' Hr'].
  apply list_elem_of_fmap. exists r'. split; [|done].
  by rewrite Ht, Hu, Hu'.
Qed.

(** The sorter returns the rows in one order whatever order they were
    scanned in. *)
Lemma sorter_desc_scan {A : Type} (key : A -> Z) (l1 l2 : list A) :
  NoDup (key <$> l1) -> l1 ≡ₚ l2 -> sorter_desc key l1 = sorter_desc key l2.
Proof.
  intros Hnd Hp. apply (sorted_perm_eq (fun r => - key r)).
  - rewrite (sorter_desc_perm key l1). by apply NoDup_opposite.
  - by rewrite !sorter_desc_perm.
  - apply order_by_asc_sorted.
  - apply order_by_asc_sorted.
Qed.

(** And that order is the order of the index, backwards. *)
Lemma sorter_desc_index {A : Type} (key : A -> Z) (l : list A) :
  NoDup (key <$> l) -> sorter_desc key l = order_by_desc key l.
Proof.
  intros Hnd. apply (sorted_perm_eq (fun r => - key r)).
  - rewrite (sorter_desc_perm key l). by apply NoDup_opposite.
  - by rewrite sorter_desc_perm, order_by_desc_perm.
  - apply order_by_asc_sorted.
  - unfold order_by_desc. rewrite <- (list_fmap_id (reverse _)).
    apply (StronglySorted_fmap id (flip (not_older key))).
    + unfold flip, not_older. simpl. intros; lia.
    + apply strongly_sorted_reverse, order_by_asc_sorted.
Qed.

Lemma collation_insert_perm {A : Type} (text : A -> jsstring) (x : A) (l : list A) :
  collation_insert text x l ≡ₚ x :: l.
Proof.
  induction l as [|y l IH]; simpl; [done|].
  destruct (text_leb (text x) (text y)); [done|].
  rewrite IH. apply Permutation_swap.
Qed.

Lemma by_text_perm {A : Type} (text : A -> jsstring) (l : list A) : by_text text l ≡ₚ l.
Proof.
  induction l as [|x l IH]; simpl; [done|].
  rewrite collation_insert_perm. by rewrite IH.
Qed.

(** While no two facts of one user carry the same time, the statement of
    the first revision returns what the later one returns. *)
Lemma scan_getMemories (u : userId) (d : Tables) :
  NoDup (mem_stamp <$> memories d) -> Scan.getMemories u d = Stmt.getMemories u d.
Proof.
  intros Hnd. unfold Scan.getMemories, Stmt.getMemories. f_equal.
  symmetry. apply sorter_desc_scan.
  - by apply times_of_unique.
  - by rewrite by_text_perm.
Qed.

Lemma scan_getMood (u : userId) (d : Tables) :
  NoDup (mood_stamp <$> moods d) -> Scan.getMood u d = Stmt.getMood u d.
Proof.
  intros Hnd. unfold Scan.getMood, Stmt.getMood.
  rewrite sorter_desc_index; [done|]. by apply times_of_unique.
Qed.

Lemma scan_deleteOldMoods (u : userId) (d : Tables) :
  NoDup (mood_stamp <$> moods d) -> Scan.deleteOldMoods u d = Stmt.deleteOldMoods u d.
Proof.
  intros Hnd. unfold Scan.deleteOldMoods, Stmt.deleteOldMoods.
  unfold Scan.oldMoodIds, Stmt.oldMoodIds.
  rewrite sorter_desc_index; [done|]. by apply times_of_unique.
Qed.

(** *** What a statement reads of the tables *)

Lemma insertMemory_reads (u : userId) (f : jsstring) (now : Z) (d d' : Tables) :
  memories d = memories d' ->
  memories (Stmt.insertMemory u f now d) = memories (Stmt.insertMemory u f now d').
Proof.
  intros E. unfold Stmt.insertMemory, Stmt.conflicts. rewrite E.
  destruct (bool_decide _); simpl; by rewrite ?E.
Qed.

Lemma insertMemory_moods (u : userId) (f : jsstring) (now : Z) (d : Tables) :
  moods (Stmt.insertMemory u f now d) = moods d /\
  moods_seq (Stmt.insertMemory u f now d) = moods_seq d.
Proof. unfold Stmt.insertMemory. by destruct (Stmt.conflicts u f d). Qed.

Lemma insertMemory_times (u : userId) (f : jsstring) (now : Z) (d : Tables) :
  mem_stamp <$> memories (Stmt.insertMemory u f now d)
  ⊆ (mem_stamp <$> memories d) ++ [(id_text u, now)].
Proof.
  unfold Stmt.insertMemory. destruct (Stmt.conflicts u f d); simpl.
  - intros t Ht. apply elem_of_app. by left.
  - by rewrite fmap_app.
Qed.

Lemma insertMemory_fresh (u : userId) (f : jsstring) (now : Z) (d : Tables) :
  (id_text u, now) ∉ mem_stamp <$> memories d ->
  NoDup (mem_stamp <$> memories d) ->
  NoDup (mem_stamp <$> memories (Stmt.insertMemory u f now d)).
Proof.
  intros Hnow Hnd. unfold Stmt.insertMemory. destruct (Stmt.conflicts u f d); [done|].
  simpl. rewrite fmap_app. apply NoDup_app. split; [done|]. split.
  - intros t Ht Ht'. simpl in Ht'. apply list_elem_of_singleton in Ht'. by subst t.
  - apply NoDup_singleton.
Qed.

Lemma getMood_reads (u : userId) (d d' : Tables) :
  moods d = moods d' -> Stmt.getMood u d = Stmt.getMood u d'.
Proof. intros E. unfold Stmt.getMood, moods_of. by rewrite E. Qed.

Lemma getMemories_reads (u : userId) (d d' : Tables) :
  memories d = memories d' -> Stmt.getMemories u d = Stmt.getMemories u d'.
Proof. intros E. unfold Stmt.getMemories, memories_of. by rewrite E. Qed.

Lemma deleteOldMoods_reads (u : userId) (d d' : Tables) :
  moods d = moods d' ->
  moods (Stmt.deleteOldMoods u d) = moods (Stmt.deleteOldMoods u d').
Proof.
  intros E. unfold Stmt.deleteOldMoods, Stmt.oldMoodIds, moods_of. simpl. by rewrite E.
Qed.

(** The validated store on a call it accepts, with the handle open. *)
Lemma validated_addImportantFact (now : Z) (u : userId) (f : jsstring) (s : MemoryStore) :
  conn s = Opened -> memo_accepted (CallAddImportantFact now u f) = true ->
  validated_call (CallAddImportantFact now u f) s
  = (SeenDone, {| conn := Opened; disk := Stmt.insertMemory u f now (disk s) |}).
Proof.
  intros Hc Hacc. simpl in *. apply negb_true_iff in Hacc.
  unfold Store.addImportantFact, run. by rewrite Hacc, Hc.
Qed.

Lemma validated_addMood (now : Z) (u : userId) (m : jsstring) (s : MemoryStore) :
  conn s = Opened -> memo_accepted (CallAddMood now u m) = true ->
  validated_call (CallAddMood now u m) s
  = (SeenDone, {| conn := Opened;
                  disk := Stmt.deleteOldMoods u (Stmt.insertMood u m now (disk s)) |}).
Proof.
  intros Hc Hacc. simpl in *. apply negb_true_iff in Hacc.
  unfold Store.addMood, run. by rewrite Hacc, Hc.
Qed.

Lemma validated_clear (u : userId) (s : MemoryStore) :
  conn s = Opened ->
  validated_call (CallClear u) s
  = (SeenDone, {| conn := Opened;
                  disk := Stmt.clearMoods u (Stmt.clearMemories u
                            (Stmt.clearMessages u (disk s))) |}).
Proof. intros Hc. simpl. unfold Store.clear, run. by rewrite Hc. Qed.

(** The times in the tables after a call: those before it and its own. *)
Lemma validated_call_times (c : StoreCall) (s : MemoryStore) :
  mem_stamp <$> memories (disk (snd (validated_call c s)))
  ⊆ (mem_stamp <$> memories (disk s)) ++ from_option (fun t => [t]) [] (fact_time c) /\
  mood_stamp <$> moods (disk (snd (validated_call c s)))
  ⊆ (mood_stamp <$> moods (disk s)) ++ from_option (fun t => [t]) [] (mood_time c).
Proof.
  destruct c as [now u r c|now u f|now u m|u|u|u|u limit|u|u|]; simpl;
    rewrite ?app_nil_r; try done.
  - unfold Store.add, run.
    by destruct (falsy_id u || falsy_string r), (conn s).
  - unfold Store.addImportantFact, run.
    destruct (falsy_id u || falsy_string f), (conn s); simpl;
      try (split; [|done]; intros t Ht; apply elem_of_app; by left).
    split; [apply insertMemory_times|]. by rewrite (proj1 (insertMemory_moods _ _ _ _)).
  - unfold Store.addMood, run.
    destruct (falsy_id u || falsy_string m), (conn s); simpl;
      try (split; [done|]; intros t Ht; apply elem_of_app; by left).
    split; [done|]. intros t Ht.
    apply list_elem_of_fmap in Ht as (r & -> & Hr).
    apply list_elem_of_filter in Hr as [_ Hr]. apply elem_of_app.
    apply elem_of_app in Hr as [Hr|Hr].
    + left. apply list_elem_of_fmap. eauto.
    + right. apply list_elem_of_singleton in Hr. subst r. apply list_elem_of_here.
  - unfold Store.clear, run. destruct (conn s); simpl; try done.
    split; intros t Ht; apply list_elem_of_fmap in Ht as (r & -> & Hr);
      apply list_elem_of_filter in Hr as [_ Hr]; apply list_elem_of_fmap; eauto.
Qed.

(** *** One call on both stores *)

Lemma told_apart_other (ids : list userId) (u v : userId) :
  told_apart ids -> u ∈ ids -> v ∈ ids -> u <> v -> id_text u <> id_text v.
Proof. intros Hids Hu Hv Huv E. by apply Huv, Hids. Qed.

(** One call keeps the two stores coherent, and a memoised read returns the
    same to both callers. *)
Lemma cached_call_sim (ids : list userId) (c : StoreCall) (cs : CachedStore)
    (s : MemoryStore) :
  told_apart ids -> coherent ids cs s -> memo_accepted c = true ->
  (forall u, memo_user c = Some u -> u ∈ ids) ->
  (forall t, fact_time c = Some t -> t ∉ mem_stamp <$> memories (disk s)) ->
  (forall t, mood_time c = Some t -> t ∉ mood_stamp <$> moods (disk s)) ->
  (is_memo_read c = true -> fst (cached_call c cs) = fst (validated_call c s)) /\
  coherent ids (snd (cached_call c cs)) (snd (validated_call c s)).
Proof.
  intros Hids [[Hcc Hc] Hmem Hmoods Hq Hf Hm Hnd Hseq Hft Hmt] Hacc Hin Hfresh Hfresh'.
  destruct c as [now u r c|now u f|now u m|u|u|u|u limit|u|u|].
  - split; [done|]. simpl. unfold Cached.add, Cached.run, Store.add, run.
    rewrite Hcc, Hc. by destruct (falsy_id u || falsy_string r); simpl; split.
  - split; [done|]. rewrite validated_addImportantFact by done.
    simpl. unfold Cached.addImportantFact, Cached.run. rewrite Hcc. simpl.
    assert (Hu : u ∈ ids) by (by apply Hin).
    destruct (insertMemory_moods u f now (disk s)) as [E1 E2].
    destruct (insertMemory_moods u f now (c_disk cs)) as [E3 E4].
    split; simpl; rewrite ?E1, ?E2, ?E3, ?E4; try done.
    + by apply insertMemory_reads.
    + intros v facts Hv. apply lookup_delete_Some in Hv as [Huv Hv].
      destruct (Hf v facts Hv) as [Hvin Hfacts]. split; [done|].
      rewrite insertMemory_other; [done|]. by apply (told_apart_other ids).
    + intros v m' Hv. destruct (Hm v m' Hv) as [Hvin Hmood]. split; [done|].
      rewrite <- Hmood. by apply getMood_reads.
    + apply insertMemory_fresh; [|done]. by apply Hfresh.
  - split; [done|]. rewrite validated_addMood by done.
    simpl. unfold Cached.addMood, Cached.run. rewrite Hcc. simpl.
    assert (Hu : u ∈ ids) by (by apply Hin).
    destruct (insertMood_ids u m now (disk s) Hnd Hseq) as [Hnd1 Hseq1].
    assert (Hmt1 : NoDup (mood_stamp <$> moods (Stmt.insertMood u m now (disk s)))).
    { simpl. rewrite fmap_app. apply NoDup_app. split; [done|]. split.
      - intros t Ht Ht'. simpl in Ht'. apply list_elem_of_singleton in Ht'. subst t.
        by apply (Hfresh' (id_text u, now)).
      - apply NoDup_singleton. }
    assert (Hsame : moods (Stmt.insertMood u m now (c_disk cs))
                    = moods (Stmt.insertMood u m now (disk s)))
      by (simpl; by rewrite Hmoods, Hq).
    split; cbn [c_conn c_disk importantCache moodCache conn disk].
    + done.
    + simpl. done.
    + rewrite scan_deleteOldMoods by (by rewrite Hsame).
      by apply deleteOldMoods_reads.
    + simpl. by rewrite Hq.
    + intros v facts Hv. destruct (Hf v facts Hv) as [Hvin Hfacts]. split; [done|].
      rewrite <- Hfacts. by apply getMemories_reads.
    + intros v m' Hv. apply lookup_delete_Some in Hv as [Huv Hv].
      destruct (Hm v m' Hv) as [Hvin Hmood]. split; [done|].
      unfold Stmt.getMood.
      rewrite (addMood_other u v m now (disk s)); [done| |done|done].
      by apply (told_apart_other ids).
    + by apply ids_kept_by_filter.
    + by apply Forall_filter_keep.
    + done.
    + by apply NoDup_keys_filter.
  - split; [done|]. rewrite validated_clear by done.
    simpl. unfold Cached.clear, Cached.run. rewrite Hcc. simpl.
    assert (Hu : u ∈ ids) by (by apply Hin).
    split; simpl; try done.
    + by rewrite Hmem.
    + by rewrite Hmoods.
    + intros v facts Hv. apply lookup_delete_Some in Hv as [Huv Hv].
      destruct (Hf v facts Hv) as [Hvin Hfacts]. split; [done|].
      unfold Stmt.getMemories, memories_of. simpl.
      rewrite (filter_other mem_user_id); [done|]. by apply (told_apart_other ids).
    + intros v m' Hv. apply lookup_delete_Some in Hv as [Huv Hv].
      destruct (Hm v m' Hv) as [Hvin Hmood]. split; [done|].
      unfold Stmt.getMood, moods_of. simpl.
      rewrite (filter_other mood_user_id); [done|]. by apply (told_apart_other ids).
    + by apply ids_kept_by_filter.
    + by apply Forall_filter_keep.
    + by apply NoDup_keys_filter.
    + by apply NoDup_keys_filter.
  - assert (Hu : u ∈ ids) by (by apply Hin).
    assert (Hscan : Scan.getMemories u (c_disk cs) = Stmt.getMemories u (disk s)).
    { rewrite scan_getMemories by (by rewrite Hmem). by apply getMemories_reads. }
    simpl. unfold Cached.getImportantFacts, Cached.query, Store.getImportantFacts, query.
    rewrite Hcc, Hc.
    destruct (importantCache cs !! u) as [facts|] eqn:E; simpl.
    + split; [intros _; by rewrite (proj2 (Hf u facts E))|]. by split.
    + rewrite Hscan. split; [done|]. split; simpl; try done.
      intros v facts Hv. apply lookup_insert_Some in Hv as [[<- <-]|[Huv Hv]]; [done|].
      by apply Hf.
  - assert (Hu : u ∈ ids) by (by apply Hin).
    assert (Hscan : Scan.getMood u (c_disk cs) = Stmt.getMood u (disk s)).
    { rewrite scan_getMood by (by rewrite Hmoods). by apply getMood_reads. }
    simpl. unfold Cached.getRecentMood, Cached.query, Store.getRecentMood, query.
    rewrite Hcc, Hc.
    destruct (moodCache cs !! u) as [m|] eqn:E; simpl.
    + split; [intros _; by rewrite (proj2 (Hm u m E))|]. by split.
    + rewrite Hscan. destruct (Stmt.getMood u (disk s)) as [m|] eqn:E'; simpl.
      * split; [done|]. split; simpl; try done.
        intros v m' Hv. apply lookup_insert_Some in Hv as [[<- <-]|[Huv Hv]]; [done|].
        by apply Hm.
      * split; [done|]. by split.
  - split; [done|]. by split.
  - split; [done|]. by split.
  - split; [done|]. by split.
  - split; [done|]. by split.
Qed.

Lemma session_sim (ids : list userId) (calls : list StoreCall) (cs : CachedStore)
    (s : MemoryStore) :
  told_apart ids -> coherent ids cs s ->
  forallb memo_accepted calls = true ->
  (forall u, u ∈ omap memo_user calls -> u ∈ ids) ->
  NoDup (omap fact_time calls) -> NoDup (omap mood_time calls) ->
  (forall t, t ∈ omap fact_time calls -> t ∉ mem_stamp <$> memories (disk s)) ->
  (forall t, t ∈ omap mood_time calls -> t ∉ mood_stamp <$> moods (disk s)) ->
  memo_reads calls (session cached_call calls cs)
  = memo_reads calls (session validated_call calls s).
Proof.
  intros Hids. revert cs s.
  induction calls as [|c calls IH]; intros cs s Hcoh Hacc Hin Hft Hmt Hfresh Hfresh';
    simpl; [done|].
  simpl in Hacc. apply andb_true_iff in Hacc as [Hc Hrest].
  destruct (validated_call_times c s) as [Hfacts Hmoods].
  destruct (cached_call_sim ids c cs s Hids Hcoh Hc) as [Hseen Hnext].
  { intros u Hu. apply Hin. simpl. rewrite Hu. by left. }
  { intros t Ht. apply Hfresh. simpl. rewrite Ht. by left. }
  { intros t Ht. apply Hfresh'. simpl. rewrite Ht. by left. }
  destruct (cached_call c cs) as [o1 cs'], (validated_call c s) as [o2 s'].
  simpl in *.
  assert (Hgo : memo_reads calls (session cached_call calls cs')
                = memo_reads calls (session validated_call calls s')).
  { apply IH; try done.
    - intros u Hu. apply Hin. destruct (memo_user c); [by right|done].
    - destruct (fact_time c); [by apply NoDup_cons in Hft as [_ ?]|done].
    - destruct (mood_time c); [by apply NoDup_cons in Hmt as [_ ?]|done].
    - intros t Ht Hin'. apply Hfacts in Hin'. apply elem_of_app in Hin' as [Hold|Hnew].
      + apply (Hfresh t); [|done]. destruct (fact_time c); [by right|done].
      + destruct (fact_time c) as [t'|]; simpl in Hnew; [|by apply elem_of_nil in Hnew].
        apply list_elem_of_singleton in Hnew. subst t'.
        by apply NoDup_cons in Hft as [? _].
    - intros t Ht Hin'. apply Hmoods in Hin'. apply elem_of_app in Hin' as [Hold|Hnew].
      + apply (Hfresh' t); [|done]. destruct (mood_time c); [by right|done].
      + destruct (mood_time c) as [t'|]; simpl in Hnew; [|by apply elem_of_nil in Hnew].
        apply list_elem_of_singleton in Hnew. subst t'.
        by apply NoDup_cons in Hmt as [? _]. }
  rewrite Hgo. destruct (is_memo_read c); [|done]. by rewrite Hseen.
Qed.

Lemma coherent_init (ids : list userId) :
  coherent ids (Cached.init (Cached.new empty_tables)) fresh_store.
Proof. split; simpl; try done; constructor. Qed.

(** C10, as it holds: over every sequence of calls on a new store in which
    every fact and every mood is stored with arguments the validated
    revision accepts, no two ids of calls for facts or moods are stored as
    the same text, no two facts of one user are stored with the same time
    and no two moods of one user are, [getImportantFacts] and
    [getRecentMood] return from the memoising revision what they return
    from the validated one. *)
Theorem cache_transparent (calls : list StoreCall) :
  forallb memo_accepted calls = true ->
  told_apart (omap memo_user calls) ->
  NoDup (omap fact_time calls) -> NoDup (omap mood_time calls) ->
  memo_reads calls (session cached_call calls (Cached.init (Cached.new empty_tables)))
  = memo_reads calls (session validated_call calls fresh_store).
Proof.
  intros Hacc Hids Hft Hmt.
  apply (session_sim (omap memo_user calls)); try done.
  - apply coherent_init.
  - intros t _ Ht. simpl in Ht. by apply elem_of_nil in Ht.
  - intros t _ Ht. simpl in Ht. by apply elem_of_nil in Ht.
Qed.

Lemma cache_transparent_witness :
  memo_reads
    [CallAddImportantFact 1 (IdNum 7) (lit "likes cats"); CallGetImportantFacts (IdNum 7);
     CallAddImportantFact 2 (IdNum 7) (lit "plays chess"); CallGetImportantFacts (IdNum 7);
     CallAddMood 3 (IdNum 7) (lit "happy"); CallGetRecentMood (IdNum 7)]
    (session cached_call
       [CallAddImportantFact 1 (IdNum 7) (lit "likes cats"); CallGetImportantFacts (IdNum 7);
        CallAddImportantFact 2 (IdNum 7) (lit "plays chess"); CallGetImportantFacts (IdNum 7);
        CallAddMood 3 (IdNum 7) (lit "happy"); CallGetRecentMood (IdNum 7)]
       (Cached.init (Cached.new empty_tables)))
  = [SeenFacts [lit "likes cats"];
     SeenFacts [lit "plays chess"; lit "likes cats"];
     SeenMood (Some (lit "happy"))].
Proof.
  rewrite (cache_transparent
    [CallAddImportantFact 1 (IdNum 7) (lit "likes cats"); CallGetImportantFacts (IdNum 7);
     CallAddImportantFact 2 (IdNum 7) (lit "plays chess"); CallGetImportantFacts (IdNum 7);
     CallAddMood 3 (IdNum 7) (lit "happy"); CallGetRecentMood (IdNum 7)]).
  - vm_compute. reflexivity.
  - reflexivity.
  - assert (Hall : forall x : userId, x ∈ replicate 6 (IdNum 7) -> x = IdNum 7)
      by (intros x Hx; by apply elem_of_replicate in Hx as [-> _]).
    intros u v Hu Hv _. by rewrite (Hall u Hu), (Hall v Hv).
  - refine (bool_decide_unpack _ _). vm_compute. exact I.
  - refine (bool_decide_unpack _ _). vm_compute. exact I.
Defined.

(** C10, as it was stated for every sequence: four sessions in which the
    two revisions return different things. Two moods stored in one
    millisecond: without an index the first revision returns the first of
    them, the validated one the last. Two facts stored in one millisecond,
    as the extractor stores them: the first revision returns them by their
    text, the validated one as they were stored. A fact stored under the
    number 7 after
    a read under the string ['7.0']: the rows are the same user's, the cache
    entries are not, and the first revision returns the list it cached. A
    fact stored for the id 0: the first revision stores it, the validated one
    refuses. *)
Lemma cache_not_transparent :
  (let calls := [CallAddMood 1 (IdNum 7) (lit "calm"); CallAddMood 1 (IdNum 7) (lit "happy");
                 CallGetRecentMood (IdNum 7)] in
   memo_reads calls (session cached_call calls (Cached.init (Cached.new empty_tables)))
   = [SeenMood (Some (lit "calm"))] /\
   memo_reads calls (session validated_call calls fresh_store)
   = [SeenMood (Some (lit "happy"))]) /\
  (let calls := [CallAddImportantFact 1 (IdNum 7) (lit "plays chess");
                 CallAddImportantFact 1 (IdNum 7) (lit "likes cats");
                 CallGetImportantFacts (IdNum 7)] in
   memo_reads calls (session cached_call calls (Cached.init (Cached.new empty_tables)))
   = [SeenFacts [lit "likes cats"; lit "plays chess"]] /\
   memo_reads calls (session validated_call calls fresh_store)
   = [SeenFacts [lit "plays chess"; lit "likes cats"]]) /\
  (let calls := [CallGetImportantFacts (IdStr (lit "7.0"));
                 CallAddImportantFact 1 (IdNum 7) (lit "likes cats");
                 CallGetImportantFacts (IdStr (lit "7.0"))] in
   memo_reads calls (session cached_call calls (Cached.init (Cached.new empty_tables)))
   = [SeenFacts []; SeenFacts []] /\
   memo_reads calls (session validated_call calls fresh_store)
   = [SeenFacts []; SeenFacts [lit "likes cats"]]) /\
  (let calls := [CallAddImportantFact 1 (IdNum 0) (lit "likes cats");
                 CallGetImportantFacts (IdNum 0)] in
   memo_reads calls (session cached_call calls (Cached.init (Cached.new empty_tables)))
   = [SeenFacts [lit "likes cats"]] /\
   memo_reads calls (session validated_call calls fresh_store)
   = [SeenFacts []]) /\
  ~ (forall calls : list StoreCall,
       memo_reads calls (session cached_call calls (Cached.init (Cached.new empty_tables)))
       = memo_reads calls (session validated_call calls fresh_store)).
Proof.
  split; [vm_compute; by split|]. split; [vm_compute; by split|].
  split; [vm_compute; by split|]. split; [vm_compute; by split|].
  intros H.
  specialize (H [CallAddMood 1 (IdNum 7) (lit "calm"); CallAddMood 1 (IdNum 7) (lit "happy");
                 CallGetRecentMood (IdNum 7)]).
  vm_compute in H. discriminate.
Qed.

(** The validated revision against the prepared-statement one: on
    arguments it accepts, the store it leaves is the plain revision's, and
    so is what [getImportantFacts] and [getRecentMood] return. *)
Lemma validated_call_plain (c : StoreCall) (s : MemoryStore) :
  accepted c = true ->
  snd (validated_call c s) = snd (prepared_call c s) /\
  (is_memo_read c = true -> fst (validated_call c s) = fst (prepared_call c s)).
Proof.
  intros Hacc.
  destruct c as [now u r c|now u f|now u m|u|u|u|u limit|u|u|]; simpl in *;
    try (split; [done|]; intros; done).
  - apply negb_true_iff in Hacc. unfold Store.add, Prepared.add. by rewrite Hacc.
  - apply negb_true_iff in Hacc.
    unfold Store.addImportantFact, Prepared.addImportantFact. by rewrite Hacc.
  - apply negb_true_iff in Hacc. unfold Store.addMood, Prepared.addMood. by rewrite Hacc.
Qed.

Theorem validated_as_prepared (calls : list StoreCall) (s : MemoryStore) :
  forallb accepted calls = true ->
  memo_reads calls (session validated_call calls s)
  = memo_reads calls (session prepared_call calls s).
Proof.
  revert s. induction calls as [|c calls IH]; intros s Hacc; simpl; [done|].
  simpl in Hacc. apply andb_true_iff in Hacc as [Hc Hrest].
  destruct (validated_call_plain c s Hc) as [Hstate Hseen].
  destruct (validated_call c s) as [o1 s1], (prepared_call c s) as [o2 s2].
  simpl in *. subst s2. rewrite (IH s1 Hrest).
  destruct (is_memo_read c); [|done]. by rewrite Hseen.
Qed.

Lemma validated_as_prepared_witness :
  memo_reads
    [CallAddImportantFact 1 (IdNum 7) (lit "likes cats"); CallGetImportantFacts (IdNum 7)]
    (session prepared_call
       [CallAddImportantFact 1 (IdNum 7) (lit "likes cats"); CallGetImportantFacts (IdNum 7)]
       fresh_store)
  = [SeenFacts [lit "likes cats"]].
Proof.
  rewrite <- (validated_as_prepared
    [CallAddImportantFact 1 (IdNum 7) (lit "likes cats"); CallGetImportantFacts (IdNum 7)]
    fresh_store eq_refl).
  vm_compute. reflexivity.
Defined.


(** ** The model client *)

Lemma posts_snoc (l : list Event) (e : Event) :
  posts (l ++ [e]) = (posts l + (if is_post e then 1 else 0))%nat.
Proof.
  unfold posts. rewrite List.filter_app, length_app. simpl.
  by destruct (is_post e).
Qed.

(** One pass through the loop, by the answer it gets. *)
Lemma attempt_once_answer (messages : list ChatMessage) (attempt : Z)
    (lastError : option JsError) (w : World) :
  let a := http (outside w) (posts (log w)) messages in
  let w1 := tick (EvPost messages a) 0 w in
  attempt_once messages attempt lastError w =
  match a with
  | HttpBody (Some (c :: s)) => (Ok (Returned (c :: s)), w1)
  | _ =>
      if attempt =? maxRetries then (Throw (surfaced a), w1)
      else (Ok (NextAttempt (caught a lastError)),
            tick (EvSleep (1000 * attempt)) (1000 * attempt) w1)
  end.
Proof.
  intros a w1. unfold attempt_once, try_catch, axios_post, mbind, M_bind.
  fold a. fold w1.
  destruct a as [e|[[|c s]|]]; simpl; by destruct (attempt =? maxRetries).
Qed.

Lemma attempts_step (k : nat) (messages : list ChatMessage) (attempt : Z)
    (lastError : option JsError) (w : World) :
  let a := http (outside w) (posts (log w)) messages in
  let w1 := tick (EvPost messages a) 0 w in
  attempts (S k) attempt lastError messages w =
  match a with
  | HttpBody (Some (c :: s)) => (Ok (c :: s), w1)
  | _ =>
      if attempt =? maxRetries then (Throw (surfaced a), w1)
      else attempts k (attempt + 1) (caught a lastError) messages
             (tick (EvSleep (1000 * attempt)) (1000 * attempt) w1)
  end.
Proof.
  intros a w1. simpl. unfold mbind, M_bind at 1.
  rewrite attempt_once_answer. fold a. fold w1.
  destruct a as [e|[[|c s]|]]; simpl; by destruct (attempt =? maxRetries).
Qed.

Lemma failed_answer (a : HttpResult) :
  failed a -> forall c s, a <> HttpBody (Some (c :: s)).
Proof. intros Hf c s ->. simpl in Hf. done. Qed.

(** Where an attempt that failed leaves the loop. *)
Lemma attempts_step_failed (k : nat) (messages : list ChatMessage) (attempt : Z)
    (lastError : option JsError) (w : World) :
  let a := http (outside w) (posts (log w)) messages in
  let w1 := tick (EvPost messages a) 0 w in
  failed a ->
  attempts (S k) attempt lastError messages w =
  if attempt =? maxRetries then (Throw (surfaced a), w1)
  else attempts k (attempt + 1) (caught a lastError) messages
         (tick (EvSleep (1000 * attempt)) (1000 * attempt) w1).
Proof.
  intros a w1 Hf. rewrite attempts_step. fold a. fold w1.
  destruct a as [e|[[|c s]|]]; try done.
Qed.

Lemma attempts_step_content (k : nat) (messages : list ChatMessage) (attempt : Z)
    (lastError : option JsError) (w : World) (content : jsstring) :
  http (outside w) (posts (log w)) messages = HttpBody (Some content) ->
  content <> [] ->
  attempts (S k) attempt lastError messages w =
  (Ok content, tick (EvPost messages (HttpBody (Some content))) 0 w).
Proof.
  intros Ha Hc. rewrite attempts_step, Ha. by destruct content.
Qed.

(** With [k] passes to go, the last of them being attempt [maxRetries], the
    loop sends between one and [k] requests. *)
Lemma attempts_posts (k : nat) (attempt : Z) (lastError : option JsError)
    (messages : list ChatMessage) (w : World) :
  attempt = maxRetries + 1 - Z.of_nat k -> (1 <= k)%nat ->
  exists n, (1 <= n <= k)%nat /\
    posts (log (snd (attempts k attempt lastError messages w))) = (posts (log w) + n)%nat.
Proof.
  revert attempt lastError w.
  induction k as [|k IH]; intros attempt lastError w Hatt Hk; [lia|].
  rewrite attempts_step.
  set (a := http (outside w) (posts (log w)) messages).
  set (w1 := tick (EvPost messages a) 0 w).
  assert (P1 : posts (log w1) = (posts (log w) + 1)%nat).
  { unfold w1. simpl. by rewrite posts_snoc. }
  assert (Hfail : exists n, (1 <= n <= S k)%nat /\
    posts (log (snd
      (if attempt =? maxRetries then (@Throw jsstring (surfaced a), w1)
       else attempts k (attempt + 1) (caught a lastError) messages
              (tick (EvSleep (1000 * attempt)) (1000 * attempt) w1))))
    = (posts (log w) + n)%nat).
  { destruct (attempt =? maxRetries) eqn:E.
    - exists 1%nat. split; [lia|done].
    - apply Z.eqb_neq in E. unfold maxRetries in *.
      destruct (IH (attempt + 1) (caught a lastError)
                  (tick (EvSleep (1000 * attempt)) (1000 * attempt) w1))
        as (n & Hn & Hposts); [lia|lia|].
      exists (S n). split; [lia|]. rewrite Hposts.
      unfold w1. cbn [log tick]. rewrite !posts_snoc. cbn [is_post]. lia. }
  destruct a as [e|[[|c s]|]]; try exact Hfail.
  exists 1%nat. split; [lia|done].
Qed.

(** C2: for a request that is not empty, [chatWithLLM] sends between one and
    three requests. If the first two attempts fail (rejected, or a response
    without content) and the third has content, it returns that content
    after exactly three requests, having waited 1000 ms and then 2000 ms in
    between. If all three fail, it throws after exactly three requests, with
    the same waits: the third attempt's error, or the empty-content error
    when the third response had no content. *)
Theorem chatWithLLM_retries (messages : list ChatMessage) (w : World) :
  messages <> [] ->
  let p := posts (log w) in
  let answer k := http (outside w) (p + k) messages in
  let three_attempts :=
    [ EvPost messages (answer 0%nat); EvSleep 1000;
      EvPost messages (answer 1%nat); EvSleep 2000;
      EvPost messages (answer 2%nat) ] in
  (exists n, (1 <= n <= 3)%nat /\
             posts (log (snd (chatWithLLM messages w))) = (p + n)%nat) /\
  (forall content,
     failed (answer 0%nat) -> failed (answer 1%nat) ->
     answer 2%nat = HttpBody (Some content) -> content <> [] ->
     fst (chatWithLLM messages w) = Ok content /\
     new_events (chatWithLLM messages) w = three_attempts) /\
  (failed (answer 0%nat) -> failed (answer 1%nat) -> failed (answer 2%nat) ->
   fst (chatWithLLM messages w) = Throw (surfaced (answer 2%nat)) /\
   new_events (chatWithLLM messages) w = three_attempts).
Proof.
  intros Hne p answer three_attempts.
  destruct messages as [|m0 ms]; [done|]. set (messages := m0 :: ms) in *.
  unfold new_events, chatWithLLM. subst messages. cbv iota.
  set (messages := m0 :: ms) in *.
  change (Z.to_nat maxRetries) with 3%nat.
  (* the three worlds an attempt starts in *)
  set (a1 := answer 0%nat). set (w1 := tick (EvPost messages a1) 0 w).
  set (v1 := tick (EvSleep (1000 * 1)) (1000 * 1) w1).
  set (a2 := answer 1%nat). set (w2 := tick (EvPost messages a2) 0 v1).
  set (v2 := tick (EvSleep (1000 * (1 + 1))) (1000 * (1 + 1)) w2).
  set (a3 := answer 2%nat). set (w3 := tick (EvPost messages a3) 0 v2).
  assert (E1 : http (outside w) (posts (log w)) messages = a1).
  { unfold a1, answer, p. f_equal. lia. }
  assert (E2 : http (outside v1) (posts (log v1)) messages = a2).
  { unfold a2, answer, p, v1, w1. simpl. rewrite !posts_snoc. simpl. f_equal. lia. }
  assert (E3 : http (outside v2) (posts (log v2)) messages = a3).
  { unfold a3, answer, p, v2, w2, v1, w1. simpl. rewrite !posts_snoc. simpl.
    f_equal. lia. }
  assert (P1 : posts (log w1) = (p + 1)%nat).
  { unfold w1. simpl. by rewrite posts_snoc. }
  assert (P2 : posts (log w2) = (p + 2)%nat).
  { unfold w2, v1, w1. simpl. rewrite !posts_snoc. simpl. fold p. lia. }
  assert (P3 : posts (log w3) = (p + 3)%nat).
  { unfold w3, v2, w2, v1, w1. simpl. rewrite !posts_snoc. simpl. fold p. lia. }
  assert (L3 : drop (length (log w)) (log w3) = three_attempts).
  { unfold w3, v2, w2, v1, w1. simpl. rewrite <- !app_assoc. by rewrite drop_app_length. }
  split; [|split].
  - destruct (attempts_posts 3 1 None messages w) as (n & Hn & Hposts); [done|lia|].
    exists n. split; [lia|done].
  - intros content F1 F2 Ha3 Hc.
    rewrite attempts_step_failed by (by rewrite E1).
    change (1 =? maxRetries) with false. cbv iota.
    rewrite E1. fold w1. fold v1.
    rewrite attempts_step_failed by (by rewrite E2).
    change (1 + 1 =? maxRetries) with false. cbv iota.
    rewrite E2. fold w2. fold v2.
    rewrite (attempts_step_content _ _ _ _ _ content) by (by rewrite ?E3).
    fold a3 in Ha3. rewrite <- Ha3. fold w3. by split.
  - intros F1 F2 F3.
    rewrite attempts_step_failed by (by rewrite E1).
    change (1 =? maxRetries) with false. cbv iota.
    rewrite E1. fold w1. fold v1.
    rewrite attempts_step_failed by (by rewrite E2).
    change (1 + 1 =? maxRetries) with false. cbv iota.
    rewrite E2. fold w2. fold v2.
    rewrite attempts_step_failed by (by rewrite E3).
    change (1 + 1 + 1 =? maxRetries) with true. cbv iota.
    rewrite E3. fold w3. by split.
Qed.

Lemma chatWithLLM_retries_witness :
  fst (chatWithLLM [user_message (lit "hello")]
         (boot sample_imports (flaky 2 (lit "hi")) empty_tables 0))
  = Ok (lit "hi").
Proof.
  pose proof (chatWithLLM_retries [user_message (lit "hello")]
                (boot sample_imports (flaky 2 (lit "hi")) empty_tables 0)
                ltac:(discriminate)) as (_ & Hthird & _).
  apply (Hthird (lit "hi")); [exact I | exact I | reflexivity | discriminate].
Defined.

(** ** The context assembler *)

Lemma assemble_last (w : World) (u : userId) (userMessage : jsstring)
    (messages : list ChatMessage) :
  assemble w u userMessage = Ok messages ->
  last messages = Some (user_message userMessage).
Proof.
  unfold assemble, mbind, Exc_bind, mret, Exc_ret.
  destruct (Store.getImportantFacts (memory w) u); [|done].
  destruct (Store.getChatCount (memory w) u); [|done].
  destruct (Store.getRecentMood (memory w) u); [|done].
  intros [= <-]. apply last_snoc.
Qed.

Lemma assemble_throws (w : World) (u : userId) (userMessage : jsstring) :
  a_read_throws w u -> exists e, assemble w u userMessage = Throw e.
Proof.
  unfold assemble, mbind, Exc_bind, mret, Exc_ret.
  intros [[e He]|[[e He]|[e He]]].
  - rewrite He. eauto.
  - rewrite He. destruct (Store.getImportantFacts (memory w) u); eauto.
  - rewrite He. destruct (Store.getImportantFacts (memory w) u); [|eauto].
    destruct (Store.getChatCount (memory w) u); eauto.
Qed.

(** C6: for a chat id and a message that are not falsy, [buildMessages]
    returns a list, the list ends with the new user message, and when a
    store read inside it throws the list is exactly the default persona
    followed by the user message. *)
Theorem buildMessages_never_drops (w : World) (u : userId) (userMessage : jsstring) :
  falsy_id u = false -> userMessage <> [] ->
  exists messages,
    buildMessages w u userMessage = Ok messages /\
    last messages = Some (user_message userMessage) /\
    (a_read_throws w u ->
     messages = [ system_message (buildSystemPrompt (imports w) no_args);
                  user_message userMessage ]).
Proof.
  intros Hu Hm. unfold buildMessages.
  rewrite Hu, (proj2 (falsy_string_false _) Hm).
  simpl. destruct (assemble w u userMessage) as [messages|e] eqn:E; simpl.
  - exists messages. split; [done|]. split; [by eapply assemble_last|].
    intros Hthrow. destruct (assemble_throws w u userMessage Hthrow) as [e He].
    congruence.
  - exists (minimal_messages w userMessage). by repeat split.
Qed.

Lemma buildMessages_never_drops_witness :
  buildMessages
    (with_memory (Store.close (Store.init (Store.new empty_tables)))
       (boot sample_imports (flaky 0 (lit "hi")) empty_tables 0))
    (IdNum 7) (lit "hello")
  = Ok [ system_message (lit "You are Rose."); user_message (lit "hello") ].
Proof.
  destruct (buildMessages_never_drops
    (with_memory (Store.close (Store.init (Store.new empty_tables)))
       (boot sample_imports (flaky 0 (lit "hi")) empty_tables 0))
    (IdNum 7) (lit "hello") eq_refl ltac:(discriminate)) as (messages & Hb & _ & Hmin).
  rewrite Hb. f_equal. apply Hmin. left. eexists. reflexivity.
Defined.

(** ** The turn handler *)

(** C7: a message with a chat id whose text is longer than 1000 code units
    gets one call of [bot.sendMessage] with the too-long notice and nothing
    else: the handler returns, no request goes to the model, the store, the
    maps and the timers are as before. *)
Theorem handleMessage_too_long (msg : Msg) (w : World) (u : Z) (text : jsstring) :
  msg_chat msg = Some u -> msg_text msg = Some text -> u <> 0 ->
  (1000 < length text)%nat ->
  let w' := snd (handleMessage msg w) in
  fst (handleMessage msg w) = Ok tt /\
  log w' = log w ++ [EvSendMessage (IdNum u) TOO_LONG
                       (telegram (outside w) (bot_calls (log w)))] /\
  posts (log w') = posts (log w) /\
  memory w' = memory w /\
  timers w' = timers w /\
  userNames w' = userNames w /\
  lastMessageTime w' = lastMessageTime w /\
  lastInteractionTime w' = lastInteractionTime w /\
  lastActiveMessageTime w' = lastActiveMessageTime w.
Proof.
  intros Hchat Htext Hu Hlen w'. unfold w', handleMessage.
  rewrite Hchat, Htext.
  assert (Hne : falsy_string text = false) by (destruct text; [simpl in Hlen; lia|done]).
  rewrite Hne, (proj2 (falsy_number_false u) Hu).
  rewrite (proj2 (Nat.ltb_lt _ _) Hlen).
  unfold try_catch, bot_sendMessage.
  destruct (telegram (outside w) (bot_calls (log w))); simpl;
    rewrite ?posts_snoc; simpl; repeat split; lia.
Qed.

Lemma handleMessage_too_long_witness :
  new_events
    (handleMessage {| msg_chat := Some 7; msg_text := Some (replicate 1001 97%N);
                      msg_username := None; msg_first_name := None |})
    (boot sample_imports (flaky 0 (lit "hi")) empty_tables 0)
  = [EvSendMessage (IdNum 7) TOO_LONG true].
Proof.
  pose proof (handleMessage_too_long
    {| msg_chat := Some 7; msg_text := Some (replicate 1001 97%N);
       msg_username := None; msg_first_name := None |}
    (boot sample_imports (flaky 0 (lit "hi")) empty_tables 0) 7 (replicate 1001 97%N)
    eq_refl eq_refl ltac:(lia) ltac:(rewrite length_replicate; lia))
    as (_ & Hlog & _).
  unfold new_events. rewrite Hlog. reflexivity.
Defined.

(** ** The proactive scheduler *)

Section Keeps.
Context (R : relation World) `{!PreOrder R}.

Lemma keeps_mret {A : Type} (a : A) : keeps R (mret a : M A).
Proof. intros w. simpl. reflexivity. Qed.

Lemma keeps_throw {A : Type} (e : JsError) : keeps R (throw e : M A).
Proof. intros w. simpl. reflexivity. Qed.

Lemma keeps_reading {A : Type} (f : World -> Exc A) : keeps R (reading f).
Proof. intros w. simpl. reflexivity. Qed.

Lemma keeps_Date_now : keeps R Date_now.
Proof. intros w. simpl. reflexivity. Qed.

Lemma keeps_bind {A B : Type} (m : M A) (f : A -> M B) :
  keeps R m -> (forall a, keeps R (f a)) -> keeps R (m ≫= f).
Proof.
  intros Hm Hf w. unfold mbind, M_bind. specialize (Hm w).
  destruct (m w) as [[a|e] w1]; simpl in *; [|done].
  etransitivity; [exact Hm|apply Hf].
Qed.

Lemma keeps_try_catch {A : Type} (m : M A) (h : JsError -> M A) :
  keeps R m -> (forall e, keeps R (h e)) -> keeps R (try_catch m h).
Proof.
  intros Hm Hh w. unfold try_catch. specialize (Hm w).
  destruct (m w) as [[a|e] w1]; simpl in *; [done|].
  etransitivity; [exact Hm|apply Hh].
Qed.

Lemma keeps_for_of {A : Type} (l : list A) (body : A -> M unit) :
  (forall x, x ∈ l -> keeps R (body x)) -> keeps R (for_of l body).
Proof.
  induction l as [|x l IH]; intros Hb; simpl; [apply keeps_mret|].
  apply keeps_bind; [apply Hb; by left|].
  intros _. apply IH. intros y Hy. apply Hb. by right.
Qed.

End Keeps.

Global Instance quiet_preorder : PreOrder quiet.
Proof.
  split.
  - intros w. split; try done. exists []. by rewrite app_nil_r.
  - intros w1 w2 w3 [A1 A2 A3 A4 A5 A6 A7 A8 (e1 & L1 & F1)]
                    [B1 B2 B3 B4 B5 B6 B7 B8 (e2 & L2 & F2)].
    split; try congruence.
    exists (e1 ++ e2). split; [by rewrite L2, L1, app_assoc|by apply Forall_app].
Qed.

Lemma sent_to_app (u : userId) (l1 l2 : list Event) :
  sent_to u (l1 ++ l2) = sent_to u l1 ++ sent_to u l2.
Proof. apply List.filter_app. Qed.

Lemma sent_to_quiet (u : userId) (evs : list Event) :
  Forall (fun e => is_bot_call e = false) evs -> sent_to u evs = [].
Proof.
  induction 1 as [|e evs He _ IH]; [done|].
  unfold sent_to in *. simpl. rewrite IH. by destruct e.
Qed.

Lemma bot_calls_quiet (l evs : list Event) :
  Forall (fun e => is_bot_call e = false) evs -> bot_calls (l ++ evs) = bot_calls l.
Proof.
  intros Hq. unfold bot_calls. rewrite List.filter_app, length_app.
  replace (List.filter is_bot_call evs) with (@nil Event); [simpl; lia|].
  induction Hq as [|e evs He _ IH]; [done|]. simpl. by rewrite He.
Qed.

Global Instance passes_by_preorder (u : userId) : PreOrder (passes_by u).
Proof.
  split.
  - intros w. split; try done. exists []. by rewrite app_nil_r.
  - intros w1 w2 w3 [A1 A2 A3 A4 (e1 & L1 & F1)] [B1 B2 B3 B4 (e2 & L2 & F2)].
    split; try congruence.
    exists (e1 ++ e2). split; [by rewrite L2, L1, app_assoc|].
    by rewrite sent_to_app, F1, F2.
Qed.

Lemma quiet_passes_by (u : userId) (w w' : World) : quiet w w' -> passes_by u w w'.
Proof.
  intros [A1 A2 A3 A4 A5 A6 A7 A8 (evs & L & F)]. split; try congruence.
  exists evs. split; [done|by apply sent_to_quiet].
Qed.

Lemma quiet_tick (e : Event) (spent : Z) (w : World) :
  is_bot_call e = false -> quiet w (tick e spent w).
Proof. intros He. split; try done. exists [e]. split; [done|by repeat constructor]. Qed.

Lemma keeps_quiet_axios_post (messages : list ChatMessage) :
  keeps quiet (axios_post messages).
Proof.
  intros w. unfold axios_post.
  destruct (http (outside w) (posts (log w)) messages); by apply quiet_tick.
Qed.

Lemma keeps_quiet_sleep (ms : Z) : keeps quiet (sleep ms).
Proof. intros w. by apply quiet_tick. Qed.

Lemma keeps_quiet_pick (arr : list jsstring) : keeps quiet (pick arr).
Proof. intros w. split; try done. exists []. by rewrite app_nil_r. Qed.

Lemma keeps_quiet_attempt_once (messages : list ChatMessage) (attempt : Z)
    (lastError : option JsError) :
  keeps quiet (attempt_once messages attempt lastError).
Proof.
  unfold attempt_once. apply keeps_try_catch; [apply _| |].
  - apply keeps_bind; [apply _|apply keeps_quiet_axios_post|].
    intros content. destruct (no_content content); [|apply keeps_mret, _].
    destruct (attempt =? maxRetries); [apply keeps_throw, _|].
    apply keeps_bind; [apply _|apply keeps_quiet_sleep|].
    intros _. apply keeps_mret, _.
  - intros err. destruct (attempt =? maxRetries); [apply keeps_throw, _|].
    apply keeps_bind; [apply _|apply keeps_quiet_sleep|].
    intros _. apply keeps_mret, _.
Qed.

Lemma keeps_quiet_attempts (remaining : nat) (attempt : Z) (lastError : option JsError)
    (messages : list ChatMessage) :
  keeps quiet (attempts remaining attempt lastError messages).
Proof.
  revert attempt lastError.
  induction remaining as [|k IH]; intros attempt lastError; simpl.
  - apply keeps_throw, _.
  - apply keeps_bind; [apply _|apply keeps_quiet_attempt_once|].
    intros [content|lastError']; [apply keeps_mret, _|apply IH].
Qed.

Lemma keeps_quiet_chatWithLLM (messages : list ChatMessage) :
  keeps quiet (chatWithLLM messages).
Proof.
  unfold chatWithLLM. destruct messages; [apply keeps_throw, _|].
  apply keeps_quiet_attempts.
Qed.

Lemma total_try_catch {A : Type} (m : M A) (h : JsError -> M A) :
  (forall e, total (h e)) -> total (try_catch m h).
Proof.
  intros Hh w. unfold try_catch.
  destruct (m w) as [[a|e] w1]; [by exists a|apply Hh].
Qed.

Lemma total_pick (arr : list jsstring) : total (pick arr).
Proof. intros w. by eexists. Qed.

(** [generateActiveMessage] always comes back with a text, and all it did
    was talk to the model. *)
Lemma generateActiveMessage_quiet (u : userId) :
  total (generateActiveMessage u) /\ keeps quiet (generateActiveMessage u).
Proof.
  split.
  - apply total_try_catch. intros e. apply total_pick.
  - unfold generateActiveMessage. apply keeps_try_catch; [apply _| |].
    + repeat (apply keeps_bind; [apply _|apply keeps_reading, _|]; intros ?).
      apply keeps_bind; [apply _|apply keeps_quiet_chatWithLLM|].
      intros activeMessage.
      destruct (negb (falsy_string activeMessage)
                && (0 <? length (trim activeMessage))%nat);
        [apply keeps_mret, _|apply keeps_quiet_pick].
    + intros e. apply keeps_quiet_pick.
Qed.

(** One pass of the loop body, by its condition. *)
Lemma consider_user_run (u : userId) (w : World) :
  let now := clock w in
  let lastInteraction := or_zero (lastInteractionTime w !! u) in
  let lastActiveMsg := or_zero (lastActiveMessageTime w !! u) in
  if gates_open now lastInteraction lastActiveMsg then
    exists text wg,
      generateActiveMessage u w = (Ok text, wg) /\ quiet w wg /\
      consider_user u w = (Ok tt, after_send u text now wg)
  else consider_user u w = (Ok tt, w).
Proof.
  intros now lastInteraction lastActiveMsg.
  unfold consider_user, mbind, M_bind, reading, Date_now. simpl.
  fold now lastInteraction lastActiveMsg.
  destruct (gates_open now lastInteraction lastActiveMsg); [|done].
  destruct (generateActiveMessage_quiet u) as [Htot Hq].
  destruct (Htot w) as [text Htext]. specialize (Hq w).
  destruct (generateActiveMessage u w) as [r wg] eqn:E. simpl in *. subst r.
  exists text, wg. split; [done|]. split; [done|].
  unfold try_catch, mbind, M_bind. rewrite E.
  unfold bot_sendMessage, after_send, update.
  by destruct (telegram (outside wg) (bot_calls (log wg))).
Qed.

Lemma gates_open_spec (now lastInteraction lastActiveMsg : Z) :
  gates_open now lastInteraction lastActiveMsg = true <->
  USER_INACTIVE_THRESHOLD < now - lastInteraction /\
  ACTIVE_MESSAGE_INTERVAL < now - lastActiveMsg.
Proof. unfold gates_open. by rewrite andb_true_iff, !Z.ltb_lt. Qed.

(** The turn of another user [v] passes [u] by. *)
Lemma consider_user_other (u v : userId) (w : World) :
  v <> u ->
  fst (consider_user v w) = Ok tt /\ passes_by u w (snd (consider_user v w)).
Proof.
  intros Hvu. pose proof (consider_user_run v w) as Hrun. simpl in Hrun.
  destruct (gates_open _ _ _).
  - destruct Hrun as (text & wg & _ & Hq & ->). simpl. split; [done|].
    etransitivity; [apply (quiet_passes_by u), Hq|].
    unfold after_send.
    assert (Hsend : forall d, passes_by u wg (tick (EvSendMessage v text d) 0 wg)).
    { intros d. split; try done. exists [EvSendMessage v text d]. split; [done|].
      unfold sent_to. simpl. by rewrite bool_decide_eq_false_2. }
    destruct (telegram (outside wg) (bot_calls (log wg))); [|apply Hsend].
    etransitivity; [apply (Hsend true)|].
    split; try done.
    + simpl. by rewrite lookup_insert_ne.
    + exists []. by rewrite app_nil_r.
  - rewrite Hrun. simpl. split; [done|reflexivity].
Qed.

Lemma for_of_others (u : userId) (l : list userId) (w : World) :
  u ∉ l ->
  fst (for_of l consider_user w) = Ok tt /\
  passes_by u w (snd (for_of l consider_user w)).
Proof.
  revert w. induction l as [|v l IH]; intros w Hu; simpl.
  - split; [done|reflexivity].
  - apply not_elem_of_cons in Hu as [Hvu Hl].
    destruct (consider_user_other u v w) as [Hok Hpass]; [done|].
    unfold mbind, M_bind.
    destruct (consider_user v w) as [r w1]. simpl in *. subst r.
    destruct (IH w1 Hl) as [Hok' Hpass']. split; [done|].
    etransitivity; [exact Hpass|exact Hpass'].
Qed.

Lemma for_of_app {A : Type} (l1 l2 : list A) (body : A -> M unit) (w : World) :
  for_of (l1 ++ l2) body w =
  match for_of l1 body w with
  | (Ok _, w1) => for_of l2 body w1
  | (Throw e, w1) => (Throw e, w1)
  end.
Proof.
  revert w. induction l1 as [|x l1 IH]; intros w; simpl; [done|].
  unfold mbind, M_bind. destruct (body x w) as [[[]|e] w1]; [apply IH|done].
Qed.

Lemma getUserIds_NoDup (d : Tables) : NoDup (Stmt.getUserIds d).
Proof.
  unfold Stmt.getUserIds. rewrite by_text_perm. apply NoDup_remove_dups.
Qed.

(** In one sweep, for an id [s] that [getUserIds] lists, a string, with
    [now] the time read when the loop reaches it, and with both times read
    under the string (a missing entry counting as 0): if [now -
    lastInteractionTime > 30 min] and [now - lastActiveMessageTime > 2 h],
    exactly one [bot.sendMessage] goes to [s], and the stamp under [s]
    becomes [now] if it was delivered and stays as it was if not; if one of
    the two fails, nothing is sent to [s] and the stamp stays as it was.
    The sweep never throws and never writes an interaction time. *)
Theorem sweep_two_gates (w : World) (before after : list jsstring) (s : jsstring) :
  Store.getUserIds (memory w) = Ok (before ++ s :: after) ->
  let u := IdStr s in
  let now := clock (snd (for_of (IdStr <$> before) consider_user w)) in
  let sinceLastInteraction := now - or_zero (lastInteractionTime w !! u) in
  let sinceLastProactiveSend := now - or_zero (lastActiveMessageTime w !! u) in
  let w' := snd (initiateActiveConversation w) in
  let sent := sent_to u (new_events initiateActiveConversation w) in
  fst (initiateActiveConversation w) = Ok tt /\
  lastInteractionTime w' = lastInteractionTime w /\
  (USER_INACTIVE_THRESHOLD < sinceLastInteraction /\
   ACTIVE_MESSAGE_INTERVAL < sinceLastProactiveSend ->
   exists text delivered,
     sent = [EvSendMessage u text delivered] /\
     lastActiveMessageTime w' !! u
     = if delivered then Some now else lastActiveMessageTime w !! u) /\
  (~ (USER_INACTIVE_THRESHOLD < sinceLastInteraction /\
      ACTIVE_MESSAGE_INTERVAL < sinceLastProactiveSend) ->
   sent = [] /\ lastActiveMessageTime w' !! u = lastActiveMessageTime w !! u).
Proof.
  intros Hids u.
  assert (Hnd : NoDup (before ++ s :: after)).
  { unfold Store.getUserIds, query in Hids. destruct (conn (memory w)); try done.
    injection Hids as <-. apply getUserIds_NoDup. }
  apply NoDup_app in Hnd as (_ & Hbefore & Hafter).
  apply NoDup_cons in Hafter as [Hafter _].
  assert (Hub : u ∉ IdStr <$> before).
  { intros Hin. apply list_elem_of_fmap in Hin as (s' & [= <-] & Hin).
    apply (Hbefore s Hin). by left. }
  assert (Hua : u ∉ IdStr <$> after).
  { intros Hin. by apply list_elem_of_fmap in Hin as (s' & [= <-] & Hin). }
  (* the sweep is the loop over the three parts of the list *)
  assert (Hsweep : initiateActiveConversation w
                   = match for_of ((IdStr <$> before) ++ u :: (IdStr <$> after))
                             consider_user w with
                     | (Ok a, w1) => (Ok a, w1)
                     | (Throw e, w1) => (Ok tt, w1)
                     end).
  { unfold initiateActiveConversation, try_catch, mbind, M_bind, reading.
    rewrite Hids, fmap_app, fmap_cons. by destruct (for_of _ _ w) as [[[]|e] w1]. }
  rewrite for_of_app in Hsweep.
  destruct (for_of_others u (IdStr <$> before) w Hub) as [Hok1 Hpass1].
  destruct (for_of (IdStr <$> before) consider_user w) as [r1 start] eqn:E1.
  simpl in Hok1, Hpass1. subst r1. cbn [snd] in *.
  cbn [for_of] in Hsweep. unfold mbind, M_bind in Hsweep.
  destruct Hpass1 as [M1 I1 S1 O1 (ev1 & L1 & N1)].
  pose proof (consider_user_run u start) as Hrun. simpl in Hrun.
  rewrite I1, S1 in Hrun.
  set (now := clock start) in *.
  set (go := gates_open now (or_zero (lastInteractionTime w !! u))
                         (or_zero (lastActiveMessageTime w !! u))) in *.
  assert (Hgo : go = true <->
            USER_INACTIVE_THRESHOLD < now - or_zero (lastInteractionTime w !! u) /\
            ACTIVE_MESSAGE_INTERVAL < now - or_zero (lastActiveMessageTime w !! u))
    by apply gates_open_spec.
  cbv zeta. fold now. unfold new_events.
  destruct go eqn:Ego.
  - destruct Hrun as (text & wg & _ & Hq & Hrun). rewrite Hrun in Hsweep.
    destruct (for_of_others u (IdStr <$> after) (after_send u text now wg) Hua)
      as [Hok3 Hpass3].
    destruct (for_of (IdStr <$> after) consider_user (after_send u text now wg))
      as [r3 w3] eqn:E3.
    simpl in Hok3, Hpass3. subst r3.
    destruct Hpass3 as [M3 I3 S3 O3 (ev3 & L3 & N3)].
    destruct Hq as [Q1 Q2 Q3 Q4 Q5 Q6 Q7 Q8 (evg & Lg & Ng)].
    set (delivered := telegram (outside wg) (bot_calls (log wg))) in *.
    assert (Hlog : log (after_send u text now wg)
                   = log w ++ ev1 ++ evg ++ [EvSendMessage u text delivered]).
    { unfold after_send. fold delivered.
      destruct delivered; simpl; rewrite Lg, L1; by rewrite <- !app_assoc. }
    assert (Hstamp : lastActiveMessageTime (after_send u text now wg) !! u
                     = if delivered then Some now else lastActiveMessageTime w !! u).
    { unfold after_send. fold delivered. destruct delivered; simpl.
      - by rewrite lookup_insert_eq.
      - by rewrite Q5, S1. }
    assert (Hint : lastInteractionTime (after_send u text now wg)
                   = lastInteractionTime w).
    { unfold after_send. destruct (telegram _ _); simpl; congruence. }
    rewrite Hsweep. simpl.
    split; [done|]. split; [congruence|]. split.
    + intros _. exists text, delivered. split; [|congruence].
      rewrite L3, Hlog, <- !app_assoc, drop_app_length.
      rewrite !sent_to_app, N1, N3, (sent_to_quiet u evg Ng). simpl.
      unfold sent_to. simpl. by rewrite bool_decide_eq_true_2.
    + intros Hno. exfalso. apply Hno. by apply Hgo.
  - rewrite Hrun in Hsweep.
    destruct (for_of_others u (IdStr <$> after) start Hua) as [Hok3 Hpass3].
    destruct (for_of (IdStr <$> after) consider_user start) as [r3 w3] eqn:E3.
    simpl in Hok3, Hpass3. subst r3.
    destruct Hpass3 as [M3 I3 S3 O3 (ev3 & L3 & N3)].
    rewrite Hsweep. simpl.
    split; [done|]. split; [congruence|]. split.
    + intros Hyes. apply Hgo in Hyes. done.
    + intros _. split; [|congruence].
      rewrite L3, L1, <- !app_assoc, drop_app_length.
      by rewrite !sent_to_app, N1, N3.
Qed.

Lemma sweep_two_gates_witness :
  (USER_INACTIVE_THRESHOLD < 100000000 - 0 /\
   ACTIVE_MESSAGE_INTERVAL < 100000000 - 89200000) /\
  exists text delivered,
    sent_to (IdStr (lit "7.0"))
      (new_events initiateActiveConversation
         (one_user_world 100000000 98140000 89200000))
    = [EvSendMessage (IdStr (lit "7.0")) text delivered] /\
    lastActiveMessageTime
      (snd (initiateActiveConversation (one_user_world 100000000 98140000 89200000)))
      !! IdStr (lit "7.0")
    = if delivered then Some 100000000 else Some 89200000.
Proof.
  assert (Hgates : USER_INACTIVE_THRESHOLD < 100000000 - 0 /\
                   ACTIVE_MESSAGE_INTERVAL < 100000000 - 89200000)
    by (split; reflexivity).
  split; [exact Hgates|].
  pose proof (sweep_two_gates (one_user_world 100000000 98140000 89200000) [] []
                (lit "7.0") eq_refl) as (_ & _ & Hsend & _).
  exact (Hsend Hgates).
Defined.

(** C3 (where the code fails): the user 7 wrote one minute ago, which the
    handler noted under the number 7, and the last proactive message went
    out three hours ago. [getUserIds] lists the user as the string ['7.0'];
    under that key [lastInteractionTime] has no entry, the time since the
    last interaction is taken from 0, and the sweep sends a message although
    the user was active a minute ago. The message goes to the chat ['7.0']
    and the stamp is written under ['7.0']. *)
Theorem sweep_messages_an_active_user :
  let now := 1700000000000 in
  let w := one_user_world now (now - 60000) (now - 3 * 3600000) in
  lastInteractionTime w = {[ IdNum 7 := now - 60000 ]} /\
  ~ (USER_INACTIVE_THRESHOLD < now - or_zero (lastInteractionTime w !! IdNum 7)) /\
  Store.getUserIds (memory w) = Ok [lit "7.0"] /\
  lastInteractionTime w !! IdStr (lit "7.0") = None /\
  new_events initiateActiveConversation w
  = [ EvPost
        [ system_message (lit "You are Rose." ++ [26379; 21451]%N);
          user_message (active_prompt [26379; 21451]%N (lit "calm") [] None 2) ]
        (HttpBody (Some (lit "hey")));
      EvSendMessage (IdStr (lit "7.0")) (lit "hey") true ] /\
  lastActiveMessageTime (snd (initiateActiveConversation w))
  = {[ IdStr (lit "7.0") := now ]}.
Proof.
  cbv zeta. split; [reflexivity|]. split; [vm_compute; by intros [=]|].
  split; [vm_compute; reflexivity|]. split; [vm_compute; reflexivity|].
  split; vm_compute; reflexivity.
Qed.

(** The two sweeps of the specification's example, with the times as the
    sweep reads them: nothing under the user's string for the last
    interaction and a last proactive message 3 hours ago, one message goes
    out and the stamp moves; last contacted 30 minutes ago, nothing goes
    out. *)
Example sweep_31_minutes_3_hours :
  new_events initiateActiveConversation
    (one_user_world 100000000 (100000000 - 31 * 60000) (100000000 - 180 * 60000))
  = [ EvPost
        [ system_message (lit "You are Rose." ++ [26379; 21451]%N);
          user_message (active_prompt [26379; 21451]%N (lit "calm") [] None 2) ]
        (HttpBody (Some (lit "hey")));
      EvSendMessage (IdStr (lit "7.0")) (lit "hey") true ] /\
  lastActiveMessageTime
    (snd (initiateActiveConversation
       (one_user_world 100000000 (100000000 - 31 * 60000) (100000000 - 180 * 60000))))
    !! IdStr (lit "7.0") = Some 100000000.
Proof. split; vm_compute; reflexivity. Qed.

Example sweep_30_minutes_since_proactive :
  new_events initiateActiveConversation
    (one_user_world 100000000 (100000000 - 31 * 60000) (100000000 - 30 * 60000)) = [] /\
  lastActiveMessageTime
    (snd (initiateActiveConversation
       (one_user_world 100000000 (100000000 - 31 * 60000) (100000000 - 30 * 60000))))
    !! IdStr (lit "7.0") = Some (100000000 - 30 * 60000).
Proof. split; vm_compute; reflexivity. Qed.

(** ** The fact extractor *)

Global Instance asked_only_preorder (messages : list ChatMessage) :
  PreOrder (asked_only messages).
Proof.
  split.
  - intros w. exists []. by rewrite app_nil_r.
  - intros w1 w2 w3 (e1 & L1 & F1) (e2 & L2 & F2).
    exists (e1 ++ e2). split; [by rewrite L2, L1, app_assoc|by apply Forall_app].
Qed.

Lemma asked_only_tick (messages : list ChatMessage) (e : Event) (spent : Z) (w : World) :
  is_request_of messages e -> asked_only messages w (tick e spent w).
Proof. intros He. exists [e]. split; [done|by repeat constructor]. Qed.

Lemma keeps_asked_attempts (remaining : nat) (attempt : Z) (lastError : option JsError)
    (messages : list ChatMessage) :
  keeps (asked_only messages) (attempts remaining attempt lastError messages).
Proof.
  revert attempt lastError.
  induction remaining as [|k IH]; intros attempt lastError; simpl.
  - apply keeps_throw, _.
  - apply keeps_bind; [apply _| |].
    + unfold attempt_once.
      assert (Hsleep : forall ms, keeps (asked_only messages) (sleep ms)).
      { intros ms w. by apply asked_only_tick. }
      apply keeps_try_catch; [apply _| |].
      * apply keeps_bind; [apply _| |].
        -- intros w. unfold axios_post.
           destruct (http (outside w) (posts (log w)) messages);
             by apply asked_only_tick.
        -- intros content. destruct (no_content content); [|apply keeps_mret, _].
           destruct (attempt =? maxRetries); [apply keeps_throw, _|].
           apply keeps_bind; [apply _|apply Hsleep|].
           intros _. apply keeps_mret, _.
      * intros err. destruct (attempt =? maxRetries); [apply keeps_throw, _|].
        apply keeps_bind; [apply _|apply Hsleep|].
        intros _. apply keeps_mret, _.
    + intros [content|lastError']; [apply keeps_mret, _|apply IH].
Qed.

Lemma keeps_asked_chatWithLLM (messages : list ChatMessage) :
  keeps (asked_only messages) (chatWithLLM messages).
Proof.
  unfold chatWithLLM. destruct messages; [apply keeps_throw, _|].
  apply keeps_asked_attempts.
Qed.

(** Recording facts that pass validation on an open store: one
    [addImportantFact] after the other, none of them throwing. *)
Lemma record_all (u : userId) (facts : list jsstring) (w : World) :
  falsy_id u = false -> Forall (fun f => f <> []) facts -> conn (memory w) = Opened ->
  for_of facts (fun fact => writing (fun now => Store.addImportantFact now u fact)) w
  = (Ok tt, with_memory (run_ops (record_facts (clock w) u facts) (memory w)) w).
Proof.
  intros Hu Hfacts. revert w.
  induction Hfacts as [|f facts Hf _ IH]; intros w Hc; simpl.
  - by destruct w.
  - unfold mbind, M_bind, writing at 1.
    assert (Hadd : Store.addImportantFact (clock w) u f (memory w)
                   = Ok (step (memory w) (OpAddImportantFact (clock w) u f))).
    { unfold step, call, Store.addImportantFact, run.
      by rewrite Hu, (proj2 (falsy_string_false f) Hf), Hc. }
    rewrite Hadd. rewrite IH.
    + done.
    + simpl. unfold step, call, Store.addImportantFact, run.
      by rewrite Hu, (proj2 (falsy_string_false f) Hf), Hc.
Qed.

(** Which lines of a response become facts. *)
Lemma parse_facts_spec (result f : jsstring) :
  f ∈ parse_facts result <->
  (exists line, line ∈ split_lines result /\ f = trim (strip_bullet line)) /\
  (3 < length f < 100)%nat.
Proof.
  unfold parse_facts. rewrite list_elem_of_In, filter_In, <- list_elem_of_In.
  rewrite list_elem_of_fmap. unfold fact_sized.
  rewrite !andb_true_iff, !Nat.ltb_lt, negb_true_iff, falsy_string_false.
  split.
  - intros [(line & -> & Hl) [[H3 H100] _]]. split; [eauto|lia].
  - intros [(line & Hl & ->) [H3 H100]]. split; [eauto|].
    split; [done|]. intros E. rewrite E in H3. simpl in H3. lia.
Qed.

Lemma parse_facts_valid (result : jsstring) :
  Forall (fun f => f <> []) (parse_facts result).
Proof.
  apply Forall_forall. intros f Hf. apply parse_facts_spec in Hf as [_ [H3 _]].
  intros ->. simpl in H3. lia.
Qed.

(** [extractImportantFacts] on an open store that holds at least two
    messages of the user: one call of [chatWithLLM], then by its outcome. *)
Lemma extractImportantFacts_run (u : userId) (w : World) :
  falsy_id u = false -> conn (memory w) = Opened ->
  let lastMessages := slice_last 20 (Store.getAll (memory w) u) in
  (2 <= length lastMessages)%nat ->
  let asked := chatWithLLM (extraction_request (imports w) lastMessages) w in
  extractImportantFacts u w =
  match fst asked with
  | Throw _ => (Ok [], snd asked)
  | Ok result =>
      if falsy_string result || bool_decide (result = NOTHING) then (Ok [], snd asked)
      else (Ok (parse_facts result),
            with_memory
              (run_ops (record_facts (clock (snd asked)) u (parse_facts result))
                       (memory w))
              (snd asked))
  end.
Proof.
  intros Hu Hc lastMessages Hlen asked.
  unfold extractImportantFacts. rewrite Hu.
  unfold try_catch at 1. unfold mbind at 1, M_bind at 1. unfold reading at 1.
  fold lastMessages.
  destruct (length lastMessages) as [|[|n]] eqn:El; [lia|lia|].
  cbn [Nat.eqb Nat.ltb Nat.leb]. unfold mbind at 1, M_bind at 1, reading at 1.
  unfold try_catch, mbind, M_bind. fold asked.
  pose proof (keeps_quiet_chatWithLLM (extraction_request (imports w) lastMessages) w)
    as Hq. fold asked in Hq.
  destruct asked as [[result|e] w1]; simpl in *; [|done].
  destruct (falsy_string result || bool_decide (result = NOTHING)); [done|].
  rewrite (record_all u (parse_facts result) w1 Hu (parse_facts_valid result)).
  - by rewrite (quiet_memory _ _ Hq).
  - by rewrite (quiet_memory _ _ Hq).
Qed.

Lemma insertMemory_elem (u : userId) (v f g : jsstring) (now : Z) (d : Tables) :
  (v, g) ∈ fact_key <$> memories (Stmt.insertMemory u f now d) <->
  (v, g) ∈ fact_key <$> memories d \/ (v, g) = (id_text u, f).
Proof.
  unfold Stmt.insertMemory. destruct (Stmt.conflicts u f d) eqn:E.
  - apply conflicts_spec in E. split; [by left|]. by intros [?|[= -> ->]].
  - simpl. rewrite fmap_app, elem_of_app. simpl.
    by rewrite list_elem_of_singleton.
Qed.

(** After the facts were recorded, the user's facts are the ones there were
    and the ones recorded. *)
Lemma record_facts_elem (now : Z) (u : userId) (facts : list jsstring)
    (s : MemoryStore) (f : jsstring) :
  falsy_id u = false -> Forall (fun x => x <> []) facts -> conn s = Opened ->
  f ∈ Stmt.getMemories u (disk (run_ops (record_facts now u facts) s)) <->
  f ∈ Stmt.getMemories u (disk s) \/ f ∈ facts.
Proof.
  intros Hu Hfacts. revert s.
  induction Hfacts as [|g facts Hg _ IH]; intros s Hc; simpl.
  - rewrite elem_of_nil. tauto.
  - assert (Hstep : step s (OpAddImportantFact now u g)
                    = {| conn := Opened; disk := Stmt.insertMemory u g now (disk s) |}).
    { unfold step, call, Store.addImportantFact, run.
      by rewrite Hu, (proj2 (falsy_string_false g) Hg), Hc. }
    fold (run_ops (record_facts now u facts) (step s (OpAddImportantFact now u g))).
    rewrite Hstep, IH by done. simpl.
    rewrite !getMemories_elem, insertMemory_elem, elem_of_cons.
    split.
    + intros [[?|[= ->]]|?]; tauto.
    + intros [?|[->|?]]; tauto.
Qed.

(** ** The trigger of the fact extractor *)

Global Instance unwritten_preorder : PreOrder unwritten.
Proof.
  split.
  - intros w. by split.
  - intros w1 w2 w3 [A1 A2] [B1 B2]. split; congruence.
Qed.

Lemma quiet_unwritten (w w' : World) : quiet w w' -> unwritten w w'.
Proof. intros Hq. split; [apply Hq|apply Hq]. Qed.

Lemma keeps_unwritten_sendMessage (u : userId) (text : jsstring) :
  keeps unwritten (bot_sendMessage u text).
Proof. intros w. unfold bot_sendMessage. by destruct (telegram _ _). Qed.

Lemma keeps_unwritten_sendChatAction (u : userId) (action : jsstring) :
  keeps unwritten (bot_sendChatAction u action).
Proof. intros w. unfold bot_sendChatAction. by destruct (telegram _ _). Qed.

Lemma keeps_unwritten_chatWithLLM (messages : list ChatMessage) :
  keeps unwritten (chatWithLLM messages).
Proof. intros w. apply quiet_unwritten, keeps_quiet_chatWithLLM. Qed.

Lemma keeps_unwritten_apologise (u : userId) : keeps unwritten (apologise u).
Proof.
  unfold apologise. apply keeps_try_catch; [apply _| |].
  - apply keeps_bind; [apply _| |].
    + intros w. by split.
    + intros text. apply keeps_unwritten_sendMessage.
  - intros e. apply keeps_mret, _.
Qed.

Lemma getChatCount_two_more (u : userId) (r1 c1 r2 c2 : jsstring) (t1 t2 : Z)
    (d : Tables) :
  Stmt.getChatCount u (Stmt.insertMessage u r2 c2 t2 (Stmt.insertMessage u r1 c1 t1 d))
  = Stmt.getChatCount u d + 2.
Proof.
  unfold Stmt.getChatCount, messages_of. simpl.
  rewrite !filter_app, !filter_cons, !filter_nil. simpl.
  destruct (decide (id_text u = id_text u)); [|done]. rewrite !length_app. simpl. lia.
Qed.

(** [complete_turn] either throws before anything is stored, or stores the
    exchange and sets the timers. *)
Lemma complete_turn_run (u : userId) (userMessage reply : jsstring) (w w' : World)
    (r : Exc unit) :
  complete_turn u userMessage reply w = (r, w') ->
  (exists e, r = Throw e /\ unwritten w w') \/
  (r = Ok tt /\ completed u userMessage w w').
Proof.
  unfold complete_turn, mbind, M_bind. intros E.
  destruct (4096 <? length reply)%nat.
  { injection E as <- <-. left. eexists. by split. }
  unfold mret at 1, M_ret at 1 in E. unfold bot_sendMessage at 1 in E.
  destruct (telegram (outside w) (bot_calls (log w))).
  2: { injection E as <- <-. left. eexists. by split. }
  unfold writing at 1, Store.add at 1, run in E. cbn [clock memory tick] in E.
  destruct (falsy_id u) eqn:Eu.
  { injection E as <- <-. left. eexists. by split. }
  change (falsy_string role_user) with false in E. cbn [orb] in E.
  destruct (conn (memory w)) eqn:Ec.
  1,3: injection E as <- <-; left; eexists; by split.
  unfold writing at 1, Store.add at 1, run in E. cbn [clock memory with_memory conn] in E.
  rewrite Eu in E. change (falsy_string role_assistant) with false in E.
  unfold Date_now, update, reading, Store.getChatCount, query in E.
  cbn [orb clock memory with_memory conn disk tick with_lastMessageTime
       with_lastInteractionTime] in E.
  rewrite getChatCount_two_more in E.
  right.
  assert (Hcount : forall w2 : World,
            memory w2 = {| conn := Opened;
                           disk := Stmt.insertMessage u role_assistant reply
                                     (clock w + 0 + lag (outside w) (length (log w)))
                                     (Stmt.insertMessage u role_user userMessage
                                        (clock w + 0 + lag (outside w) (length (log w)))
                                        (disk (memory w))) |} ->
            Store.getChatCount (memory w2) u
            = Ok (Stmt.getChatCount u (disk (memory w)) + 2)).
  { intros w2 ->. unfold Store.getChatCount, query. simpl.
    by rewrite getChatCount_two_more. }
  assert (Hbefore : Store.getChatCount (memory w) u
                    = Ok (Stmt.getChatCount u (disk (memory w)) + 2 - 2)).
  { unfold Store.getChatCount, query. rewrite Ec. f_equal. lia. }
  destruct (Z.rem (Stmt.getChatCount u (disk (memory w)) + 2) 10 =? 0) eqn:Erem;
    unfold setTimeout, update, mret, M_ret in E; cbn [timers with_timers] in E;
    injection E as <- <-; (split; [done|]);
    exists reply, (Stmt.getChatCount u (disk (memory w)) + 2);
    (split; [by apply Hcount|]); (split; [exact Hbefore|]);
    rewrite Erem; cbn [timers with_timers]; by rewrite <- ?app_assoc.
Qed.

Lemma completed_after (u : userId) (userMessage : jsstring) (w w1 w' : World) :
  unwritten w w1 -> completed u userMessage w1 w' -> completed u userMessage w w'.
Proof.
  intros [Hm Ht] (reply & count & H1 & H2 & H3).
  exists reply, count. by rewrite <- Hm, <- Ht.
Qed.

Lemma turn_run (u : userId) (userMessage : jsstring) (userName : option jsstring)
    (w w' : World) (r : Exc unit) :
  turn u userMessage userName w = (r, w') ->
  unwritten w w' \/ (r = Ok tt /\ completed u userMessage w w').
Proof.
  unfold turn. unfold mbind at 1, M_bind at 1.
  set (names := match userName with Some n => _ | None => _ end).
  assert (Hnames : exists w0, names w = (Ok tt, w0) /\ unwritten w w0).
  { unfold names. destruct userName as [n|]; [|by exists w].
    unfold update. eexists. split; [done|]. by destruct (userNames w !! u). }
  destruct Hnames as (w0 & -> & U0).
  destruct (startsWith userMessage (lit "/")).
  { intros [= <- <-]. by left. }
  unfold mbind at 1, M_bind at 1.
  pose proof (keeps_unwritten_sendChatAction u (lit "typing") w0) as U1.
  destruct (bot_sendChatAction u (lit "typing") w0) as [[[]|e1] w1]; simpl in U1.
  2: { intros [= <- <-]. left. by etransitivity. }
  unfold mbind at 1, M_bind at 1, reading at 1.
  destruct (buildMessages w1 u userMessage) as [messages|e2].
  2: { intros [= <- <-]. left. by etransitivity. }
  unfold mbind at 1, M_bind at 1.
  pose proof (keeps_unwritten_chatWithLLM messages w1) as U2.
  destruct (chatWithLLM messages w1) as [[reply|e3] w2]; simpl in U2.
  2: { intros [= <- <-]. left. etransitivity; [|exact U2]. by etransitivity. }
  assert (U : unwritten w w2).
  { etransitivity; [|exact U2]. by etransitivity. }
  destruct (falsy_string reply || (length (trim reply) =? 0)%nat).
  - intros E. left. etransitivity; [exact U|].
    pose proof (keeps_unwritten_sendMessage u HMM w2) as U3.
    by rewrite E in U3.
  - intros E. apply complete_turn_run in E as [(e & -> & U3)|[-> Hc]].
    + left. by etransitivity.
    + right. split; [done|]. by eapply completed_after.
Qed.

(** What a call of [handleMessage] does to the store and the timers: nothing,
    or it completed the turn of the message it was given. *)
Lemma handleMessage_timers (msg : Msg) (w : World) :
  unwritten w (snd (handleMessage msg w)) \/
  exists u userMessage,
    msg_chat msg = Some u /\ msg_text msg = Some userMessage /\
    completed (IdNum u) userMessage w (snd (handleMessage msg w)).
Proof.
  unfold handleMessage.
  destruct (msg_chat msg) as [u|]; [|by left].
  destruct (msg_text msg) as [userMessage|]; [|by left].
  destruct (falsy_string userMessage); [by left|].
  destruct (falsy_number u); [by left|].
  destruct (1000 <? length userMessage)%nat.
  { left. apply keeps_try_catch; [apply _|apply keeps_unwritten_sendMessage|].
    intros e. apply keeps_mret, _. }
  unfold try_catch.
  destruct (turn (IdNum u) userMessage (sender_name msg) w) as [r w1] eqn:E.
  apply turn_run in E as [U|[-> Hc]].
  - left. destruct r; [done|].
    etransitivity; [exact U|apply keeps_unwritten_apologise].
  - right. by exists u, userMessage.
Qed.

Lemma slice_last_suffix {A : Type} (n : nat) (l : list A) :
  (length (slice_last n l) <= n)%nat /\ slice_last n l `suffix_of` l.
Proof.
  unfold slice_last. split; [rewrite length_drop; lia|apply suffix_drop].
Qed.

(* ===================================================================== *)
(** * Part III: more of the store                                         *)
(* ===================================================================== *)

Lemma filter_self_other {A : Type} (key : A -> jsstring) (t : jsstring) (l : list A) :
  filter (fun r => key r = t) (filter (fun r => key r <> t) l) = [].
Proof.
  apply filter_nil_Forall, Forall_forall. intros r Hr.
  by apply list_elem_of_filter in Hr as [Hne _].
Qed.

Lemma sql_limit_nil {A : Type} (n : Z) (k : nat) : sql_limit n k (@nil A) = [].
Proof. unfold sql_limit. rewrite drop_nil. by destruct (n <? 0); rewrite ?take_nil. Qed.

Lemma remove_dups_elem_fmap (u : jsstring) (l : list MessageRow) :
  u ∈ remove_dups (msg_user_id <$> l) <->
  (0 < length (filter (fun r => msg_user_id r = u) l))%nat.
Proof.
  rewrite elem_of_remove_dups, list_elem_of_fmap. split.
  - intros (r & -> & Hr).
    assert (Hin : r ∈ filter (fun r' => msg_user_id r' = msg_user_id r) l)
      by (by apply list_elem_of_filter).
    destruct (filter _ l); [by apply elem_of_nil in Hin|simpl; lia].
  - intros Hlen. destruct (filter _ l) as [|r rest] eqn:E; [simpl in Hlen; lia|].
    assert (Hin : r ∈ filter (fun r' => msg_user_id r' = u) l)
      by (rewrite E; apply list_elem_of_here).
    apply list_elem_of_filter in Hin as [Hu Hin]. eauto.
Qed.

Lemma getUserIds_elem (t : jsstring) (d : Tables) :
  t ∈ Stmt.getUserIds d <->
  (0 < length (filter (fun r => msg_user_id r = t) (messages d)))%nat.
Proof.
  unfold Stmt.getUserIds. rewrite by_text_perm. apply remove_dups_elem_fmap.
Qed.

(** After [clear(u)] on an open store every read for [u] is empty: no
    message under any limit, no fact, no mood, a count of zero, and the
    text of [u] is no longer among the user ids. *)
Theorem clear_then_reads (s : MemoryStore) (u : userId) :
  conn s = Opened ->
  exists s',
    Store.clear u s = Ok s' /\
    Store.getAll s' u = [] /\
    (forall limit, Store.getRecent s' u limit = []) /\
    Store.getImportantFacts s' u = Ok [] /\
    Store.getRecentMood s' u = Ok None /\
    Store.getChatCount s' u = Ok 0 /\
    exists ids, Store.getUserIds s' = Ok ids /\ id_text u ∉ ids.
Proof.
  intros Hc. unfold Store.clear, run. rewrite Hc. simpl.
  eexists. split; [done|].
  unfold Store.getAll, Store.getRecent, Store.getImportantFacts, Store.getRecentMood,
    Store.getChatCount, Store.getUserIds, query. simpl.
  unfold Stmt.getAllMessages, Stmt.getRecentMessages, Stmt.recentRows, Stmt.getMemories,
    Stmt.getMood, Stmt.getChatCount, messages_of, memories_of, moods_of.
  cbn [messages memories moods Stmt.clearMessages Stmt.clearMemories Stmt.clearMoods].
  rewrite !filter_self_other. unfold order_by_desc, sorter_desc. simpl.
  repeat split; try done.
  - intros limit. by rewrite reverse_nil, sql_limit_nil.
  - eexists. split; [done|]. rewrite getUserIds_elem.
    cbn [messages Stmt.clearMessages Stmt.clearMemories Stmt.clearMoods].
    rewrite filter_self_other. simpl. lia.
Qed.

Lemma clear_then_reads_witness :
  exists s',
    Store.clear (IdNum 7) (chat_history (IdNum 7) 3) = Ok s' /\
    Store.getChatCount s' (IdNum 7) = Ok 0.
Proof.
  destruct (clear_then_reads (chat_history (IdNum 7) 3) (IdNum 7) eq_refl)
    as (s' & Hclear & _ & _ & _ & _ & Hcount & _).
  exists s'. by split.
Defined.

(** On an open store the user ids are strings without repetition, and they
    are exactly the texts under which at least one message is stored: the
    text of an id [u], which for a chat id 7 is ['7.0'], is listed if and
    only if [getChatCount(u)] is above zero. Facts and moods alone do not
    make a user known. *)
Theorem getUserIds_known (s : MemoryStore) :
  conn s = Opened ->
  exists ids,
    Store.getUserIds s = Ok ids /\ NoDup ids /\
    forall u : userId,
      id_text u ∈ ids <-> exists n, Store.getChatCount s u = Ok n /\ 0 < n.
Proof.
  intros Hc. unfold Store.getUserIds, Store.getChatCount, query. rewrite Hc.
  eexists. split; [done|]. split; [apply getUserIds_NoDup|].
  intros u. unfold Stmt.getChatCount, messages_of.
  rewrite getUserIds_elem. split.
  - intros Hlen. eexists. split; [done|]. lia.
  - intros (n & [= <-] & Hn). lia.
Qed.

Lemma getUserIds_known_witness :
  exists ids,
    Store.getUserIds (run_ops [OpAddImportantFact 1 (IdNum 8) (lit "plays chess");
                               OpAdd 2 (IdNum 7) role_user (lit "hi")] fresh_store)
    = Ok ids /\
    NoDup ids /\ lit "7.0" ∈ ids /\ lit "8.0" ∉ ids.
Proof.
  destruct (getUserIds_known
              (run_ops [OpAddImportantFact 1 (IdNum 8) (lit "plays chess");
                        OpAdd 2 (IdNum 7) role_user (lit "hi")] fresh_store) eq_refl)
    as (ids & Hids & Hnd & Hknown).
  exists ids. split; [exact Hids|]. split; [exact Hnd|]. split.
  - apply (Hknown (IdNum 7)). exists 1. split; [vm_compute|]; reflexivity.
  - intros Hin. apply (Hknown (IdNum 8)) in Hin as (n & Hn & Hpos).
    vm_compute in Hn. injection Hn as <-. lia.
Defined.

(** [getAll] returns the newest 100 of the user's messages: its length is
    the smaller of 100 and the count that [getChatCount] reports. *)
Theorem getAll_capped (s : MemoryStore) (u : userId) :
  conn s = Opened ->
  exists count,
    Store.getChatCount s u = Ok count /\
    Z.of_nat (length (Store.getAll s u)) = Z.min 100 count.
Proof.
  intros Hc. rewrite getAll_open by done.
  unfold Store.getChatCount, query. rewrite Hc.
  eexists. split; [done|].
  rewrite length_fmap, length_drop, (Permutation_length (order_by_asc_perm _ _)).
  unfold Stmt.getChatCount. lia.
Qed.

Lemma getAll_capped_witness :
  Z.of_nat (length (Store.getAll (chat_history (IdNum 7) 120) (IdNum 7))) = 100.
Proof.
  destruct (getAll_capped (chat_history (IdNum 7) 120) (IdNum 7) eq_refl)
    as (count & Hcount & Hlen).
  rewrite Hlen. injection Hcount as <-. vm_compute. reflexivity.
Defined.

Section OrderBySnoc.
Context {A : Type} (key : A -> Z).

Lemma index_insert_snoc (y x : A) (l : list A) :
  key y <= key x -> index_insert key y (l ++ [x]) = index_insert key y l ++ [x].
Proof.
  intros Hyx. induction l as [|z l IH]; simpl.
  - by rewrite (proj2 (Z.leb_le _ _) Hyx).
  - destruct (key y <=? key z); [done|]. by rewrite IH.
Qed.

(** A row that is not older than any other is the last one by time. *)
Lemma order_by_asc_snoc (x : A) (l : list A) :
  Forall (fun y => key y <= key x) l ->
  order_by_asc key (l ++ [x]) = order_by_asc key l ++ [x].
Proof.
  unfold order_by_asc. rewrite foldr_app. simpl.
  induction 1 as [|y l Hy _ IH]; simpl; [done|].
  rewrite IH. by apply index_insert_snoc.
Qed.

End OrderBySnoc.

Lemma same_reads_ext (s s' : MemoryStore) (v : userId) :
  conn s' = conn s ->
  messages_of v (disk s') = messages_of v (disk s) ->
  memories_of v (disk s') = memories_of v (disk s) ->
  moods_of v (disk s') = moods_of v (disk s) ->
  same_reads s s' v.
Proof.
  intros Hc H1 H2 H3. repeat split.
  - intros limit. unfold Store.getRecent, query. rewrite Hc.
    unfold Stmt.getRecentMessages, Stmt.recentRows. by rewrite H1.
  - unfold Store.getAll, query. rewrite Hc.
    unfold Stmt.getAllMessages. by rewrite H1.
  - unfold Store.getImportantFacts, query. rewrite Hc.
    unfold Stmt.getMemories. by rewrite H2.
  - unfold Store.getRecentMood, query. rewrite Hc.
    unfold Stmt.getMood. by rewrite H3.
  - unfold Store.getChatCount, query. rewrite Hc.
    unfold Stmt.getChatCount. by rewrite H1.
Qed.

Lemma same_reads_refl (s : MemoryStore) (v : userId) : same_reads s s v.
Proof. by apply same_reads_ext. Qed.

Lemma filter_snoc_other {A : Type} (key : A -> jsstring) (v : jsstring) (l : list A)
    (x : A) :
  key x <> v -> filter (fun r => key r = v) (l ++ [x]) = filter (fun r => key r = v) l.
Proof.
  intros Hx. rewrite filter_app, filter_cons, filter_nil.
  destruct (decide (key x = v)); [done|]. by rewrite app_nil_r.
Qed.

Lemma filter_snoc_same {A : Type} (key : A -> jsstring) (l : list A) (x : A) :
  filter (fun r => key r = key x) (l ++ [x]) = filter (fun r => key r = key x) l ++ [x].
Proof.
  rewrite filter_app, filter_cons, filter_nil. by destruct (decide (key x = key x)).
Qed.

(** No mood id is used twice and none is above the counter, whatever the
    calls were. *)
Lemma step_ids (s : MemoryStore) (o : StoreOp) :
  NoDup (mood_id <$> moods (disk s)) /\
  Forall (fun r => mood_id r <= moods_seq (disk s)) (moods (disk s)) ->
  NoDup (mood_id <$> moods (disk (step s o))) /\
  Forall (fun r => mood_id r <= moods_seq (disk (step s o))) (moods (disk (step s o))).
Proof.
  intros [Hnd Hseq]. unfold step, call.
  destruct o as [now u r c|now u f|now u m|u]; simpl.
  - unfold Store.add, run.
    by destruct (falsy_id u || falsy_string r), (conn s).
  - unfold Store.addImportantFact, run.
    destruct (falsy_id u || falsy_string f), (conn s); simpl; try done.
    unfold Stmt.insertMemory. by destruct (Stmt.conflicts u f (disk s)).
  - unfold Store.addMood, run.
    destruct (falsy_id u || falsy_string m), (conn s); simpl; try done.
    destruct (insertMood_ids u m now (disk s) Hnd Hseq) as [Hnd' Hseq'].
    split; [by apply ids_kept_by_filter|by apply Forall_filter_keep].
  - unfold Store.clear, run. destruct (conn s); simpl; try done.
    split; [by apply ids_kept_by_filter|by apply Forall_filter_keep].
Qed.

Lemma run_ops_ids (ops : list StoreOp) (s : MemoryStore) :
  NoDup (mood_id <$> moods (disk s)) /\
  Forall (fun r => mood_id r <= moods_seq (disk s)) (moods (disk s)) ->
  NoDup (mood_id <$> moods (disk (run_ops ops s))) /\
  Forall (fun r => mood_id r <= moods_seq (disk (run_ops ops s)))
         (moods (disk (run_ops ops s))).
Proof.
  revert s. induction ops as [|o ops IH]; intros s Hs; simpl; [done|].
  by apply IH, step_ids.
Qed.

(** A writing call for one user, accepted or not, leaves every read for
    every user whose id is stored as another text as it was: this holds for
    [add], [addImportantFact], [addMood] (whose trim deletes by row id) and
    [clear], after any sequence of calls on a new store. *)
Theorem write_frame (ops : list StoreOp) (o : StoreOp) (v : userId) :
  id_text (op_user o) <> id_text v ->
  same_reads (run_ops ops fresh_store) (step (run_ops ops fresh_store) o) v.
Proof.
  intros Huv.
  destruct (run_ops_ids ops fresh_store) as [Hnd Hseq]; [split; simpl; constructor|].
  set (s := run_ops ops fresh_store) in *.
  unfold step, call.
  destruct o as [now u r c|now u f|now u m|u]; simpl in Huv.
  - unfold Store.add, run.
    destruct (falsy_id u || falsy_string r); [apply same_reads_refl|].
    destruct (conn s) eqn:Hc; try apply same_reads_refl.
    apply same_reads_ext; simpl; try done.
    unfold messages_of. simpl. by apply (filter_snoc_other msg_user_id).
  - unfold Store.addImportantFact, run.
    destruct (falsy_id u || falsy_string f); [apply same_reads_refl|].
    destruct (conn s) eqn:Hc; try apply same_reads_refl.
    apply same_reads_ext; simpl; try done;
      unfold Stmt.insertMemory; destruct (Stmt.conflicts u f (disk s)); try done.
    unfold memories_of. simpl. by apply (filter_snoc_other mem_user_id).
  - unfold Store.addMood, run.
    destruct (falsy_id u || falsy_string m); [apply same_reads_refl|].
    destruct (conn s) eqn:Hc; try apply same_reads_refl.
    apply same_reads_ext; simpl; try done.
    by apply addMood_other.
  - unfold Store.clear, run.
    destruct (conn s) eqn:Hc; try apply same_reads_refl.
    apply same_reads_ext; simpl; try done.
    + by apply (filter_other msg_user_id).
    + by apply (filter_other mem_user_id).
    + by apply (filter_other mood_user_id).
Qed.

Lemma write_frame_witness :
  same_reads (run_ops [OpAddMood 1 (IdNum 8) (lit "calm")] fresh_store)
             (step (run_ops [OpAddMood 1 (IdNum 8) (lit "calm")] fresh_store)
                   (OpAddMood 2 (IdNum 7) (lit "glad"))) (IdNum 8).
Proof.
  apply (write_frame [OpAddMood 1 (IdNum 8) (lit "calm")]
                     (OpAddMood 2 (IdNum 7) (lit "glad")) (IdNum 8)).
  vm_compute. discriminate.
Defined.

Lemma drop_snoc_le {A : Type} (n : nat) (l : list A) (x : A) :
  (n <= length l)%nat -> drop n (l ++ [x]) = drop n l ++ [x].
Proof.
  intros Hn. rewrite drop_app. replace (n - length l)%nat with 0%nat by lia. done.
Qed.

(** An accepted [add] whose time is not before the user's stored messages:
    the count goes up by one, [getRecent] with a limit from 1 to 50 is the
    read with one less before the call followed by the new message, and
    [getAll] is the last 100 of what it was followed by the new message. *)
Theorem add_then_read (s : MemoryStore) (now : Z) (u : userId) (r c : jsstring) :
  conn s = Opened -> falsy_id u = false -> r <> [] ->
  Forall (fun row => msg_created_at row <= now) (messages_of u (disk s)) ->
  let m := {| role := r; content := c |} in
  exists s' count,
    Store.add now u r c s = Ok s' /\
    Store.getChatCount s u = Ok count /\
    Store.getChatCount s' u = Ok (count + 1) /\
    (forall n, 1 <= n <= 50 ->
       Store.getRecent s' u n = Store.getRecent s u (n - 1) ++ [m]) /\
    Store.getAll s' u = slice_last 100 (Store.getAll s u ++ [m]).
Proof.
  intros Hc Hu Hr Hnow m. unfold Store.add, run.
  rewrite Hu, (proj2 (falsy_string_false r) Hr), Hc.
  simpl. eexists _, _. split; [done|].
  set (row := {| msg_user_id := id_text u; msg_role := r; msg_content := c;
                 msg_created_at := now |}).
  set (s' := {| conn := Opened; disk := Stmt.insertMessage u r c now (disk s) |}).
  assert (Hrows : messages_of u (disk s') = messages_of u (disk s) ++ [row]).
  { unfold messages_of. simpl. apply (filter_snoc_same msg_user_id _ row). }
  assert (Hlen : length (order_by_asc msg_created_at (messages_of u (disk s)))
                 = length (messages_of u (disk s)))
    by apply Permutation_length, order_by_asc_perm.
  unfold Store.getChatCount, query. rewrite Hc. simpl. split; [done|].
  unfold Stmt.getChatCount. fold row. fold s'.
  split; [|split].
  - change (disk s') with (Stmt.insertMessage u r c now (disk s)) in Hrows.
    rewrite Hrows, length_app. simpl. f_equal. lia.
  - intros n Hn. rewrite !getRecent_open by (done || lia).
    rewrite Hrows, (order_by_asc_snoc msg_created_at row) by done.
    rewrite length_app. simpl.
    rewrite drop_snoc_le by lia. rewrite fmap_app. simpl. do 3 f_equal. lia.
  - rewrite !getAll_open by done.
    rewrite Hrows, (order_by_asc_snoc msg_created_at row) by done.
    rewrite length_app. simpl. unfold slice_last.
    rewrite drop_snoc_le by lia. rewrite fmap_app. simpl.
    rewrite drop_snoc_le by (rewrite length_app, length_fmap, length_drop; simpl; lia).
    rewrite length_app, length_fmap, length_drop, Hlen. simpl.
    f_equal. rewrite <- !fmap_drop, drop_drop. do 2 f_equal. lia.
Qed.

Lemma add_then_read_witness :
  exists s',
    Store.add 9 (IdNum 7) role_user (lit "bye") (chat_history (IdNum 7) 3) = Ok s' /\
    Store.getRecent s' (IdNum 7) 2
    = Store.getRecent (chat_history (IdNum 7) 3) (IdNum 7) 1 ++
      [{| role := role_user; content := lit "bye" |}].
Proof.
  destruct (add_then_read (chat_history (IdNum 7) 3) 9 (IdNum 7) role_user (lit "bye"))
    as (s' & count & Hadd & _ & _ & Hrecent & _).
  - reflexivity.
  - reflexivity.
  - discriminate.
  - vm_compute. repeat constructor; discriminate.
  - exists s'. split; [exact Hadd|]. apply (Hrecent 2). lia.
Defined.

(** A row that is newer than every other is the first one the sorter
    returns. *)
Lemma sorter_desc_snoc {A : Type} (key : A -> Z) (x : A) (l : list A) :
  Forall (fun y => key y < key x) l ->
  sorter_desc key (l ++ [x]) = x :: sorter_desc key l.
Proof.
  unfold sorter_desc, order_by_asc. rewrite foldr_app. simpl.
  induction 1 as [|y l Hy _ IH]; simpl; [done|].
  rewrite IH. simpl.
  destruct (- key y <=? - key x) eqn:E; [apply Z.leb_le in E; lia|done].
Qed.

(** An accepted [addImportantFact] of a fact the user does not have yet, at
    a time after the times of the user's stored facts, puts the fact at the
    head of what [getImportantFacts] returns and leaves the others in their
    order. *)
Theorem addImportantFact_newest_first (s : MemoryStore) (now : Z) (u : userId)
    (f : jsstring) (facts : list jsstring) :
  conn s = Opened -> falsy_id u = false -> f <> [] ->
  Store.getImportantFacts s u = Ok facts -> f ∉ facts ->
  Forall (fun row => mem_created_at row < now) (memories_of u (disk s)) ->
  exists s',
    Store.addImportantFact now u f s = Ok s' /\
    Store.getImportantFacts s' u = Ok (f :: facts).
Proof.
  intros Hc Hu Hf Hfacts Hnew Hnow. unfold Store.addImportantFact, run.
  rewrite Hu, (proj2 (falsy_string_false f) Hf), Hc.
  simpl. eexists. split; [done|].
  unfold Store.getImportantFacts, query in *. rewrite Hc in Hfacts. simpl.
  injection Hfacts as <-. f_equal.
  unfold Stmt.insertMemory.
  destruct (Stmt.conflicts u f (disk s)) eqn:E.
  - exfalso. apply Hnew. apply getMemories_elem. by apply conflicts_spec.
  - unfold Stmt.getMemories, memories_of. simpl.
    set (row := {| mem_user_id := id_text u; mem_fact := f; mem_created_at := now |}).
    rewrite (filter_snoc_same mem_user_id _ row).
    by rewrite (sorter_desc_snoc mem_created_at row).
Qed.

Lemma addImportantFact_newest_first_witness :
  exists s',
    Store.addImportantFact 5 (IdNum 7) (lit "plays chess")
      (run_ops [OpAddImportantFact 1 (IdNum 7) (lit "likes cats")] fresh_store) = Ok s' /\
    Store.getImportantFacts s' (IdNum 7) = Ok [lit "plays chess"; lit "likes cats"].
Proof.
  apply (addImportantFact_newest_first
           (run_ops [OpAddImportantFact 1 (IdNum 7) (lit "likes cats")] fresh_store)
           5 (IdNum 7) (lit "plays chess") [lit "likes cats"]).
  - reflexivity.
  - reflexivity.
  - discriminate.
  - reflexivity.
  - vm_compute. intros Hin. apply list_elem_of_singleton in Hin. discriminate.
  - vm_compute. repeat constructor.
Defined.

(* ===================================================================== *)
(** * Part IV: more of index.js                                           *)
(* ===================================================================== *)

(** ** The hourly cleanup *)

Lemma with_lastMessageTime_same (w : World) :
  with_lastMessageTime (lastMessageTime w) w = w.
Proof. by destruct w. Qed.

Lemma prune_lookup (now : Z) (l : list (ChatId * Z)) (m : gmap ChatId Z) (k : ChatId) :
  foldl (prune now) m l !! k
  = match m !! k with
    | Some v =>
        if bool_decide (Exists (fun e => e.1 = k /\ CLEANUP_THRESHOLD < now - e.2) l)
        then None else Some v
    | None => None
    end.
Proof.
  revert m. induction l as [|e l IH]; intros m; simpl.
  - by destruct (m !! k).
  - rewrite IH. unfold prune.
    destruct (CLEANUP_THRESHOLD <? now - e.2) eqn:E.
    + apply Z.ltb_lt in E. destruct (decide (e.1 = k)) as [<-|Hne].
      * rewrite lookup_delete_eq. destruct (m !! e.1); [|done].
        rewrite bool_decide_eq_true_2; [done|]. by left.
      * rewrite lookup_delete_ne by done. destruct (m !! k); [|done].
        apply (f_equal (fun b : bool => if b then None else Some z)).
        apply bool_decide_ext. rewrite Exists_cons. tauto.
    + apply Z.ltb_ge in E. destruct (m !! k); [|done].
      apply (f_equal (fun b : bool => if b then None else Some z)).
      apply bool_decide_ext. rewrite Exists_cons. split; [by right|].
      intros [[_ Hlt]|Hex]; [lia|done].
Qed.

Lemma prune_all (now : Z) (m : gmap ChatId Z) (k : ChatId) :
  foldl (prune now) m (map_to_list m) !! k
  = match m !! k with
    | Some v => if CLEANUP_THRESHOLD <? now - v then None else Some v
    | None => None
    end.
Proof.
  rewrite prune_lookup. destruct (m !! k) as [v|] eqn:Hk; [|done].
  destruct (CLEANUP_THRESHOLD <? now - v) eqn:E.
  - apply Z.ltb_lt in E. rewrite bool_decide_eq_true_2; [done|].
    apply Exists_exists. exists (k, v). split; [by apply elem_of_map_to_list|done].
  - apply Z.ltb_ge in E. rewrite bool_decide_eq_false_2; [done|].
    intros ([k' v'] & Hin & Hk' & Hlt)%Exists_exists. simpl in *. subst k'.
    apply elem_of_map_to_list in Hin. rewrite Hk in Hin. injection Hin as ->. lia.
Qed.

Lemma bind_ok {A B : Type} (m : M A) (f : A -> M B) (w w1 : World) (a : A) :
  m w = (Ok a, w1) -> (m ≫= f) w = f a w1.
Proof. unfold mbind, M_bind. by intros ->. Qed.

Lemma bind_throw {A B : Type} (m : M A) (f : A -> M B) (w w1 : World) (e : JsError) :
  m w = (Throw e, w1) -> (m ≫= f) w = (Throw e, w1).
Proof. unfold mbind, M_bind. by intros ->. Qed.

Lemma cleanup_first_loop (now : Z) (l : list (ChatId * Z)) (w : World) :
  for_of l (fun entry =>
    if CLEANUP_THRESHOLD <? now - entry.2
    then update (fun w => with_lastMessageTime (delete entry.1 (lastMessageTime w)) w)
    else mret tt) w
  = (Ok tt, with_lastMessageTime (foldl (prune now) (lastMessageTime w) l) w).
Proof.
  revert w. induction l as [|e l IH]; intros w; simpl.
  - by rewrite with_lastMessageTime_same.
  - unfold mbind, M_bind, prune at 2.
    destruct (CLEANUP_THRESHOLD <? now - e.2); simpl; by rewrite IH.
Qed.

Lemma cleanup_second_loop (now : Z) (l : list (ChatId * jsstring)) (w : World) :
  (forall k t, lastMessageTime w !! k = Some t -> now - t <= CLEANUP_THRESHOLD) ->
  for_of l (fun entry =>
    lastTime ← reading (fun w => Ok (lastMessageTime w !! entry.1));
    if stale now lastTime
    then update (fun w => with_userNames (delete entry.1 (userNames w)) w)
    else mret tt) w
  = (Ok tt, w).
Proof.
  intros Hfresh. induction l as [|e l IH]; simpl; [done|].
  unfold mbind, M_bind, reading.
  assert (Hstale : stale now (lastMessageTime w !! e.1) = false).
  { unfold stale. destruct (lastMessageTime w !! e.1) as [t|] eqn:Ht; [|done].
    apply Hfresh in Ht. rewrite (proj2 (Z.ltb_ge _ _)) by lia. apply andb_false_r. }
  rewrite Hstale. simpl. exact IH.
Qed.

(** The hourly cleanup never throws; it keeps in [lastMessageTime] exactly
    the entries that are at most seven days old, and it never removes an
    entry of [userNames]: its second loop looks the user up in
    [lastMessageTime] after the first loop has pruned it, so it finds no
    entry older than the threshold. The store, the other maps, the log and
    the timers are as before. *)
Theorem cleanup_prunes_times_only (w : World) :
  exists w',
    cleanup w = (Ok tt, w') /\
    (forall u,
       lastMessageTime w' !! u
       = match lastMessageTime w !! u with
         | Some t => if CLEANUP_THRESHOLD <? clock w - t then None else Some t
         | None => None
         end) /\
    userNames w' = userNames w /\
    memory w' = memory w /\
    lastInteractionTime w' = lastInteractionTime w /\
    lastActiveMessageTime w' = lastActiveMessageTime w /\
    log w' = log w /\ timers w' = timers w.
Proof.
  set (w1 := with_lastMessageTime
               (foldl (prune (clock w)) (lastMessageTime w)
                      (map_to_list (lastMessageTime w))) w).
  exists w1. split.
  - unfold cleanup.
    erewrite bind_ok; [|reflexivity].
    erewrite bind_ok; [|reflexivity].
    erewrite bind_ok; [|apply cleanup_first_loop].
    erewrite bind_ok; [|reflexivity].
    apply cleanup_second_loop.
    intros k t. unfold w1. cbn [lastMessageTime with_lastMessageTime].
    rewrite prune_all.
    destruct (lastMessageTime w !! k) as [v|]; [|done].
    destruct (CLEANUP_THRESHOLD <? clock w - v) eqn:E; [done|].
    intros [= <-]. by apply Z.ltb_ge.
  - repeat split. intros u. apply prune_all.
Qed.

(** ** The context assembler, again *)

(** [getTimeGap] by the age of the user's last message: no hint when the
    user has no entry, or below one hour (a clock that ran backwards
    included); the brief hint from one hour up to six; from six hours on
    the hint that names the full hours. *)
Theorem getTimeGap_thresholds (w : World) (u : userId) (lastTime : Z) :
  lastMessageTime w !! u = Some lastTime -> lastTime <> 0 ->
  let gap := clock w - lastTime in
  (gap < HOUR -> getTimeGap w u = None) /\
  (HOUR <= gap < 6 * HOUR -> getTimeGap w u = Some HINT_BRIEF) /\
  (6 * HOUR <= gap -> getTimeGap w u = Some (hint_hours (gap / HOUR))).
Proof.
  intros Hu Ht gap. unfold getTimeGap. rewrite Hu.
  rewrite (proj2 (falsy_number_false lastTime) Ht). cbv zeta. fold gap.
  change (1000 * 60 * 60) with HOUR.
  assert (HH : 0 < HOUR) by done.
  repeat split.
  - intros Hlt.
    assert (gap / HOUR < 1) by (apply Z.div_lt_upper_bound; lia).
    rewrite (proj2 (Z.leb_gt _ _)) by lia. by rewrite (proj2 (Z.leb_gt _ _)) by lia.
  - intros [H1 H6].
    assert (gap / HOUR < 6) by (apply Z.div_lt_upper_bound; lia).
    assert (1 <= gap / HOUR) by (apply Z.div_le_lower_bound; lia).
    rewrite (proj2 (Z.leb_gt _ _)) by lia. by rewrite (proj2 (Z.leb_le _ _)) by lia.
  - intros H6.
    assert (6 <= gap / HOUR) by (apply Z.div_le_lower_bound; lia).
    by rewrite (proj2 (Z.leb_le _ _)) by lia.
Qed.

Lemma getTimeGap_thresholds_witness :
  getTimeGap (with_lastMessageTime {[ IdNum 7 := 1000 ]}
                (one_user_world (1000 + 7 * HOUR + 5) 0 0)) (IdNum 7)
  = Some (hint_hours 7).
Proof.
  apply (getTimeGap_thresholds
           (with_lastMessageTime {[ IdNum 7 := 1000 ]}
              (one_user_world (1000 + 7 * HOUR + 5) 0 0))
           (IdNum 7) 1000); [reflexivity|lia|vm_compute; discriminate].
Defined.

Lemma getRecent_length (s : MemoryStore) (u : userId) (n : Z) :
  0 <= n -> (length (Store.getRecent s u n) <= Z.to_nat (Z.min n 50))%nat.
Proof.
  intros Hn. destruct (conn s) eqn:Hc.
  2: { rewrite getRecent_open by done.
       rewrite length_fmap, length_drop, (Permutation_length (order_by_asc_perm _ _)).
       lia. }
  all: unfold Store.getRecent, query; rewrite Hc; simpl; lia.
Qed.

(** What [buildMessages] returns for arguments that are not falsy. *)
Lemma buildMessages_cases (w : World) (u : userId) (userMessage : jsstring) :
  falsy_id u = false -> userMessage <> [] ->
  exists systemPrompt hint,
    (length hint <= 1)%nat /\
    (buildMessages w u userMessage
     = Ok (system_message systemPrompt
           :: (Store.getRecent (memory w) u (MEMORY_LIMIT (imports w)) ++ hint)
              ++ [user_message userMessage])
     \/ buildMessages w u userMessage
        = Ok (system_message systemPrompt :: [] ++ [user_message userMessage])).
Proof.
  intros Hu Hm. unfold buildMessages.
  rewrite Hu, (proj2 (falsy_string_false _) Hm). simpl.
  unfold catching, assemble, mbind, Exc_bind, mret, Exc_ret.
  destruct (Store.getImportantFacts (memory w) u);
    [|exists (buildSystemPrompt (imports w) no_args), []; split; [simpl; lia|by right]].
  destruct (Store.getChatCount (memory w) u);
    [|exists (buildSystemPrompt (imports w) no_args), []; split; [simpl; lia|by right]].
  destruct (Store.getRecentMood (memory w) u);
    [|exists (buildSystemPrompt (imports w) no_args), []; split; [simpl; lia|by right]].
  destruct (getTimeGap w u) as [hint|].
  - eexists _, [_]. split; [simpl; lia|]. left. reflexivity.
  - eexists _, []. split; [simpl; lia|]. left. by rewrite app_nil_r.
Qed.

(** For arguments that are not falsy and a [MEMORY_LIMIT] that is not
    negative, the request [buildMessages] assembles starts with a system
    message, ends with the user message, and has in between at most
    min(MEMORY_LIMIT, 50) stored messages and one time hint: never more
    than 53 messages in all. *)
Theorem buildMessages_bounded (w : World) (u : userId) (userMessage : jsstring) :
  falsy_id u = false -> userMessage <> [] -> 0 <= MEMORY_LIMIT (imports w) ->
  exists systemPrompt middle,
    buildMessages w u userMessage
    = Ok (system_message systemPrompt :: middle ++ [user_message userMessage]) /\
    (length middle <= Z.to_nat (Z.min (MEMORY_LIMIT (imports w)) 50) + 1)%nat /\
    (length (system_message systemPrompt :: middle ++ [user_message userMessage])
     <= 53)%nat.
Proof.
  intros Hu Hm Hlimit.
  destruct (buildMessages_cases w u userMessage Hu Hm)
    as (systemPrompt & hint & Hhint & [Hb|Hb]).
  - exists systemPrompt, (Store.getRecent (memory w) u (MEMORY_LIMIT (imports w)) ++ hint).
    split; [exact Hb|].
    pose proof (getRecent_length (memory w) u (MEMORY_LIMIT (imports w)) Hlimit).
    simpl. rewrite !length_app. simpl. lia.
  - exists systemPrompt, []. split; [exact Hb|]. simpl. lia.
Qed.

Lemma buildMessages_bounded_witness :
  exists systemPrompt middle,
    buildMessages (extraction_world 60) (IdNum 7) (lit "hello")
    = Ok (system_message systemPrompt :: middle ++ [user_message (lit "hello")]) /\
    (length middle <= 21)%nat.
Proof.
  destruct (buildMessages_bounded (extraction_world 60) (IdNum 7) (lit "hello"))
    as (systemPrompt & middle & Hb & Hlen & _).
  - reflexivity.
  - discriminate.
  - vm_compute. discriminate.
  - exists systemPrompt, middle. split; [exact Hb|exact Hlen].
Defined.

(** ** The turn handler, again *)

Global Instance emits_preorder (P : Event -> Prop) : PreOrder (emits P).
Proof.
  split.
  - intros w. exists []. by rewrite app_nil_r.
  - intros w1 w2 w3 (e1 & H1 & F1) (e2 & H2 & F2). exists (e1 ++ e2). split.
    + by rewrite H2, H1, app_assoc.
    + by apply Forall_app.
Qed.

Lemma emits_same_log (P : Event -> Prop) (w w' : World) :
  log w' = log w -> emits P w w'.
Proof. intros Hl. exists []. by rewrite app_nil_r. Qed.

Lemma emits_tick (P : Event -> Prop) (e : Event) (spent : Z) (w : World) :
  P e -> emits P w (tick e spent w).
Proof. intros He. exists [e]. split; [done|by constructor]. Qed.

Lemma emits_impl (P Q : Event -> Prop) (w w' : World) :
  (forall e, P e -> Q e) -> emits P w w' -> emits Q w w'.
Proof.
  intros HPQ (evs & Hl & Hall). exists evs. split; [done|].
  eapply Forall_impl; [exact Hall|exact HPQ].
Qed.

Lemma quiet_emits (w w' : World) : quiet w w' -> emits off_telegram w w'.
Proof. intros Hq. exact (quiet_log _ _ Hq). Qed.

Section Emits.
Context (P : Event -> Prop).

Lemma keeps_emits_update (f : World -> World) :
  (forall w, log (f w) = log w) -> keeps (emits P) (update f).
Proof. intros Hf w. apply emits_same_log. simpl. apply Hf. Qed.

Lemma keeps_emits_setTimeout (t : Timer) : keeps (emits P) (setTimeout t).
Proof. by apply keeps_emits_update. Qed.

Lemma keeps_emits_writing (f : Z -> MemoryStore -> Exc MemoryStore) :
  keeps (emits P) (writing f).
Proof.
  intros w. unfold writing. by destruct (f (clock w) (memory w)); apply emits_same_log.
Qed.

Lemma keeps_emits_sendMessage (u : userId) (text : jsstring) :
  (forall d, P (EvSendMessage u text d)) -> keeps (emits P) (bot_sendMessage u text).
Proof.
  intros HP w. unfold bot_sendMessage.
  destruct (telegram _ _); by apply emits_tick.
Qed.

Lemma keeps_emits_sendChatAction (u : userId) (action : jsstring) :
  (forall d, P (EvSendChatAction u action d)) ->
  keeps (emits P) (bot_sendChatAction u action).
Proof.
  intros HP w. unfold bot_sendChatAction.
  destruct (telegram _ _); by apply emits_tick.
Qed.

Lemma keeps_emits_chatWithLLM (messages : list ChatMessage) :
  (forall e, off_telegram e -> P e) -> keeps (emits P) (chatWithLLM messages).
Proof.
  intros HP w. eapply emits_impl; [exact HP|].
  apply quiet_emits, keeps_quiet_chatWithLLM.
Qed.

Lemma keeps_emits_throw_bind {A B : Type} (e : JsError) (f : A -> M B) :
  keeps (emits P) (throw e ≫= f).
Proof. intros w. reflexivity. Qed.

(** A text drawn from a list of texts of which every one may be sent. *)
Lemma keeps_emits_pick_send (u : userId) (arr : list jsstring) :
  arr <> [] -> (forall text d, text ∈ arr -> P (EvSendMessage u text d)) ->
  keeps (emits P) (text ← pick arr; bot_sendMessage u text).
Proof.
  intros Harr HP w. unfold mbind, M_bind, pick.
  set (k := (random (outside w) (draws w) mod length arr)%nat).
  assert (Hk : (k < length arr)%nat).
  { apply Nat.mod_upper_bound. by destruct arr. }
  destruct (arr !! k) as [text|] eqn:Ht.
  2: { apply lookup_ge_None in Ht.
       exfalso. exact (Nat.lt_irrefl _ (Nat.lt_le_trans _ _ _ Hk Ht)). }
  simpl.
  etransitivity; [|apply keeps_emits_sendMessage].
  - by apply emits_same_log.
  - intros d. apply HP. by eapply list_elem_of_lookup_2.
Qed.

End Emits.

Lemma naturalReplies_polite (u : userId) (text : jsstring) (d : bool) :
  text ∈ naturalReplies -> polite (Some u) (EvSendMessage u text d).
Proof.
  intros Hin. split; [done|].
  unfold naturalReplies in Hin. rewrite !elem_of_cons in Hin.
  destruct Hin as [->|[->|[->|[->|Hin]]]]; try (split; [done|simpl; lia]).
  by apply elem_of_nil in Hin.
Qed.

Lemma off_telegram_polite (chat : option userId) (e : Event) :
  off_telegram e -> polite chat e.
Proof. by destruct e. Qed.

Lemma keeps_polite_apologise (u : userId) : keeps (emits (polite (Some u))) (apologise u).
Proof.
  unfold apologise. apply keeps_try_catch; [apply _| |intros e; apply keeps_mret, _].
  apply keeps_emits_pick_send; [done|]. intros text d. apply naturalReplies_polite.
Qed.

Lemma keeps_polite_complete_turn (u : userId) (userMessage reply : jsstring) :
  reply <> [] -> keeps (emits (polite (Some u))) (complete_turn u userMessage reply).
Proof.
  intros Hr. unfold complete_turn.
  destruct (4096 <? length reply)%nat eqn:E; [apply keeps_emits_throw_bind|].
  apply Nat.ltb_ge in E.
  apply keeps_bind; [apply _|apply keeps_mret, _|intros _].
  apply keeps_bind; [apply _|by apply keeps_emits_sendMessage|intros _].
  apply keeps_bind; [apply _|apply keeps_emits_writing|intros _].
  apply keeps_bind; [apply _|apply keeps_emits_writing|intros _].
  apply keeps_bind; [apply _|apply keeps_Date_now, _|intros now].
  apply keeps_bind; [apply _|by apply keeps_emits_update|intros _].
  apply keeps_bind; [apply _|by apply keeps_emits_update|intros _].
  apply keeps_bind; [apply _|apply keeps_reading, _|intros count].
  apply keeps_bind; [apply _| |intros _; apply keeps_emits_setTimeout].
  destruct (Z.rem count 10 =? 0); [apply keeps_emits_setTimeout|apply keeps_mret, _].
Qed.

Lemma keeps_polite_turn (u : userId) (userMessage : jsstring) (userName : option jsstring) :
  keeps (emits (polite (Some u))) (turn u userMessage userName).
Proof.
  unfold turn. apply keeps_bind; [apply _| |intros _].
  { destruct userName as [n|]; [|apply keeps_mret, _].
    apply keeps_emits_update. intros w. by destruct (userNames w !! u). }
  destruct (startsWith userMessage (lit "/")); [apply keeps_mret, _|].
  apply keeps_bind; [apply _|by apply keeps_emits_sendChatAction|intros _].
  apply keeps_bind; [apply _|apply keeps_reading, _|intros messages].
  apply keeps_bind;
    [apply _|apply keeps_emits_chatWithLLM, off_telegram_polite|intros reply].
  destruct (falsy_string reply || (length (trim reply) =? 0)%nat) eqn:E.
  - apply keeps_emits_sendMessage. intros d. split; [done|]. split; [done|simpl; lia].
  - apply orb_false_iff in E as [E _]. apply falsy_string_false in E.
    by apply keeps_polite_complete_turn.
Qed.

(** [handleMessage] never throws, whatever the message, the store, the
    model and Telegram do; every call of the Bot API it makes goes to the
    chat of the message, and every text it sends is non-empty and at most
    4096 units long. *)
Theorem handleMessage_polite (msg : Msg) (w : World) :
  fst (handleMessage msg w) = Ok tt /\
  emits (polite (IdNum <$> msg_chat msg)) w (snd (handleMessage msg w)).
Proof.
  unfold handleMessage.
  destruct (msg_chat msg) as [u|]; [|split; [done|reflexivity]].
  cbn [fmap option_fmap option_map].
  destruct (msg_text msg) as [userMessage|]; [|split; [done|reflexivity]].
  destruct (falsy_string userMessage); [split; [done|reflexivity]|].
  destruct (falsy_number u); [split; [done|reflexivity]|].
  destruct (1000 <? length userMessage)%nat.
  - split.
    + destruct (total_try_catch (bot_sendMessage (IdNum u) TOO_LONG) (fun _ => mret tt))
        with (w := w) as [[] Hok]; [intros e w'; by exists tt|done].
    + apply keeps_try_catch; [apply _| |intros e; apply keeps_mret, _].
      apply keeps_emits_sendMessage. intros d. split; [done|]. split; [done|simpl; lia].
  - split.
    + destruct (total_try_catch (turn (IdNum u) userMessage (sender_name msg))
                                (fun _ => apologise (IdNum u)))
        with (w := w) as [[] Hok]; [|done].
      intros e. apply total_try_catch. intros e' w'. by exists tt.
    + apply keeps_try_catch; [apply _|apply keeps_polite_turn|].
      intros e. apply keeps_polite_apologise.
Qed.

Lemma buildMessages_cons (w : World) (u : userId) (userMessage : jsstring) :
  falsy_id u = false -> userMessage <> [] ->
  exists m ms, buildMessages w u userMessage = Ok (m :: ms).
Proof.
  intros Hu Hm.
  destruct (buildMessages_cases w u userMessage Hu Hm) as (sp & hint & _ & [Hb|Hb]);
    rewrite Hb; eauto.
Qed.

(** The turn when the model's answer is too long to send: the assignment
    to the constant [reply] throws before anything is sent or stored. *)
Lemma turn_long_reply (u : userId) (userMessage : jsstring) (userName : option jsstring)
    (w : World) :
  falsy_id u = false -> userMessage <> [] -> startsWith userMessage (lit "/") = false ->
  (forall n messages, exists reply,
     http (outside w) n messages = HttpBody (Some reply) /\
     (4096 < length reply)%nat /\ trim reply <> []) ->
  exists e w',
    turn u userMessage userName w = (Throw e, w') /\
    unwritten w w' /\ outside w' = outside w /\
    exists evs, log w' = log w ++ evs /\ sent_to u evs = [].
Proof.
  intros Hu Hm Hslash Hlong. unfold turn. rewrite Hslash.
  set (names := match userName with Some n => _ | None => _ end).
  assert (Hnames : exists w0, names w = (Ok tt, w0) /\ unwritten w w0 /\
                              outside w0 = outside w /\ log w0 = log w).
  { unfold names. destruct userName as [n|]; [|by exists w].
    unfold update. eexists. split; [done|]. by destruct (userNames w !! u). }
  destruct Hnames as (w0 & Hn & U0 & O0 & L0).
  erewrite bind_ok; [|exact Hn].
  destruct (bot_sendChatAction u (lit "typing") w0) as [r1 w1] eqn:Hact.
  assert (Hw1 : exists d, w1 = tick (EvSendChatAction u (lit "typing") d) 0 w0).
  { unfold bot_sendChatAction in Hact.
    destruct (telegram (outside w0) (bot_calls (log w0))); injection Hact as <- <-; eauto. }
  destruct Hw1 as [d Hw1].
  assert (U1 : unwritten w w1) by (subst w1; by destruct U0).
  assert (O1 : outside w1 = outside w) by (by subst w1).
  assert (L1 : log w1 = log w ++ [EvSendChatAction u (lit "typing") d])
    by (subst w1; simpl; by rewrite L0).
  clear Hw1.
  destruct r1 as [[]|e1].
  2: { exists e1, w1. split; [by apply bind_throw|].
       split; [done|]. split; [done|]. by eexists. }
  erewrite bind_ok; [|exact Hact].
  destruct (buildMessages_cons w1 u userMessage Hu Hm) as (m & ms & Hb).
  erewrite bind_ok; [|unfold reading; by rewrite Hb].
  destruct (Hlong (posts (log w1)) (m :: ms)) as (reply & Hhttp & Hlen & Htrim).
  rewrite <- O1 in Hhttp.
  assert (Hreply : reply <> []) by (intros ->; simpl in Hlen; lia).
  erewrite bind_ok.
  2: { unfold chatWithLLM. change (Z.to_nat maxRetries) with 3%nat.
       apply attempts_step_content; [|done]. exact Hhttp. }
  rewrite (proj2 (falsy_string_false reply) Hreply). simpl.
  destruct (length (trim reply) =? 0)%nat eqn:E.
  { apply Nat.eqb_eq in E. by destruct (trim reply). }
  unfold complete_turn. rewrite (proj2 (Nat.ltb_lt _ _) Hlen).
  eexists _, _. split; [reflexivity|].
  split; [by destruct U1|]. split; [done|].
  eexists. split; [simpl; rewrite L1, <- app_assoc; reflexivity|done].
Qed.

(** When every answer of the model is longer than 4096 units (and not
    blank), the reply is never sent, whole or shortened: the handler's
    shortening assigns to a constant, which throws, so the one text the
    user gets is one of the four stock apologies, and nothing is stored
    and no timer is set. *)
Theorem long_reply_never_delivered (msg : Msg) (w : World) (u : Z)
    (userMessage : jsstring) :
  msg_chat msg = Some u -> msg_text msg = Some userMessage ->
  u <> 0 -> userMessage <> [] -> (length userMessage <= 1000)%nat ->
  startsWith userMessage (lit "/") = false ->
  (forall n messages, exists reply,
     http (outside w) n messages = HttpBody (Some reply) /\
     (4096 < length reply)%nat /\ trim reply <> []) ->
  exists before apology delivered w',
    handleMessage msg w = (Ok tt, w') /\
    log w' = log w ++ before ++ [EvSendMessage (IdNum u) apology delivered] /\
    sent_to (IdNum u) before = [] /\
    apology ∈ naturalReplies /\
    unwritten w w'.
Proof.
  intros Hchat Htext Hu Hm Hlen Hslash Hlong.
  unfold handleMessage. rewrite Hchat, Htext.
  rewrite (proj2 (falsy_string_false _) Hm), (proj2 (falsy_number_false u) Hu).
  rewrite (proj2 (Nat.ltb_ge _ _) Hlen).
  destruct (turn_long_reply (IdNum u) userMessage (sender_name msg) w
              (proj2 (falsy_number_false u) Hu) Hm Hslash Hlong)
    as (e & w1 & Hturn & U1 & _ & evs & Hlog & Hsent).
  unfold try_catch. rewrite Hturn.
  unfold apologise, try_catch, mbind, M_bind, pick.
  set (k := (random (outside w1) (draws w1) mod length naturalReplies)%nat).
  assert (Hk : (k < 4)%nat) by (apply Nat.mod_upper_bound; done).
  destruct (naturalReplies !! k) as [text|] eqn:Ht.
  2: { apply lookup_ge_None in Ht. simpl in Ht. lia. }
  cbn [default from_option id]. unfold bot_sendMessage.
  cbn [outside log with_draws].
  exists evs, text, (telegram (outside w1) (bot_calls (log w1))).
  destruct (telegram (outside w1) (bot_calls (log w1)));
    (eexists; split; [reflexivity|]; split; [simpl; rewrite Hlog, <- app_assoc; reflexivity|];
     split; [done|]; split; [by eapply list_elem_of_lookup_2|by destruct U1]).
Qed.

Lemma long_reply_never_delivered_witness :
  exists before apology delivered w',
    handleMessage (text_message 7 (lit "hello"))
      (boot sample_imports long_winded empty_tables 1000) = (Ok tt, w') /\
    log w' = before ++ [EvSendMessage (IdNum 7) apology delivered] /\
    apology ∈ naturalReplies.
Proof.
  destruct (long_reply_never_delivered (text_message 7 (lit "hello"))
              (boot sample_imports long_winded empty_tables 1000) 7 (lit "hello"))
    as (before & apology & delivered & w' & Hrun & Hlog & _ & Hin & _).
  - reflexivity.
  - reflexivity.
  - lia.
  - discriminate.
  - simpl. lia.
  - reflexivity.
  - intros n messages. exists (replicate 5000 97%N).
    split; [reflexivity|]. split; [rewrite length_replicate; lia|].
    vm_compute. discriminate.
  - exists before, apology, delivered, w'. split; [exact Hrun|]. split; [exact Hlog|exact Hin].
Defined.

(** ** The proactive scheduler, again *)

Lemma ensures_bind {A B : Type} (Q : B -> Prop) (m : M A) (f : A -> M B) :
  (forall a, ensures Q (f a)) -> ensures Q (m ≫= f).
Proof.
  intros Hf w b w'. unfold mbind, M_bind.
  destruct (m w) as [[a|e] w1]; [apply Hf|done].
Qed.

Lemma ensures_pick (Q : jsstring -> Prop) (arr : list jsstring) :
  arr <> [] -> Forall Q arr -> ensures Q (pick arr).
Proof.
  intros Harr Hall w a w'. unfold pick. intros [= <- _].
  set (k := (random (outside w) (draws w) mod length arr)%nat).
  assert (Hk : (k < length arr)%nat) by (apply Nat.mod_upper_bound; by destruct arr).
  destruct (arr !! k) as [text|] eqn:Ht.
  - simpl. rewrite Forall_forall in Hall. by eapply Hall, list_elem_of_lookup_2.
  - apply lookup_ge_None in Ht.
    exfalso. exact (Nat.lt_irrefl _ (Nat.lt_le_trans _ _ _ Hk Ht)).
Qed.

(** [generateActiveMessage] never hands back an empty text. *)
Lemma generateActiveMessage_nonempty (u : userId) :
  ensures (fun text => text <> []) (generateActiveMessage u).
Proof.
  assert (Hd : ensures (fun text : jsstring => text <> []) (pick defaultMessages)).
  { apply ensures_pick; [done|]. unfold defaultMessages. by repeat constructor. }
  assert (Hc : ensures (fun text : jsstring => text <> []) (pick defaultMessages_caught)).
  { apply ensures_pick; [done|]. unfold defaultMessages_caught. by repeat constructor. }
  intros w a w'. unfold generateActiveMessage, try_catch.
  match goal with |- context [match ?body w with _ => _ end] =>
    pose proof (fun H => ensures_bind (fun text : jsstring => text <> []) _ _ H
                         : ensures _ body) as Hbody;
    destruct (body w) as [[text|e] w1] eqn:E end.
  - intros [= <- <-]. eapply Hbody; [|exact E].
    intros userName. do 5 (apply ensures_bind; intros ?).
    apply ensures_bind. intros activeMessage.
    destruct (negb (falsy_string activeMessage)
              && (0 <? length (trim activeMessage))%nat) eqn:Ea; [|exact Hd].
    intros w2 t w3 [= <- _]. apply andb_true_iff in Ea as [_ Ea].
    apply Nat.ltb_lt in Ea. intros Hnil. rewrite Hnil in Ea. simpl in Ea. lia.
  - apply Hc.
Qed.

Global Instance only_stamps_preorder (P : Event -> Prop) : PreOrder (only_stamps P).
Proof.
  split.
  - intros w. by split.
  - intros w1 w2 w3 [A1 A2 A3 A4 A5 A6] [B1 B2 B3 B4 B5 B6].
    split; try congruence. by etransitivity.
Qed.

Lemma consider_user_stamps (ids : list jsstring) (s : jsstring) (w : World) :
  s ∈ ids ->
  fst (consider_user (IdStr s) w) = Ok tt /\
  only_stamps (proactive ids) w (snd (consider_user (IdStr s) w)).
Proof.
  intros Hu. pose proof (consider_user_run (IdStr s) w) as Hrun. simpl in Hrun.
  destruct (gates_open _ _ _).
  - destruct Hrun as (text & wg & Hgen & Hq & ->). simpl. split; [done|].
    apply generateActiveMessage_nonempty in Hgen.
    assert (Hwg : only_stamps (proactive ids) w wg).
    { split; try apply Hq. eapply emits_impl; [|apply quiet_emits, Hq].
      intros e. by destruct e. }
    etransitivity; [exact Hwg|]. unfold after_send.
    destruct (telegram (outside wg) (bot_calls (log wg)));
      (split; try done; apply emits_tick || (simpl; apply (emits_tick _ _ 0 wg)));
      (split; [by exists s|done]).
  - rewrite Hrun. simpl. split; [done|reflexivity].
Qed.

Lemma for_of_stamps (ids l : list jsstring) (w : World) :
  l ⊆ ids ->
  fst (for_of (IdStr <$> l) consider_user w) = Ok tt /\
  only_stamps (proactive ids) w (snd (for_of (IdStr <$> l) consider_user w)).
Proof.
  revert w. induction l as [|v l IH]; intros w Hl; simpl.
  - split; [done|reflexivity].
  - destruct (consider_user_stamps ids v w) as [Hok Hs]; [apply Hl; by left|].
    unfold mbind, M_bind.
    destruct (consider_user (IdStr v) w) as [r w1]. simpl in *. subst r.
    destruct (IH w1) as [Hok' Hs']; [intros x Hx; apply Hl; by right|].
    split; [done|]. by etransitivity.
Qed.

(** A sweep of the scheduler never throws and never writes: the store, the
    timers and every map but the stamps of the proactive messages are as
    before. All it sends are non-empty texts to the strings that
    [getUserIds] listed when it started; when [getUserIds] throws it does
    nothing. *)
Theorem sweep_only_stamps (w : World) :
  fst (initiateActiveConversation w) = Ok tt /\
  only_stamps (proactive (listed w)) w (snd (initiateActiveConversation w)).
Proof.
  unfold initiateActiveConversation, try_catch, listed, mbind, M_bind, reading.
  destruct (Store.getUserIds (memory w)) as [ids|e].
  - destruct (for_of_stamps ids ids w) as [Hok Hs]; [done|].
    destruct (for_of (IdStr <$> ids) consider_user w) as [r w1]. simpl in *. by subst r.
  - simpl. split; [done|reflexivity].
Qed.

(** ** The background jobs *)

Global Instance only_store_preorder : PreOrder only_store.
Proof.
  split.
  - intros w. by split.
  - intros w1 w2 w3 [A1 A2 A3 A4 A5 A6] [B1 B2 B3 B4 B5 B6].
    split; try congruence. by etransitivity.
Qed.

Lemma quiet_only_store (w w' : World) : quiet w w' -> only_store w w'.
Proof. intros Hq. split; apply Hq. Qed.

Lemma keeps_store_chatWithLLM (messages : list ChatMessage) :
  keeps only_store (chatWithLLM messages).
Proof. intros w. apply quiet_only_store, keeps_quiet_chatWithLLM. Qed.

Lemma keeps_store_writing (f : Z -> MemoryStore -> Exc MemoryStore) :
  keeps only_store (writing f).
Proof.
  intros w. unfold writing.
  destruct (f (clock w) (memory w)); simpl; [|reflexivity].
  split; try done. by apply emits_same_log.
Qed.

Lemma keeps_store_extractImportantFacts (u : userId) :
  keeps only_store (extractImportantFacts u).
Proof.
  unfold extractImportantFacts.
  destruct (falsy_id u); [apply keeps_mret, _|].
  apply keeps_try_catch; [apply _| |intros e; apply keeps_mret, _].
  apply keeps_bind; [apply _|apply keeps_reading, _|intros lastMessages].
  destruct (length lastMessages =? 0)%nat; [apply keeps_mret, _|].
  destruct (length lastMessages <? 2)%nat; [apply keeps_mret, _|].
  apply keeps_bind; [apply _|apply keeps_reading, _|intros i].
  apply keeps_try_catch; [apply _| |intros e; apply keeps_mret, _].
  apply keeps_bind; [apply _|apply keeps_store_chatWithLLM|intros result].
  destruct (falsy_string result || bool_decide (result = NOTHING));
    [apply keeps_mret, _|].
  apply keeps_bind; [apply _| |intros _; apply keeps_mret, _].
  apply keeps_for_of; [apply _|]. intros fact _. apply keeps_store_writing.
Qed.

Lemma keeps_store_analyzeAndSaveMood (u : userId) (userMessage assistantReply : jsstring) :
  keeps only_store (analyzeAndSaveMood u userMessage assistantReply).
Proof.
  unfold analyzeAndSaveMood.
  destruct (falsy_id u || falsy_string userMessage || falsy_string assistantReply);
    [apply keeps_mret, _|].
  apply keeps_try_catch; [apply _| |intros e; apply keeps_mret, _].
  apply keeps_bind; [apply _|apply keeps_reading, _|intros i].
  apply keeps_try_catch; [apply _| |intros e; apply keeps_mret, _].
  apply keeps_bind; [apply _|apply keeps_store_chatWithLLM|intros mood].
  destruct (negb (falsy_string mood) && negb (bool_decide (mood = NOTHING)));
    [apply keeps_store_writing|apply keeps_mret, _].
Qed.

(** The two jobs that [handleMessage] leaves to a timer, the fact extraction
    and the mood analysis, never throw and never call the Bot API, whatever
    the model and the store do; they set no timer and touch none of the
    four maps. *)
Theorem run_timer_in_background (t : Timer) (w : World) :
  fst (run_timer t w) = Ok tt /\ only_store w (snd (run_timer t w)).
Proof.
  split.
  - destruct t as [u|u userMessage reply]; unfold run_timer;
      match goal with |- context [try_catch ?m ?h] =>
        destruct (total_try_catch m h) with (w := w) as [[] Hok];
          [intros e w'; by exists tt|done]
      end.
  - destruct t as [u|u userMessage reply]; unfold run_timer;
      (apply keeps_try_catch; [apply _| |intros e; apply keeps_mret, _]).
    + apply keeps_bind; [apply _|apply keeps_store_extractImportantFacts|].
      intros facts. apply keeps_mret, _.
    + apply keeps_store_analyzeAndSaveMood.
Qed.

(** What the mood analysis does to the store: nothing, or exactly one
    accepted [addMood] for the user, of a mood that is neither empty nor
    the signal. *)
Theorem analyzeAndSaveMood_effect (u : userId) (userMessage assistantReply : jsstring)
    (w : World) :
  exists w',
    analyzeAndSaveMood u userMessage assistantReply w = (Ok tt, w') /\
    (memory w' = memory w \/
     exists now mood,
       mood <> [] /\ mood <> NOTHING /\
       Store.addMood now u mood (memory w) = Ok (memory w')).
Proof.
  unfold analyzeAndSaveMood.
  destruct (falsy_id u || falsy_string userMessage || falsy_string assistantReply).
  { exists w. by split; [|left]. }
  unfold try_catch, mbind, M_bind, reading.
  pose proof (keeps_quiet_chatWithLLM
                (mood_request (imports w) userMessage assistantReply) w) as Hq.
  destruct (chatWithLLM (mood_request (imports w) userMessage assistantReply) w)
    as [[mood|e] w1]; simpl in Hq.
  2: { exists w1. split; [done|]. left. apply Hq. }
  destruct (negb (falsy_string mood) && negb (bool_decide (mood = NOTHING))) eqn:E.
  2: { exists w1. split; [done|]. left. apply Hq. }
  apply andb_true_iff in E as [E1 E2].
  apply negb_true_iff, falsy_string_false in E1.
  apply negb_true_iff, bool_decide_eq_false in E2.
  unfold writing. rewrite (quiet_memory _ _ Hq).
  destruct (Store.addMood (clock w1) u mood (memory w)) as [s'|e] eqn:Ea.
  - eexists. split; [done|]. right. by exists (clock w1), mood.
  - exists w1. split; [done|]. left. apply Hq.
Qed.

(** ** The commands *)

Global Instance only_calls_preorder (P : Event -> Prop) : PreOrder (only_calls P).
Proof.
  split.
  - intros w. by split.
  - intros w1 w2 w3 [A1 A2 A3 A4 A5 A6 A7] [B1 B2 B3 B4 B5 B6 B7].
    split; try congruence. by etransitivity.
Qed.

Lemma quiet_only_calls (P : Event -> Prop) (w w' : World) :
  (forall e, off_telegram e -> P e) -> quiet w w' -> only_calls P w w'.
Proof.
  intros HP Hq. split; try apply Hq.
  eapply emits_impl; [exact HP|]. by apply quiet_emits.
Qed.

Lemma keeps_calls_sendMessage (P : Event -> Prop) (u : userId) (text : jsstring) :
  (forall d, P (EvSendMessage u text d)) -> keeps (only_calls P) (bot_sendMessage u text).
Proof.
  intros HP w. split; try (unfold bot_sendMessage; by destruct (telegram _ _)).
  by apply keeps_emits_sendMessage.
Qed.

Lemma keeps_calls_sendChatAction (P : Event -> Prop) (u : userId) (action : jsstring) :
  (forall d, P (EvSendChatAction u action d)) ->
  keeps (only_calls P) (bot_sendChatAction u action).
Proof.
  intros HP w. split; try (unfold bot_sendChatAction; by destruct (telegram _ _)).
  by apply keeps_emits_sendChatAction.
Qed.

Lemma keeps_calls_command_failed (u : userId) (error : JsError) :
  keeps (only_calls (to_chat (Some u))) (command_failed u error).
Proof.
  apply keeps_try_catch; [apply _| |intros e; apply keeps_mret, _].
  by apply keeps_calls_sendMessage.
Qed.

(** Every command but [/clear] only reads and talks. *)
Lemma keeps_calls_command (persona : Exc jsstring) (u : userId) (text : jsstring) :
  text <> lit "/clear" -> keeps (only_calls (to_chat (Some u))) (command persona u text).
Proof.
  intros Hclear. unfold command.
  destruct (bool_decide (text = lit "/start"));
    [by apply keeps_calls_sendMessage|].
  destruct (bool_decide (text = lit "/memory")).
  { unfold memory_command.
    apply keeps_bind; [apply _|apply keeps_reading, _|intros count].
    apply keeps_bind; [apply _|apply keeps_reading, _|intros facts].
    apply keeps_bind; [apply _|apply keeps_reading, _|intros mood].
    destruct (0 <? length facts)%nat; by apply keeps_calls_sendMessage. }
  rewrite bool_decide_eq_false_2 by done.
  destruct (bool_decide (text = lit "/diary")); [|apply keeps_mret, _].
  unfold diary_command.
  apply keeps_bind; [apply _|apply keeps_reading, _|intros allMessages].
  destruct (length allMessages =? 0)%nat; [by apply keeps_calls_sendMessage|].
  apply keeps_bind; [apply _|by apply keeps_calls_sendChatAction|intros _].
  apply keeps_try_catch; [apply _| |intros e; by apply keeps_calls_sendMessage].
  apply keeps_bind; [apply _|apply keeps_reading, _|intros systemPrompt].
  apply keeps_bind; [apply _| |intros diary; by apply keeps_calls_sendMessage].
  intros w. apply quiet_only_calls; [intros e; by destruct e|].
  apply keeps_quiet_chatWithLLM.
Qed.

(** What [/clear] does when the store accepts it: the four entries of the
    user are deleted, then the confirmation is sent. *)
Lemma clear_command_run (u : userId) (w : World) (s' : MemoryStore) :
  Store.clear u (memory w) = Ok s' ->
  clear_command u w
  = bot_sendMessage u CLEARED
      (with_lastActiveMessageTime (delete u (lastActiveMessageTime w))
         (with_lastInteractionTime (delete u (lastInteractionTime w))
            (with_userNames (delete u (userNames w))
               (with_lastMessageTime (delete u (lastMessageTime w))
                  (with_memory s' w))))).
Proof.
  intros Hc. unfold clear_command, mbind, M_bind, writing. rewrite Hc. reflexivity.
Qed.

Lemma clear_command_throws (u : userId) (w : World) (e : JsError) :
  Store.clear u (memory w) = Throw e -> clear_command u w = (Throw e, w).
Proof.
  intros Hc. unfold clear_command, mbind, M_bind, writing. by rewrite Hc.
Qed.

(** A command with a chat id and a text that are not falsy: the [switch]
    under its [catch], then the stamp of the [finally]. *)
Lemma handleCommand_run (persona : Exc jsstring) (msg : Msg) (u : Z)
    (text : jsstring) (w : World) :
  msg_chat msg = Some u -> msg_text msg = Some text -> u <> 0 -> text <> [] ->
  let w1 := snd (try_catch (command persona (IdNum u) text) (command_failed (IdNum u)) w) in
  handleCommand persona msg w
  = (Ok tt, with_lastInteractionTime (<[IdNum u := clock w1]> (lastInteractionTime w1)) w1).
Proof.
  intros Hchat Htext Hu Ht w1. unfold handleCommand. rewrite Hchat, Htext.
  rewrite (proj2 (falsy_string_false _) Ht), (proj2 (falsy_number_false u) Hu).
  unfold try_finally.
  destruct (total_try_catch (command persona (IdNum u) text) (command_failed (IdNum u))) with (w := w)
    as [[] Hok].
  { intros e. apply total_try_catch. intros e' w'. by exists tt. }
  unfold w1.
  destruct (try_catch (command persona (IdNum u) text) (command_failed (IdNum u)) w) as [r w2].
  simpl in Hok. by subst r.
Qed.

(** [handleCommand] never throws, sets no timer, and every call of the Bot
    API it makes goes to the chat of the message, whatever the command,
    the persona, the store, the model and Telegram do. *)
Theorem handleCommand_safe (persona : Exc jsstring) (msg : Msg) (w : World) :
  fst (handleCommand persona msg w) = Ok tt /\
  timers (snd (handleCommand persona msg w)) = timers w /\
  emits (to_chat (IdNum <$> msg_chat msg)) w (snd (handleCommand persona msg w)).
Proof.
  destruct (msg_chat msg) as [u|] eqn:Hchat.
  2: { unfold handleCommand. rewrite Hchat. by repeat split. }
  destruct (msg_text msg) as [text|] eqn:Htext.
  2: { unfold handleCommand. rewrite Hchat, Htext. by repeat split. }
  destruct (falsy_string text) eqn:Ht.
  { unfold handleCommand. rewrite Hchat, Htext, Ht. by repeat split. }
  destruct (falsy_number u) eqn:Hu.
  { unfold handleCommand. rewrite Hchat, Htext, Ht, Hu. by repeat split. }
  apply falsy_string_false in Ht. apply falsy_number_false in Hu.
  rewrite (handleCommand_run persona msg u text w Hchat Htext Hu Ht).
  cbn [fst snd]. split; [done|].
  set (w1 := snd (try_catch (command persona (IdNum u) text) (command_failed (IdNum u)) w)).
  cbn [timers log with_lastInteractionTime].
  assert (Hw1 : timers w1 = timers w /\ emits (to_chat (Some (IdNum u))) w w1).
  { destruct (decide (text = lit "/clear")) as [->|Hne].
    - unfold w1, try_catch. change (command persona (IdNum u) (lit "/clear")) with (clear_command (IdNum u)).
      destruct (Store.clear (IdNum u) (memory w)) as [s'|e] eqn:Hc.
      + rewrite (clear_command_run (IdNum u) w s' Hc).
        match goal with |- context [bot_sendMessage (IdNum u) CLEARED ?w0] =>
          pose proof (keeps_calls_sendMessage (to_chat (Some (IdNum u))) (IdNum u) CLEARED
                        (fun _ => eq_refl) w0) as Hs;
          destruct (bot_sendMessage (IdNum u) CLEARED w0) as [[[]|e] w2] end;
          simpl in Hs.
        * split; [apply Hs|]. destruct Hs as [_ _ _ _ _ _ Hl]. exact Hl.
        * pose proof (keeps_calls_command_failed (IdNum u) e w2) as Hf.
          split; [by rewrite (calls_timers _ _ _ Hf), (calls_timers _ _ _ Hs)|].
          etransitivity; [|apply Hf]. destruct Hs as [_ _ _ _ _ _ Hl]. exact Hl.
      + rewrite (clear_command_throws (IdNum u) w e Hc).
        pose proof (keeps_calls_command_failed (IdNum u) e w) as Hf.
        split; [apply Hf|apply Hf].
    - assert (Hk : only_calls (to_chat (Some (IdNum u))) w w1).
      { unfold w1.
        apply (keeps_try_catch (only_calls (to_chat (Some (IdNum u)))));
          [by apply keeps_calls_command|].
        intros e. apply keeps_calls_command_failed. }
      split; apply Hk. }
  destruct Hw1 as [Htm Hlog]. split; [done|].
  destruct Hlog as (evs & Hl & Hall). by exists evs.
Qed.

(** A command other than [/clear] reads and answers, and that is all: the
    store and the maps are as before, but for the interaction time of the
    chat, which the [finally] sets to the time the command ended at. *)
Theorem command_only_stamps_interaction (persona : Exc jsstring) (msg : Msg) (w : World)
    (u : Z) (text : jsstring) :
  msg_chat msg = Some u -> msg_text msg = Some text -> u <> 0 -> text <> [] ->
  text <> lit "/clear" ->
  let w' := snd (handleCommand persona msg w) in
  memory w' = memory w /\
  lastMessageTime w' = lastMessageTime w /\
  userNames w' = userNames w /\
  lastActiveMessageTime w' = lastActiveMessageTime w /\
  lastInteractionTime w' = <[IdNum u := clock w']> (lastInteractionTime w).
Proof.
  intros Hchat Htext Hu Ht Hne.
  rewrite (handleCommand_run persona msg u text w Hchat Htext Hu Ht). cbn [snd].
  set (w1 := snd (try_catch (command persona (IdNum u) text) (command_failed (IdNum u)) w)).
  assert (Hk : only_calls (to_chat (Some (IdNum u))) w w1).
  { unfold w1.
    apply (keeps_try_catch (only_calls (to_chat (Some (IdNum u)))));
      [by apply keeps_calls_command|].
    intros e. apply keeps_calls_command_failed. }
  destruct Hk as [K1 K2 K3 K4 K5 K6 K7]. simpl. by rewrite K4.
Qed.

Lemma command_only_stamps_interaction_witness :
  lastInteractionTime
    (snd (handleCommand (Ok (lit "Rose")) (text_message 7 (lit "/memory"))
            (world_of (chat_history (IdNum 7) 3) (flaky 0 (lit "hey")) 5000))) !! IdNum 7
  = Some 5000.
Proof.
  rewrite (proj2 (proj2 (proj2 (proj2
             (command_only_stamps_interaction (Ok (lit "Rose"))
                (text_message 7 (lit "/memory"))
                (world_of (chat_history (IdNum 7) 3) (flaky 0 (lit "hey")) 5000)
                7 (lit "/memory") eq_refl eq_refl ltac:(lia) ltac:(discriminate)
                ltac:(discriminate)))))).
  vm_compute. reflexivity.
Defined.

(** [/clear]: when the store accepts the three deletes, the entries under
    the chat id, a number, are deleted from [lastMessageTime], [userNames]
    and [lastActiveMessageTime] too; when the store throws, the maps are
    left alone. Either way the interaction time under the chat id is not
    cleared but set, by the [finally], to the time the command ended at;
    and the stamps of the proactive messages, which the sweep writes under
    strings, are all as they were. *)
Theorem handleCommand_clear (persona : Exc jsstring) (msg : Msg) (w : World) (u : Z) :
  msg_chat msg = Some u -> msg_text msg = Some (lit "/clear") -> u <> 0 ->
  let w' := snd (handleCommand persona msg w) in
  lastInteractionTime w' = <[IdNum u := clock w']> (lastInteractionTime w) /\
  (forall s, lastActiveMessageTime w' !! IdStr s = lastActiveMessageTime w !! IdStr s) /\
  match Store.clear (IdNum u) (memory w) with
  | Ok s' =>
      memory w' = s' /\
      lastMessageTime w' = delete (IdNum u) (lastMessageTime w) /\
      userNames w' = delete (IdNum u) (userNames w) /\
      lastActiveMessageTime w' = delete (IdNum u) (lastActiveMessageTime w)
  | Throw _ =>
      memory w' = memory w /\
      lastMessageTime w' = lastMessageTime w /\
      userNames w' = userNames w /\
      lastActiveMessageTime w' = lastActiveMessageTime w
  end.
Proof.
  intros Hchat Htext Hu.
  rewrite (handleCommand_run persona msg u (lit "/clear") w Hchat Htext Hu ltac:(done)).
  cbn [snd].
  set (w1 := snd (try_catch (command persona (IdNum u) (lit "/clear"))
                            (command_failed (IdNum u)) w)).
  cbn [memory lastMessageTime userNames lastActiveMessageTime lastInteractionTime
       clock with_lastInteractionTime].
  unfold w1, try_catch.
  change (command persona (IdNum u) (lit "/clear")) with (clear_command (IdNum u)).
  destruct (Store.clear (IdNum u) (memory w)) as [s'|e] eqn:Hc.
  - rewrite (clear_command_run (IdNum u) w s' Hc).
    match goal with |- context [bot_sendMessage (IdNum u) CLEARED ?w0] =>
      pose proof (keeps_calls_sendMessage (to_chat (Some (IdNum u))) (IdNum u) CLEARED
                    (fun _ => eq_refl) w0) as Hs;
      destruct (bot_sendMessage (IdNum u) CLEARED w0) as [[[]|e] w2] end;
      simpl in Hs; destruct Hs as [K1 K2 K3 K4 K5 K6 _].
    + cbn [snd]. rewrite K1, K2, K3, K4, K5. cbn.
      split; [by rewrite insert_delete_eq|]. split; [|done].
      intros s. by rewrite lookup_delete_ne.
    + pose proof (keeps_calls_command_failed (IdNum u) e w2) as [F1 F2 F3 F4 F5 F6 _].
      rewrite F1, F2, F3, F4, F5, K1, K2, K3, K4, K5. cbn.
      split; [by rewrite insert_delete_eq|]. split; [|done].
      intros s. by rewrite lookup_delete_ne.
  - rewrite (clear_command_throws (IdNum u) w e Hc).
    pose proof (keeps_calls_command_failed (IdNum u) e w) as [F1 F2 F3 F4 F5 F6 _].
    by rewrite F1, F2, F3, F4, F5.
Qed.

Lemma handleCommand_clear_witness :
  let w := with_lastActiveMessageTime {[ IdStr (lit "7.0") := 4000 ]}
             (world_of (chat_history (IdNum 7) 3) (flaky 0 (lit "hey")) 5000) in
  let w' := snd (handleCommand (Ok (lit "Rose")) (text_message 7 (lit "/clear")) w) in
  Store.getChatCount (memory w') (IdNum 7) = Ok 0 /\
  lastActiveMessageTime w' !! IdStr (lit "7.0") = Some 4000.
Proof.
  intros w w'.
  pose proof (handleCommand_clear (Ok (lit "Rose")) (text_message 7 (lit "/clear")) w 7
                eq_refl eq_refl ltac:(lia)) as (_ & Hstamp & Hclear).
  fold w' in Hstamp, Hclear. split; [|by rewrite Hstamp].
  change (Store.clear (IdNum 7) (memory w))
    with (Store.clear (IdNum 7) (chat_history (IdNum 7) 3)) in Hclear.
  replace (Store.clear (IdNum 7) (chat_history (IdNum 7) 3))
    with (Ok (settle (Store.clear (IdNum 7) (chat_history (IdNum 7) 3))
                     (chat_history (IdNum 7) 3))) in Hclear
    by (vm_compute; reflexivity).
  destruct Hclear as [-> _]. vm_compute. reflexivity.
Defined.



(** ** The lines of an answer *)

Lemma piece_of_trans (a b c : jsstring) : piece_of a b -> piece_of b c -> piece_of a c.
Proof.
  intros (p1 & q1 & ->) (p2 & q2 & ->). exists (p2 ++ p1), (q1 ++ q2).
  by rewrite <- !app_assoc.
Qed.

Lemma suffix_piece (a b : jsstring) : a `suffix_of` b -> piece_of a b.
Proof. intros [k ->]. exists k, []. by rewrite app_nil_r. Qed.

Lemma prefix_piece (a b : jsstring) : a `prefix_of` b -> piece_of a b.
Proof. intros [k ->]. by exists [], k. Qed.

Lemma piece_elem (a b : jsstring) (c : N) : piece_of a b -> c ∈ a -> c ∈ b.
Proof. intros (p & q & ->) Hc. rewrite !elem_of_app. auto. Qed.

Lemma trimStart_suffix (s : jsstring) : trimStart s `suffix_of` s.
Proof.
  induction s as [|c s IH]; simpl; [done|].
  destruct (is_space c); [by apply suffix_cons_r|done].
Qed.

Lemma trimStart_head (s : jsstring) (c : N) :
  head (trimStart s) = Some c -> is_space c = false.
Proof.
  induction s as [|d s IH]; simpl; [done|].
  destruct (is_space d) eqn:E; [done|]. simpl. by intros [= <-].
Qed.

Lemma trimEnd_prefix (s : jsstring) : trimEnd s `prefix_of` s.
Proof.
  apply prefix_suffix_reverse. unfold trimEnd. rewrite reverse_involutive.
  apply trimStart_suffix.
Qed.

Lemma trimEnd_last (s : jsstring) (c : N) :
  last (trimEnd s) = Some c -> is_space c = false.
Proof. unfold trimEnd. rewrite last_reverse. apply trimStart_head. Qed.

Lemma prefix_head (a b : jsstring) (c : N) :
  a `prefix_of` b -> head a = Some c -> head b = Some c.
Proof. intros [k ->]. by destruct a. Qed.

Lemma trim_ends (s : jsstring) :
  piece_of (trim s) s /\
  (forall c, head (trim s) = Some c -> is_space c = false) /\
  (forall c, last (trim s) = Some c -> is_space c = false).
Proof.
  unfold trim. split; [|split].
  - eapply piece_of_trans; [apply prefix_piece, trimEnd_prefix|].
    apply suffix_piece, trimStart_suffix.
  - intros c Hc. apply (trimStart_head s).
    eapply prefix_head; [apply trimEnd_prefix|done].
  - apply trimEnd_last.
Qed.

Lemma strip_bullet_suffix (line : jsstring) : strip_bullet line `suffix_of` line.
Proof.
  destruct line as [|c rest]; simpl; [done|].
  destruct ((c =? 45) || (c =? 8226) || (c =? 42))%N; [|done].
  apply suffix_cons_r, trimStart_suffix.
Qed.

(** The first line is what comes before the first line feed. *)
Lemma split_lines_head (s : jsstring) :
  exists l0 rest, split_lines s = l0 :: rest /\ l0 `prefix_of` s /\ 10%N ∉ l0.
Proof.
  induction s as [|c s (l0 & rest & Hs & Hp & Hn)]; simpl.
  - exists [], []. split; [done|]. split; [done|]. apply not_elem_of_nil.
  - destruct (c =? 10)%N eqn:E.
    + exists [], (split_lines s). split; [done|].
      split; [apply prefix_nil|apply not_elem_of_nil].
    + rewrite Hs. exists (c :: l0), rest. split; [done|].
      split; [by apply prefix_cons|].
      apply not_elem_of_cons. split; [|done].
      apply N.eqb_neq in E. congruence.
Qed.

Lemma split_lines_piece (s line : jsstring) :
  line ∈ split_lines s -> piece_of line s /\ 10%N ∉ line.
Proof.
  revert line. induction s as [|c s IH]; intros line; simpl.
  - intros ->%list_elem_of_singleton. split; [by exists [], []|apply not_elem_of_nil].
  - destruct (c =? 10)%N eqn:E.
    + intros [->|Hin]%elem_of_cons.
      * split; [by exists [], (c :: s)|apply not_elem_of_nil].
      * destruct (IH line Hin) as [(p & q & Hs) Hn]. split; [|done].
        exists (c :: p), q. by rewrite Hs.
    + destruct (split_lines_head s) as (l0 & rest & Hs & [k Hp] & Hn).
      rewrite Hs. intros [->|Hin]%elem_of_cons.
      * split.
        -- exists [], k. simpl. by rewrite Hp.
        -- apply not_elem_of_cons. split; [|done].
           apply N.eqb_neq in E. congruence.
      * destruct (IH line) as [(p & q & Hs') Hn']; [rewrite Hs; by right|].
        split; [|done]. exists (c :: p), q. by rewrite Hs'.
Qed.

(** Every fact the extractor takes from an answer of the model is a piece
    of that answer, on a single line, with no white space at either end,
    and 4 to 99 units long. *)
Theorem parse_facts_clean (result f : jsstring) :
  f ∈ parse_facts result ->
  piece_of f result /\
  (10%N ∉ f) /\
  (4 <= length f <= 99)%nat /\
  (forall c, head f = Some c -> is_space c = false) /\
  (forall c, last f = Some c -> is_space c = false).
Proof.
  intros [(line & Hline & ->) Hlen]%parse_facts_spec.
  destruct (split_lines_piece result line Hline) as [Hpiece Hnl].
  destruct (trim_ends (strip_bullet line)) as (Htrim & Hhead & Hlast).
  assert (Hin : piece_of (trim (strip_bullet line)) line).
  { eapply piece_of_trans; [exact Htrim|]. apply suffix_piece, strip_bullet_suffix. }
  split; [by eapply piece_of_trans|].
  split; [intros Hc; by apply Hnl, (piece_elem _ _ _ Hin)|].
  split; [lia|]. by split.
Qed.

Lemma parse_facts_clean_witness :
  piece_of (lit "plays chess every day") sample_answer.
Proof.
  apply (parse_facts_clean sample_answer (lit "plays chess every day")).
  vm_compute. apply elem_of_cons. right. apply list_elem_of_here.
Defined.

(** ** The first revision of the model client *)

(** Whenever the single request of src/index.js would have returned a
    content, the retrying [chatWithLLM] returns the same content after the
    same one request, and leaves the process in the same state. *)
Theorem chatWithLLM_extends_once (messages : list ChatMessage) (w w' : World)
    (content : jsstring) :
  messages <> [] ->
  chatWithLLM_once messages w = (Ok content, w') ->
  chatWithLLM messages w = (Ok content, w').
Proof.
  intros Hm. unfold chatWithLLM_once, chatWithLLM.
  destruct messages as [|m ms]; [done|].
  change (Z.to_nat maxRetries) with 3%nat. rewrite attempts_step.
  unfold try_catch, mbind, M_bind, axios_post.
  destruct (http (outside w) (posts (log w)) (m :: ms)) as [e|[[|c s]|]]; simpl;
    by intros [= <- <-].
Qed.

Lemma chatWithLLM_extends_once_witness :
  fst (chatWithLLM [user_message (lit "hi")]
         (boot sample_imports (flaky 0 (lit "hey")) empty_tables 0))
  = Ok (lit "hey").
Proof.
  rewrite (chatWithLLM_extends_once [user_message (lit "hi")]
             (boot sample_imports (flaky 0 (lit "hey")) empty_tables 0)
             (snd (chatWithLLM_once [user_message (lit "hi")]
                     (boot sample_imports (flaky 0 (lit "hey")) empty_tables 0)))
             (lit "hey")); [reflexivity|discriminate|reflexivity].
Defined.

(** ** More of the turn handler and of the commands *)

(** A text that starts with a slash is left to the command handler: the
    message handler calls nobody and stores nothing, sets no timer and no
    time; it only records the sender's name if the chat had none. *)
Theorem handleMessage_leaves_commands (msg : Msg) (w : World) (u : Z)
    (userMessage : jsstring) :
  msg_chat msg = Some u -> msg_text msg = Some userMessage -> u <> 0 ->
  (length userMessage <= 1000)%nat -> startsWith userMessage (lit "/") = true ->
  exists w',
    handleMessage msg w = (Ok tt, w') /\
    log w' = log w /\ memory w' = memory w /\ timers w' = timers w /\
    lastMessageTime w' = lastMessageTime w /\
    lastInteractionTime w' = lastInteractionTime w /\
    lastActiveMessageTime w' = lastActiveMessageTime w /\
    userNames w' !! (IdNum u) = match userNames w !! (IdNum u) with
                        | Some n => Some n
                        | None => sender_name msg
                        end /\
    forall v, v <> IdNum u -> userNames w' !! v = userNames w !! v.
Proof.
  intros Hchat Htext Hu Hlen Hslash.
  assert (Hm : userMessage <> []).
  { intros ->. unfold startsWith in Hslash. apply bool_decide_eq_true in Hslash.
    destruct Hslash as [k Hk]. discriminate. }
  unfold handleMessage. rewrite Hchat, Htext.
  rewrite (proj2 (falsy_string_false _) Hm), (proj2 (falsy_number_false u) Hu).
  rewrite (proj2 (Nat.ltb_ge _ _) Hlen).
  unfold try_catch, turn, mbind, M_bind. rewrite Hslash.
  destruct (sender_name msg) as [n|].
  - unfold update. destruct (userNames w !! (IdNum u)) as [n0|] eqn:En.
    + exists w. by rewrite En.
    + eexists. split; [reflexivity|]. cbn. rewrite lookup_insert_eq.
      repeat split; try done. intros v Hv. by rewrite lookup_insert_ne.
  - exists w. repeat split; try done. by destruct (userNames w !! (IdNum u)).
Qed.

Lemma handleMessage_leaves_commands_witness :
  exists w',
    handleMessage (text_message 7 (lit "/memory"))
      (world_of (chat_history (IdNum 7) 3) (flaky 0 (lit "hey")) 5000) = (Ok tt, w') /\
    log w' = [].
Proof.
  destruct (handleMessage_leaves_commands (text_message 7 (lit "/memory"))
              (world_of (chat_history (IdNum 7) 3) (flaky 0 (lit "hey")) 5000) 7 (lit "/memory")
              eq_refl eq_refl ltac:(lia) ltac:(simpl; lia) eq_refl)
    as (w' & Hrun & Hlog & _).
  exists w'. split; [exact Hrun|exact Hlog].
Defined.

Lemma keeps_diary_chatWithLLM (u : userId) (systemPrompt : jsstring)
    (allMessages : list ChatMessage) :
  allMessages <> [] ->
  keeps (only_calls (diary_call u systemPrompt allMessages))
        (chatWithLLM (diary_request systemPrompt (slice_last 30 allMessages))).
Proof.
  intros Hall w.
  pose proof (keeps_quiet_chatWithLLM
                (diary_request systemPrompt (slice_last 30 allMessages)) w) as Hq.
  split; try apply Hq.
  eapply emits_impl; [|apply keeps_asked_chatWithLLM].
  intros e. by destruct e.
Qed.

(** The [switch] arm of [/diary] once the stored messages were read. *)
Lemma keeps_diary_arm (u : userId) (systemPrompt : jsstring)
    (allMessages : list ChatMessage) :
  keeps (only_calls (diary_call u systemPrompt allMessages))
    (if (length allMessages =? 0)%nat then bot_sendMessage u NO_DIARY
     else
       bot_sendChatAction u (lit "typing") ;;
       try_catch
         (sp ← reading (fun _ => Ok systemPrompt);
          diary ← chatWithLLM (diary_request sp (slice_last 30 allMessages));
          bot_sendMessage u (DIARY_HEAD ++ diary))
         (fun err => bot_sendMessage u DIARY_FAILED)).
Proof.
  set (P := diary_call u systemPrompt allMessages).
  assert (Hsend : forall text,
            text = NO_DIARY \/ text = DIARY_FAILED \/ text = COMMAND_FAILED \/
            (exists diary, text = DIARY_HEAD ++ diary) ->
            keeps (only_calls P) (bot_sendMessage u text)).
  { intros text Htxt. apply keeps_calls_sendMessage. intros d. by split. }
  destruct (length allMessages =? 0)%nat eqn:E; [apply Hsend; auto|].
  assert (Hne : allMessages <> []) by (intros Hnil; by rewrite Hnil in E).
  apply (keeps_bind (only_calls P));
    [apply keeps_calls_sendChatAction; intros d; by split|intros _].
  apply (keeps_try_catch (only_calls P)); [|intros e; apply Hsend; auto].
  intros w. unfold mbind at 1, M_bind at 1, reading. 
  apply (keeps_bind (only_calls P)); [by apply keeps_diary_chatWithLLM|].
  intros diary. apply Hsend. do 3 right. by exists diary.
Qed.



(** ** The life of the store handle *)

Lemma step_not_open (s : MemoryStore) (o : StoreOp) :
  conn s <> Opened -> step s o = s.
Proof.
  intros Hc. unfold step, call.
  destruct o as [now u r c|now u f|now u m|u]; simpl.
  - unfold Store.add, run.
    by destruct (falsy_id u || falsy_string r), (conn s).
  - unfold Store.addImportantFact, run.
    by destruct (falsy_id u || falsy_string f), (conn s).
  - unfold Store.addMood, run.
    by destruct (falsy_id u || falsy_string m), (conn s).
  - unfold Store.clear, run. by destruct (conn s).
Qed.

Lemma run_ops_not_open (ops : list StoreOp) (s : MemoryStore) :
  conn s <> Opened -> run_ops ops s = s.
Proof.
  intros Hc. induction ops as [|o ops IH]; simpl; [done|].
  by rewrite step_not_open.
Qed.

(** A store that was closed stays closed: [init] does not open it again
    (it returns at once, the store having been loaded before), every
    writing call throws and leaves the tables as they were, [getRecent] and
    [getAll] return nothing without a word, and the other reads throw. *)
Theorem closed_store_is_inert (s : MemoryStore) (ops : list StoreOp) :
  conn s = Opened ->
  let s' := run_ops ops (Store.init (Store.close s)) in
  conn s' = Closed /\ disk s' = disk s /\
  (forall o, exists e, call o s' = Throw e) /\
  (forall u limit, Store.getRecent s' u limit = []) /\
  (forall u, Store.getAll s' u = []) /\
  (forall u, Store.getImportantFacts s' u = Throw driver_error) /\
  (forall u, Store.getRecentMood s' u = Throw driver_error) /\
  (forall u, Store.getChatCount s' u = Throw driver_error) /\
  Store.getUserIds s' = Throw driver_error.
Proof.
  intros Hc s'.
  assert (Hs' : s' = {| conn := Closed; disk := disk s |}).
  { unfold s'. rewrite run_ops_not_open; unfold Store.init, Store.close; by rewrite Hc. }
  rewrite Hs'. repeat split.
  intros o. destruct o as [now u r c|now u f|now u m|u]; simpl.
  - unfold Store.add, run. simpl. destruct (falsy_id u || falsy_string r); eauto.
  - unfold Store.addImportantFact, run. simpl.
    destruct (falsy_id u || falsy_string f); eauto.
  - unfold Store.addMood, run. simpl. destruct (falsy_id u || falsy_string m); eauto.
  - unfold Store.clear, run. simpl. eauto.
Qed.

Lemma closed_store_is_inert_witness :
  Store.getAll (run_ops [OpAdd 9 (IdNum 7) role_user (lit "anyone?")]
                  (Store.init (Store.close (chat_history (IdNum 7) 3)))) (IdNum 7) = [].
Proof.
  apply (closed_store_is_inert (chat_history (IdNum 7) 3)
           [OpAdd 9 (IdNum 7) role_user (lit "anyone?")]).
  reflexivity.
Defined.

(** ** A completed turn, end to end *)

(** [complete_turn] when the reply fits, Telegram delivers it and the store
    is open: where it leaves the store, the two time maps and the timers. *)
Lemma complete_turn_ok (u : userId) (userMessage reply : jsstring) (w : World) :
  falsy_id u = false -> (length reply <= 4096)%nat ->
  telegram (outside w) (bot_calls (log w)) = true ->
  conn (memory w) = Opened ->
  let now := clock w + 0 + lag (outside w) (length (log w)) in
  let count := Stmt.getChatCount u (disk (memory w)) + 2 in
  exists w',
    complete_turn u userMessage reply w = (Ok tt, w') /\
    memory w' = {| conn := Opened;
                   disk := Stmt.insertMessage u role_assistant reply now
                             (Stmt.insertMessage u role_user userMessage now
                                (disk (memory w))) |} /\
    lastMessageTime w' = <[u := now]> (lastMessageTime w) /\
    lastInteractionTime w' = <[u := now]> (lastInteractionTime w) /\
    clock w' = now /\
    log w' = log w ++ [EvSendMessage u reply true] /\
    timers w' = timers w
                ++ (if Z.rem count 10 =? 0 then [TimerExtract u] else [])
                ++ [TimerMood u userMessage reply].
Proof.
  intros Hu Hlen Htg Hc now count.
  unfold complete_turn.
  rewrite (proj2 (Nat.ltb_ge _ _) Hlen).
  erewrite bind_ok; [|reflexivity].
  erewrite bind_ok; [|unfold bot_sendMessage; rewrite Htg; reflexivity].
  erewrite bind_ok.
  2: { unfold writing, Store.add, run. cbn [clock memory tick].
       rewrite Hu, Hc. reflexivity. }
  erewrite bind_ok.
  2: { unfold writing, Store.add, run. cbn [clock memory tick with_memory conn].
       rewrite Hu. reflexivity. }
  erewrite bind_ok; [|reflexivity].
  erewrite bind_ok; [|reflexivity].
  erewrite bind_ok; [|reflexivity].
  erewrite bind_ok.
  2: { unfold reading, Store.getChatCount, query.
       cbn [memory with_memory with_lastMessageTime with_lastInteractionTime conn disk
            clock tick].
       rewrite getChatCount_two_more. reflexivity. }
  fold count.
  destruct (Z.rem count 10 =? 0).
  - erewrite bind_ok; [|reflexivity]. eexists. split; [reflexivity|].
    cbn. by rewrite <- app_assoc.
  - erewrite bind_ok; [|reflexivity]. eexists. split; [reflexivity|]. by cbn.
Qed.

Lemma getRecent_two_added (s : MemoryStore) (u : userId) (r1 c1 r2 c2 : jsstring)
    (now : Z) :
  Forall (fun row => msg_created_at row <= now) (messages_of u (disk s)) ->
  Store.getRecent
    {| conn := Opened;
       disk := Stmt.insertMessage u r2 c2 now (Stmt.insertMessage u r1 c1 now (disk s)) |}
    u 2
  = [ {| role := r1; content := c1 |}; {| role := r2; content := c2 |} ].
Proof.
  intros Hold. rewrite getRecent_open by (done || lia).
  set (row1 := {| msg_user_id := id_text u; msg_role := r1; msg_content := c1;
                  msg_created_at := now |}).
  set (row2 := {| msg_user_id := id_text u; msg_role := r2; msg_content := c2;
                  msg_created_at := now |}).
  assert (Hrows : messages_of u (Stmt.insertMessage u r2 c2 now
                                   (Stmt.insertMessage u r1 c1 now (disk s)))
                  = (messages_of u (disk s) ++ [row1]) ++ [row2]).
  { unfold messages_of. simpl.
    rewrite (filter_snoc_same msg_user_id _ row2).
    by rewrite (filter_snoc_same msg_user_id _ row1). }
  cbn [disk]. rewrite Hrows.
  rewrite (order_by_asc_snoc msg_created_at row2).
  2: { apply Forall_app. split; [exact Hold|]. repeat constructor. simpl. lia. }
  rewrite (order_by_asc_snoc msg_created_at row1) by exact Hold.
  rewrite !length_app. simpl.
  rewrite <- app_assoc. rewrite drop_app_length'; [done|].
  rewrite (Permutation_length (order_by_asc_perm _ _)). lia.
Qed.

(** A turn that goes well: the message is not a command, the store is
    open, Telegram delivers and the model answers at once with a reply that
    fits. The handler sends the typing action, asks the model once, sends
    the reply, stores the exchange at the time [now] it then reads, stamps
    the two maps and sets the timers. *)
Lemma good_turn (msg : Msg) (w : World) (u : Z) (userMessage reply : jsstring) :
  msg_chat msg = Some u -> msg_text msg = Some userMessage ->
  u <> 0 -> userMessage <> [] -> (length userMessage <= 1000)%nat ->
  startsWith userMessage (lit "/") = false ->
  conn (memory w) = Opened ->
  (forall n, telegram (outside w) n = true) ->
  (forall n messages, http (outside w) n messages = HttpBody (Some reply)) ->
  trim reply <> [] -> (length reply <= 4096)%nat ->
  exists w' messages now,
    handleMessage msg w = (Ok tt, w') /\
    log w' = log w ++ [EvSendChatAction (IdNum u) (lit "typing") true;
                       EvPost messages (HttpBody (Some reply));
                       EvSendMessage (IdNum u) reply true] /\
    memory w' = {| conn := Opened;
                   disk := Stmt.insertMessage (IdNum u) role_assistant reply now
                             (Stmt.insertMessage (IdNum u) role_user userMessage now
                                (disk (memory w))) |} /\
    lastMessageTime w' = <[IdNum u := now]> (lastMessageTime w) /\
    lastInteractionTime w' = <[IdNum u := now]> (lastInteractionTime w) /\
    clock w' = now /\
    ((forall n, 0 <= lag (outside w) n) -> clock w <= now) /\
    timers w' = timers w
                ++ (if Z.rem (Stmt.getChatCount (IdNum u) (disk (memory w)) + 2) 10 =? 0
                    then [TimerExtract (IdNum u)] else [])
                ++ [TimerMood (IdNum u) userMessage reply].
Proof.
  intros Hchat Htext Hu Hm Hlen Hslash Hc Htg Hhttp Htrim Hfit.
  assert (Hid : falsy_id (IdNum u) = false) by (by apply falsy_number_false).
  assert (Hreply : reply <> []) by (by intros ->).
  unfold handleMessage. rewrite Hchat, Htext.
  rewrite (proj2 (falsy_string_false _) Hm), (proj2 (falsy_number_false u) Hu).
  rewrite (proj2 (Nat.ltb_ge _ _) Hlen).
  unfold try_catch, turn. rewrite Hslash.
  set (names := match sender_name msg with Some n => _ | None => _ end).
  assert (Hnames : exists w0,
            names w = (Ok tt, w0) /\ memory w0 = memory w /\ outside w0 = outside w /\
            log w0 = log w /\ clock w0 = clock w /\ timers w0 = timers w /\
            lastMessageTime w0 = lastMessageTime w /\
            lastInteractionTime w0 = lastInteractionTime w).
  { unfold names. destruct (sender_name msg) as [n|]; [|by exists w].
    unfold update. eexists. split; [done|]. by destruct (userNames w !! IdNum u). }
  destruct Hnames as (w0 & Hn & M0 & O0 & L0 & C0 & X0 & T0 & I0).
  erewrite bind_ok; [|exact Hn].
  set (w1 := tick (EvSendChatAction (IdNum u) (lit "typing") true) 0 w0).
  erewrite bind_ok; [|unfold bot_sendChatAction; rewrite O0, Htg; reflexivity].
  fold w1.
  destruct (buildMessages_cons w1 (IdNum u) userMessage Hid Hm) as (m & ms & Hb).
  erewrite bind_ok; [|unfold reading; by rewrite Hb].
  set (w2 := tick (EvPost (m :: ms) (HttpBody (Some reply))) 0 w1).
  erewrite bind_ok.
  2: { unfold chatWithLLM. change (Z.to_nat maxRetries) with 3%nat.
       apply attempts_step_content; [|done].
       unfold w1. cbn [outside tick]. rewrite O0. apply Hhttp. }
  fold w2.
  rewrite (proj2 (falsy_string_false reply) Hreply). simpl orb.
  destruct (length (trim reply) =? 0)%nat eqn:E.
  { apply Nat.eqb_eq in E. by destruct (trim reply). }
  destruct (complete_turn_ok (IdNum u) userMessage reply w2 Hid Hfit)
    as (w' & Hrun & Hmem & Htime & Hinter & Hclock & Hlog & Htimers).
  { unfold w2, w1. cbn [outside tick]. rewrite O0. apply Htg. }
  { unfold w2, w1. cbn [memory tick]. by rewrite M0. }
  cbn [orb]. rewrite Hrun.
  exists w', (m :: ms), (clock w2 + 0 + lag (outside w2) (length (log w2))).
  split; [done|]. split.
  { rewrite Hlog. unfold w2, w1. cbn [log tick]. rewrite L0.
    by rewrite <- !app_assoc. }
  split.
  { rewrite Hmem. unfold w2, w1. cbn [memory tick]. by rewrite M0. }
  split.
  { rewrite Htime. unfold w2, w1. cbn [lastMessageTime tick]. by rewrite T0. }
  split.
  { rewrite Hinter. unfold w2, w1. cbn [lastInteractionTime tick]. by rewrite I0. }
  split; [done|]. split.
  { intros Hlag. unfold w2, w1. cbn [clock outside log tick]. rewrite C0, O0.
    pose proof (Hlag (length (log w0))).
    pose proof (Hlag (length (log w0
                              ++ [EvSendChatAction (IdNum u) (lit "typing") true]))).
    pose proof (Hlag (length ((log w0
                               ++ [EvSendChatAction (IdNum u) (lit "typing") true])
                              ++ [EvPost (m :: ms) (HttpBody (Some reply))]))).
    lia. }
  rewrite Htimers. unfold w2, w1. cbn [timers memory tick]. by rewrite X0, M0.
Qed.

(** A turn that goes well, end to end: the message is not a command, the
    store is open, Telegram delivers, the model answers at once with a
    reply that fits, and the clock does not run backwards. Then the handler
    sends the typing action, asks the model once and sends the reply;
    afterwards the last two messages [getRecent] returns for the user are
    the user's message and the reply, in that order, and the user's last
    message time and last interaction time are the time the turn ended. *)
Theorem completed_turn_is_remembered (msg : Msg) (w : World) (u : Z)
    (userMessage reply : jsstring) :
  msg_chat msg = Some u -> msg_text msg = Some userMessage ->
  u <> 0 -> userMessage <> [] -> (length userMessage <= 1000)%nat ->
  startsWith userMessage (lit "/") = false ->
  conn (memory w) = Opened ->
  (forall n, telegram (outside w) n = true) ->
  (forall n messages, http (outside w) n messages = HttpBody (Some reply)) ->
  trim reply <> [] -> (length reply <= 4096)%nat ->
  (forall n, 0 <= lag (outside w) n) ->
  Forall (fun row => msg_created_at row <= clock w)
         (messages_of (IdNum u) (disk (memory w))) ->
  exists w' messages,
    handleMessage msg w = (Ok tt, w') /\
    log w' = log w ++ [EvSendChatAction (IdNum u) (lit "typing") true;
                       EvPost messages (HttpBody (Some reply));
                       EvSendMessage (IdNum u) reply true] /\
    Store.getRecent (memory w') (IdNum u) 2
    = [user_message userMessage; {| role := role_assistant; content := reply |}] /\
    lastMessageTime w' !! IdNum u = Some (clock w') /\
    lastInteractionTime w' !! IdNum u = Some (clock w').
Proof.
  intros Hchat Htext Hu Hm Hlen Hslash Hc Htg Hhttp Htrim Hfit Hlag Hold.
  destruct (good_turn msg w u userMessage reply Hchat Htext Hu Hm Hlen Hslash Hc Htg
              Hhttp Htrim Hfit)
    as (w' & messages & now & Hrun & Hlog & Hmem & Htime & Hinter & Hclock & Hnow & _).
  exists w', messages. split; [done|]. split; [done|]. split.
  { rewrite Hmem. apply getRecent_two_added.
    specialize (Hnow Hlag).
    eapply Forall_impl; [exact Hold|]. intros row Hrow. cbn beta in *. lia. }
  rewrite Htime, Hinter, Hclock, !lookup_insert_eq. done.
Qed.

Lemma completed_turn_is_remembered_witness :
  exists w',
    handleMessage (text_message 7 (lit "hello"))
      (world_of (chat_history (IdNum 7) 3) (flaky 0 (lit "hey")) 5000) = (Ok tt, w') /\
    Store.getRecent (memory w') (IdNum 7) 2
    = [user_message (lit "hello"); {| role := role_assistant; content := lit "hey" |}].
Proof.
  destruct (completed_turn_is_remembered (text_message 7 (lit "hello"))
              (world_of (chat_history (IdNum 7) 3) (flaky 0 (lit "hey")) 5000)
              7 (lit "hello") (lit "hey"))
    as (w' & messages & Hrun & _ & Hrecent & _).
  - reflexivity.
  - reflexivity.
  - lia.
  - discriminate.
  - simpl. lia.
  - reflexivity.
  - reflexivity.
  - reflexivity.
  - reflexivity.
  - vm_compute. discriminate.
  - simpl. lia.
  - intros n. simpl. lia.
  - vm_compute. repeat constructor; discriminate.
  - exists w'. split; [exact Hrun|exact Hrecent].
Defined.

(** ** The fact extractor, from the trigger to the facts *)



(** A turn that brings the count of stored messages from 8 to 10 schedules
    the extraction before the mood analysis; one that brings it from 2 to 4
    schedules the mood analysis alone. *)
Example tenth_message_triggers :
  timers (snd (handleMessage
                 {| msg_chat := Some 7; msg_text := Some (lit "hello");
                    msg_username := None; msg_first_name := None |}
                 (extraction_world 8)))
  = [TimerExtract (IdNum 7); TimerMood (IdNum 7) (lit "hello") sample_answer] /\
  timers (snd (handleMessage
                 {| msg_chat := Some 7; msg_text := Some (lit "hello");
                    msg_username := None; msg_first_name := None |}
                 (extraction_world 2)))
  = [TimerMood (IdNum 7) (lit "hello") sample_answer].
Proof. split; vm_compute; reflexivity. Qed.

(** ** The second revision's reads against the third's *)

(** What the validated revision changed for a reader of an open store: its
    [getRecent] is the last 50 of what the prepared-statement revision
    returns for the same limit (so the same list up to a limit of 50), and
    its [getAll] is the last 100 of that revision's [getAll]. *)
Theorem validated_reads_are_capped (s : MemoryStore) (u : userId) (limit : Z) :
  conn s = Opened -> 0 <= limit ->
  exists rows all,
    Prepared.getRecent s u limit = Ok rows /\
    Prepared.getAll s u = Ok all /\
    Store.getRecent s u limit = slice_last 50 rows /\
    Store.getAll s u = slice_last 100 all /\
    (limit <= 50 -> Store.getRecent s u limit = rows).
Proof.
  intros Hc Hl.
  unfold Prepared.getRecent, Prepared.getAll, query. rewrite Hc.
  eexists _, _. split; [reflexivity|]. split; [reflexivity|].
  unfold Stmt.getRecentMessages, Stmt.recentRows.
  rewrite <- fmap_reverse, reverse_sql_limit_desc by lia.
  rewrite getRecent_open by done.
  set (rows := messages_of u (disk s)).
  set (asc := order_by_asc msg_created_at rows).
  assert (Hlen : length asc = length rows)
    by apply Permutation_length, order_by_asc_perm.
  split; [|split].
  - unfold slice_last. rewrite length_fmap, length_drop, Hlen.
    rewrite <- !fmap_drop, drop_drop. do 2 f_equal. lia.
  - unfold Store.getAll, query. rewrite Hc. done.
  - intros H50. do 2 f_equal. lia.
Qed.

Lemma validated_reads_are_capped_witness :
  exists rows,
    Prepared.getRecent (chat_history (IdNum 7) 60) (IdNum 7) 55 = Ok rows /\
    Store.getRecent (chat_history (IdNum 7) 60) (IdNum 7) 55 = slice_last 50 rows.
Proof.
  destruct (validated_reads_are_capped (chat_history (IdNum 7) 60) (IdNum 7) 55 eq_refl ltac:(lia))
    as (rows & all & Hrows & _ & Hrecent & _).
  exists rows. split; [exact Hrows|exact Hrecent].
Defined.
